(** * Feedback analyzer intelligence service: conversation classifier and
      session orchestrator

    A shallow embedding of [src/services/llm_service.py] (class [LLM]) and
    [src/services/chat_service.py] (class [ChatService]), with the
    properties of the classifier contract, the retry policy, the media
    relay and the session state machine stated over it.

    Conventions of the embedding.
    - Python dictionaries with a fixed set of keys (the classifier decision,
      DynamoDB items, the feedback payload) are records; a key that may be
      missing is an [option] field and [d.get(k, default)] is [default]
      applied to it.  The decision is typed after the JSON schema that the
      system prompt of [LLM.__init__] dictates (booleans, strings, a list of
      strings).
    - A DynamoDB table addressed by its key is a [gmap]; the relational
      feedback store, the chat log and the WhatsApp outbox are lists in
      creation order.
    - Everything outside the process (the model provider, DynamoDB, Twilio,
      HTTP downloads, S3, the SQL session, [uuid4], the clocks) answers
      through an environment record: one environment describes what the
      outside world answers during one call.
    - Exceptions are values of [exn], all of them instances of [Exception];
      code that can raise returns an [outcome]; the stores are threaded
      explicitly, so that writes made before an exception stay visible.
    - A text is a [string] whose characters stand for the characters that
      [len] counts. *)

From Stdlib Require Import ZArith String Ascii List Bool Lia.
From stdpp Require Import base option list gmap strings.

Local Open Scope string_scope.

(** ** Exceptions and results *)

Inductive exn : Type :=
| RateLimitError                       (* openai.RateLimitError *)
| APIStatusError (status_code : Z)      (* openai.APIStatusError *)
| APIConnectionError                   (* any other provider failure *)
| JSONDecodeError                      (* json.loads on model output *)
| AttributeError
| IndexError
| ValueError (msg : string)
| ClientError                          (* botocore: DynamoDB or S3 *)
| TwilioRestException
| HTTPError                            (* requests *)
| SQLAlchemyError.

Inductive outcome (A : Type) : Type :=
| Ok (a : A)
| Raise (e : exn).
Arguments Ok {A} a.
Arguments Raise {A} e.

Definition is_ok {A} (r : outcome A) : bool :=
  match r with Ok _ => true | Raise _ => false end.

(** Python truthiness of a string and of an optional string. *)
Definition truthy_str (s : string) : bool := negb (s =? EmptyString).

Definition truthy_opt_str (o : option string) : bool :=
  match o with Some s => truthy_str s | None => false end.

(** ** The classifier decision *)

(** The object that [analyze_conversation] returns.  The keys are those of
    the JSON schema in the system prompt, plus the four keys that the
    service itself adds ([media_url], [should_persist_reply],
    [user_limited_until], [reopen_session]). *)
Record Decision : Type := mkDecision {
  is_product_name_present : option bool;
  is_feedback_present : option bool;
  did_user_confirm_media_availability : option bool;
  is_media_present : option bool;
  reply : option string;
  product_name : option string;
  feedback : option string;
  media_url : option string;
  media_urls : option (list string);
  is_feedback_session_complete : option bool;
  is_x_rated_conversation : option bool;
  is_crime_rated_conversation : option bool;
  is_immoral_conversation : option bool;
  is_too_short : option bool;
  is_irrelevant : option bool;
  reply_stage : option string;
  should_persist_reply : option bool;
  user_limited_until : option string;
  reopen_session : option bool
}.

(** [d.get(k, dflt)] on an optional field. *)
Definition get {A} (field : option A) (dflt : A) : A := default dflt field.

(** One entry of the flat message history:
    [{"type": "text", "text": t, "direction": d}] or
    [{"type": "media", "url": u, "direction": d}]; [url] is what
    [media.get("url")] gave, possibly [None]. *)
Inductive Message : Type :=
| TextMessage (text : string) (direction : string)
| MediaMessage (url : option string) (direction : string).

Module LLM.

(** *** Outside world of one [analyze_conversation] call *)

(** What [chat.completions.create] gives back, seen through
    [json.loads(response.choices[0].message.content)]: [None] stands for
    every way the decoding fails (no choice, no content, text that is not a
    JSON object). *)
Record ChatCompletion : Type := mkCompletion {
  content_json : option Decision
}.

Inductive api_outcome : Type :=
| Completed (response : ChatCompletion)
| Failed (e : exn).

Record Env : Type := mkEnv {
  provider : nat -> api_outcome;   (* answer to the attempt of that index *)
  datetime_now : Z                 (* datetime.datetime.now(), microseconds *)
}.

Inductive event : Type :=
| ModelCall (attempt_index : nat) (user_message_content : string)
| Sleep (seconds : Z).

(** *** Fixed replies *)

Definition too_long_reply : string :=
  "Message too long. Please shorten it to under 1000 characters and try again.".

Definition failure_reply : string :=
  "Failed to process your message. Please try again.".

Definition suspension_reply : string :=
  "We detected misuse of the system, and your access has been temporarily suspended for 1 minute. Thank you for your understanding.".

(** The dictionary literal returned by the length check and by the
    exception handler; they differ in [reply] and [should_persist_reply]. *)
Definition fixed_decision (text : string) (persist : bool) : Decision :=
  {| is_product_name_present := Some false;
     is_feedback_present := Some false;
     did_user_confirm_media_availability := Some false;
     is_media_present := Some false;
     reply := Some text;
     product_name := Some EmptyString;
     feedback := Some EmptyString;
     media_url := Some EmptyString;
     media_urls := None;
     is_feedback_session_complete := Some false;
     is_x_rated_conversation := Some false;
     is_crime_rated_conversation := Some false;
     is_immoral_conversation := Some false;
     is_too_short := Some false;
     is_irrelevant := Some false;
     reply_stage := None;
     should_persist_reply := Some persist;
     user_limited_until := None;
     reopen_session := None |}.

Definition too_long_decision : Decision := fixed_decision too_long_reply true.
Definition fallback_decision : Decision := fixed_decision failure_reply false.

(** *** [_convert_messages_to_string] *)

Definition upper (c : ascii) : ascii :=
  let n := nat_of_ascii c in
  if (97 <=? n)%nat && (n <=? 122)%nat then ascii_of_nat (n - 32) else c.

Definition lower (c : ascii) : ascii :=
  let n := nat_of_ascii c in
  if (65 <=? n)%nat && (n <=? 90)%nat then ascii_of_nat (n + 32) else c.

Fixpoint map_string (f : ascii -> ascii) (s : string) : string :=
  match s with
  | EmptyString => EmptyString
  | String c rest => String (f c) (map_string f rest)
  end.

(** [str.capitalize()] on ASCII text. *)
Definition capitalize (s : string) : string :=
  match s with
  | EmptyString => EmptyString
  | String c rest => String (upper c) (map_string lower rest)
  end.

(** An f-string prints [None] as the text [None]. *)
Definition format_opt (o : option string) : string :=
  match o with Some s => s | None => "None" end.

Definition newline : string := String (ascii_of_nat 10) EmptyString.

Definition render_message (msg : Message) : string :=
  match msg with
  | TextMessage text direction => capitalize direction ++ ": " ++ text
  | MediaMessage url direction =>
      capitalize direction ++ ": [Media] " ++ format_opt url
  end.

Definition _convert_messages_to_string (messages : list Message) : string :=
  String.concat newline (map render_message messages).

(** *** [analyze_conversation] *)

Definition character_limit : nat := 1000.

(** The guard of the length check:
    [msg["type"] == "text" and msg.get("text")] and
    [len(msg["text"]) > 1000]. *)
Definition exceeds_limit (msg : Message) : bool :=
  match msg with
  | TextMessage text _ =>
      truthy_str text && (character_limit <? String.length text)%nat
  | MediaMessage _ _ => false
  end.

(** The [for msg in messages] loop of the length check: [true] when it
    returns from inside the loop. *)
Fixpoint any_exceeds_limit (messages : list Message) : bool :=
  match messages with
  | [] => false
  | msg :: rest => if exceeds_limit msg then true else any_exceeds_limit rest
  end.

Definition max_attempts : nat := 3.
Definition wait_seconds : Z := 1.

(** The [for attempt_index in range(max_attempts)] loop, over the indices
    still to run.  It ends with the response on [break], with the exception
    on [raise], and with [response = None] if the range runs out. *)
Fixpoint completion_loop (env : Env) (user_message_content : string)
    (indices : list nat) : outcome (option ChatCompletion) * list event :=
  match indices with
  | [] => (Ok None, [])
  | attempt_index :: rest =>
      let call := ModelCall attempt_index user_message_content in
      let retry :=
        let '(r, evs) := completion_loop env user_message_content rest in
        (r, call :: Sleep wait_seconds :: evs) in
      match provider env attempt_index with
      | Completed response => (Ok (Some response), [call])
      | Failed RateLimitError =>
          if (attempt_index <? max_attempts - 1)%nat then retry
          else (Raise RateLimitError, [call])
      | Failed (APIStatusError status_code) =>
          if (status_code =? 429)%Z && (attempt_index <? max_attempts - 1)%nat
          then retry
          else (Raise (APIStatusError status_code), [call])
      | Failed e => (Raise e, [call])
      end
  end.

(** [json.loads(response.choices[0].message.content)]. *)
Definition json_loads (response : option ChatCompletion) : outcome Decision :=
  match response with
  | None => Raise AttributeError
  | Some r =>
      match content_json r with
      | Some result => Ok result
      | None => Raise JSONDecodeError
      end
  end.

Definition any_safety_flag (result : Decision) : bool :=
  get (is_x_rated_conversation result) false
  || get (is_crime_rated_conversation result) false
  || get (is_immoral_conversation result) false
  || get (is_irrelevant result) false.

Definition timedelta_minutes (n : Z) : Z := (n * 60 * 1000000)%Z.

Section WithIsoformat.

(** [datetime.isoformat()], a function of the standard library of the
    language, taken as a parameter: it prints a time, given here in
    microseconds. *)
Variable isoformat : Z -> string.

(** The four assignments made when a safety flag is set. *)
Definition suspend (now : Z) (result : Decision) : Decision :=
  {| is_product_name_present := is_product_name_present result;
     is_feedback_present := is_feedback_present result;
     did_user_confirm_media_availability :=
       did_user_confirm_media_availability result;
     is_media_present := is_media_present result;
     reply := Some suspension_reply;
     product_name := product_name result;
     feedback := feedback result;
     media_url := media_url result;
     media_urls := media_urls result;
     is_feedback_session_complete := is_feedback_session_complete result;
     is_x_rated_conversation := is_x_rated_conversation result;
     is_crime_rated_conversation := is_crime_rated_conversation result;
     is_immoral_conversation := is_immoral_conversation result;
     is_too_short := is_too_short result;
     is_irrelevant := is_irrelevant result;
     reply_stage := reply_stage result;
     should_persist_reply := Some false;
     user_limited_until := Some (isoformat (now + timedelta_minutes 1)%Z);
     reopen_session := Some true |}.

Definition post_process (now : Z) (result : Decision) : Decision :=
  if any_safety_flag result then suspend now result else result.

(** The body of the [try] block. *)
Definition analyze_body (env : Env) (messages : list Message)
    : outcome Decision * list event :=
  if any_exceeds_limit messages then (Ok too_long_decision, [])
  else
    let user_message_content := _convert_messages_to_string messages in
    let '(response, evs) :=
      completion_loop env user_message_content (seq 0 max_attempts) in
    match response with
    | Raise e => (Raise e, evs)
    | Ok response =>
        match json_loads response with
        | Raise e => (Raise e, evs)
        | Ok result => (Ok (post_process (datetime_now env) result), evs)
        end
    end.

(** [except Exception]: every exception of the body becomes the fallback
    decision. *)
Definition analyze_conversation (env : Env) (messages : list Message)
    : outcome Decision * list event :=
  match analyze_body env messages with
  | (Ok result, evs) => (Ok result, evs)
  | (Raise _, evs) => (Ok fallback_decision, evs)
  end.

End WithIsoformat.

(** What a trace says about the provider. *)
Definition is_model_call (ev : event) : bool :=
  match ev with ModelCall _ _ => true | Sleep _ => false end.

Definition model_calls (evs : list event) : nat :=
  length (filter (fun ev => is_model_call ev = true) evs).

Definition is_rate_limit (e : exn) : bool :=
  match e with
  | RateLimitError => true
  | APIStatusError status_code => (status_code =? 429)%Z
  | _ => false
  end.

End LLM.

Module ChatService.

(** *** Configuration and stores *)

Record Config : Type := mkConfig {
  account_sid : string;
  auth_token : string;
  from_number : string;
  s3_bucket_name : string
}.

(** An item of the [sessions] table, whose key is [session_id].
    [update_item] may create an item that has only the attributes it sets,
    hence the optional fields. *)
Record SessionItem : Type := mkSession {
  session_sender_id : option string;
  session_status : option string;
  session_created_at : option Z;
  session_updated_at : option Z;
  session_user_limited_until : option string
}.

(** [reply_stage] as read by [result.get("reply_stage", 0)]: the text of
    the model, or the number given as default. *)
Inductive ReplyStage : Type :=
| StageName (name : string)
| StageNumber (n : Z).

(** An item of the [chats] table. *)
Record ChatItem : Type := mkChat {
  chat_sender_id : string;
  chat_message_id : string;
  chat_type : string;
  chat_session_id : string;
  chat_created_at : Z;
  content_text : option string;
  content_media_items : list (option string);   (* the [url] of each item *)
  content_media_count : option Z;
  content_segments : option Z;
  content_reply_stage : option ReplyStage;
  metadata_status : option string
}.

(** A message handed to Twilio. *)
Record WhatsAppMessage : Type := mkWhatsApp {
  wa_from : string;
  wa_to : string;
  wa_body : string
}.

Record S3Object : Type := mkObject {
  object_body : string;
  object_content_type : string;
  object_cache_control : string
}.

(** A row of the relational feedback store. *)
Record Feedback : Type := mkFeedback {
  feedback_sender_id : option string;
  feedback_product_name : option string;
  feedback_text : option string;
  feedback_media_urls : list string
}.

(** Modelled from the spec: the schema of the [chats] table is declared
    outside the repository; the spec describes it as one record per chat
    message, read per session in arrival order, so the table is the list of
    its items in arrival order and [put_item] adds at the end. *)
Record World : Type := mkWorld {
  session_table : gmap string SessionItem;
  chat_table : list ChatItem;
  whatsapp_outbox : list WhatsAppMessage;
  s3_objects : gmap string S3Object;
  feedback_table : list Feedback
}.

Definition with_session_table (f : gmap string SessionItem -> gmap string SessionItem)
    (w : World) : World :=
  mkWorld (f (session_table w)) (chat_table w) (whatsapp_outbox w)
          (s3_objects w) (feedback_table w).

Definition with_chat_table (f : list ChatItem -> list ChatItem) (w : World) : World :=
  mkWorld (session_table w) (f (chat_table w)) (whatsapp_outbox w)
          (s3_objects w) (feedback_table w).

Definition with_whatsapp_outbox (f : list WhatsAppMessage -> list WhatsAppMessage)
    (w : World) : World :=
  mkWorld (session_table w) (chat_table w) (f (whatsapp_outbox w))
          (s3_objects w) (feedback_table w).

Definition with_s3_objects (f : gmap string S3Object -> gmap string S3Object)
    (w : World) : World :=
  mkWorld (session_table w) (chat_table w) (whatsapp_outbox w)
          (f (s3_objects w)) (feedback_table w).

Definition with_feedback_table (f : list Feedback -> list Feedback) (w : World) : World :=
  mkWorld (session_table w) (chat_table w) (whatsapp_outbox w)
          (s3_objects w) (f (feedback_table w)).

(** *** Outside world of one reply cycle *)

(** The DynamoDB requests of a cycle, by the place that issues them. *)
Inductive dynamodb_call : Type :=
| QuerySessions          (* get_user_unresolved_session_message *)
| QueryChats             (* get_user_unresolved_session_message *)
| PutNewSession          (* get_reply_message *)
| UpdateCompleted        (* mark_session_as_completed *)
| PutReopenedSession     (* mark_session_as_completed, reopen_session *)
| UpdateLimited          (* mark_session_as_limited *)
| PutChat.               (* save_chat_message *)

Record TwilioMedia : Type := mkMedia {
  media_sid_of : string;
  media_uri : string
}.

Record HttpResponse : Type := mkResponse {
  response_ok : bool;                       (* raise_for_status() passes *)
  response_content : string;
  response_content_type : option string     (* the Content-Type header *)
}.

Record Env : Type := mkEnv {
  llm_env : LLM.Env;
  uuid_new_session : string;        (* uuid4() in get_reply_message *)
  uuid_reopened_session : string;   (* uuid4() in mark_session_as_completed *)
  uuid_message : string;            (* uuid4() in reply_user *)
  time_time : dynamodb_call -> Z;   (* int(time.time()) read for that request *)
  dynamodb_ok : dynamodb_call -> bool;
  page_limit : nat;                 (* a page of a query holds page_limit + 1 items *)
  twilio_send_ok : bool;
  twilio_media_list : string -> outcome (list TwilioMedia);
  http_get : string -> outcome HttpResponse;
  s3_put_ok : string -> bool;       (* by object key *)
  db_commit_ok : bool
}.

(** *** Computations over the stores *)

Definition M (A : Type) : Type := World -> outcome A * World.

Definition ret {A} (a : A) : M A := fun w => (Ok a, w).

Definition bind {A B} (m : M A) (k : A -> M B) : M B :=
  fun w =>
    match m w with
    | (Ok a, w') => k a w'
    | (Raise e, w') => (Raise e, w')
    end.

Definition raise {A} (e : exn) : M A := fun w => (Raise e, w).

Definition lift {A} (r : outcome A) : M A := fun w => (r, w).

(** [try: m except Exception: handler]. *)
Definition try_except {A} (m : M A) (handler : exn -> M A) : M A :=
  fun w =>
    match m w with
    | (Ok a, w') => (Ok a, w')
    | (Raise e, w') => handler e w'
    end.

(** [asyncio.gather] with [return_exceptions=True]: every task runs and
    its result or exception is collected.  The tasks of one gather act on
    different stores, so they are run here in the order of the list. *)
Fixpoint gather {A} (tasks : list (M A)) (w : World) : list (outcome A) * World :=
  match tasks with
  | [] => ([], w)
  | task :: rest =>
      let '(r, w1) := task w in
      let '(rs, w2) := gather rest w1 in
      (r :: rs, w2)
  end.

(** [await asyncio.gather(...)]: the gather itself never raises. *)
Definition await_gather {A} (tasks : list (M A)) : M (list (outcome A)) :=
  fun w => let '(rs, w') := gather tasks w in (Ok rs, w').

Global Instance M_ret : MRet M := @ret.
Global Instance M_bind : MBind M := fun A B k m => bind m k.

(** *** DynamoDB requests *)

Definition put_session (env : Env) (call : dynamodb_call) (session_id : string)
    (item : SessionItem) : M unit :=
  fun w =>
    if dynamodb_ok env call
    then (Ok tt, with_session_table (fun t => <[session_id := item]> t) w)
    else (Raise ClientError, w).

Definition empty_session : SessionItem := mkSession None None None None None.

(** [update_item] with a [SET] expression: the attributes are written onto
    the item of that key, which is created when it does not exist. *)
Definition update_session (env : Env) (call : dynamodb_call) (session_id : string)
    (set : SessionItem -> SessionItem) : M unit :=
  fun w =>
    if dynamodb_ok env call
    then (Ok tt,
          with_session_table
            (fun t => <[session_id := set (default empty_session (t !! session_id))]> t) w)
    else (Raise ClientError, w).

Definition new_session (sender_id : string) (now : Z) : SessionItem :=
  mkSession (Some sender_id) (Some "active") (Some now) None None.

Definition set_completed (now : Z) (item : SessionItem) : SessionItem :=
  mkSession (session_sender_id item) (Some "completed") (session_created_at item)
            (Some now) (session_user_limited_until item).

Definition set_limited (until : string) (now : Z) (item : SessionItem) : SessionItem :=
  mkSession (session_sender_id item) (session_status item) (session_created_at item)
            (Some now) (Some until).

(** Modelled from the spec: the index [SenderSessionsIndex] is declared
    outside the repository; the spec says it lists the sessions of a sender
    most recent first, read here as descending [created_at].  An item
    without the attributes of the index is not listed. *)
Definition in_sender_index (sender_id : string) (entry : string * SessionItem) : bool :=
  match session_sender_id entry.2, session_created_at entry.2 with
  | Some s, Some _ => s =? sender_id
  | _, _ => false
  end.

Definition created (entry : string * SessionItem) : Z :=
  default 0%Z (session_created_at entry.2).

Fixpoint insert_recent (entry : string * SessionItem)
    (sorted : list (string * SessionItem)) : list (string * SessionItem) :=
  match sorted with
  | [] => [entry]
  | e :: rest =>
      if (created e <=? created entry)%Z then entry :: e :: rest
      else e :: insert_recent entry rest
  end.

Definition most_recent_first (entries : list (string * SessionItem))
    : list (string * SessionItem) :=
  foldr insert_recent [] entries.

Definition sender_sessions_index (table : gmap string SessionItem) (sender_id : string)
    : list (string * SessionItem) :=
  most_recent_first
    (List.filter (in_sender_index sender_id) (map_to_list table)).

Definition is_active (item : SessionItem) : bool :=
  match session_status item with
  | Some s => s =? "active"
  | None => false
  end.

(** The query of [get_user_unresolved_session_message] on the sessions
    table: index order reversed ([ScanIndexForward=False]), [Limit=1], then
    [FilterExpression] status = active.  DynamoDB applies the limit to the
    items it reads and filters afterwards. *)
Definition query_active_session (table : gmap string SessionItem) (sender_id : string)
    : list (string * SessionItem) :=
  List.filter (fun entry => is_active entry.2)
              (take 1 (sender_sessions_index table sender_id)).

(** The index [SessionIndex] of the chats table: the items of a session in
    ascending order. *)
Definition session_index (chats : list ChatItem) (session_id : string) : list ChatItem :=
  List.filter (fun c => chat_session_id c =? session_id) chats.

(** One page of the query on [SessionIndex], from the position given by
    [ExclusiveStartKey]; [LastEvaluatedKey] is present when items remain. *)
Definition query_page (env : Env) (index : list ChatItem) (start : nat)
    : list ChatItem * option nat :=
  let n := S (page_limit env) in
  (take n (drop start index),
   if (start + n <? length index)%nat then Some (start + n)%nat else None).

(** The [while True] loop that reads every page; [fuel] bounds the number
    of pages, and a page holds at least one item, so the fuel that
    [all_messages] gives is never used up. *)
Fixpoint fetch_messages (fuel : nat) (env : Env) (index : list ChatItem)
    (messages : list ChatItem) (last_key : option nat) : list ChatItem :=
  match fuel with
  | O => messages
  | S fuel' =>
      let '(items, next) := query_page env index (default O last_key) in
      let messages := (messages ++ items)%list in
      match next with
      | None => messages
      | Some key => fetch_messages fuel' env index messages (Some key)
      end
  end.

Definition all_messages (env : Env) (chats : list ChatItem) (session_id : string)
    : list ChatItem :=
  let index := session_index chats session_id in
  fetch_messages (S (length index)) env index [] None.

(** *** Text helpers of the language *)

(** [s.split(sep)] for a separator of one character. *)
Fixpoint split (sep : ascii) (s : string) : list string :=
  match s with
  | EmptyString => [EmptyString]
  | String c rest =>
      let parts := split sep rest in
      if Ascii.eqb c sep then EmptyString :: parts
      else match parts with
           | p :: ps => String c p :: ps
           | [] => [String c EmptyString]
           end
  end.

(** [parts[-k]] for [k >= 1]; [None] is an [IndexError]. *)
Definition from_end (parts : list string) (k : nat) : option string :=
  if (length parts <? k)%nat then None
  else nth_error parts (length parts - k).

(** [s.replace(pattern, empty)] for a non-empty pattern: occurrences are
    removed from left to right; [skip] counts the characters of the current
    occurrence still to drop. *)
Fixpoint remove_occurrences (pattern : string) (skip : nat) (s : string) : string :=
  match s with
  | EmptyString => EmptyString
  | String c rest =>
      match skip with
      | S k => remove_occurrences pattern k rest
      | O =>
          if String.prefix pattern s
          then remove_occurrences pattern (String.length pattern - 1) rest
          else String c (remove_occurrences pattern 0 rest)
      end
  end.

Definition slash : ascii := ascii_of_nat 47.

(** *** [save_feedback_data] *)

(** The dictionary built in [get_reply_message] and completed in
    [reply_user]; [{}] is the record without any key. *)
Record FeedbackData : Type := mkFeedbackData {
  data_sender_id : option string;
  data_product_name : option string;
  data_feedback_text : option string;
  data_media_urls : option (list string)
}.

Definition no_feedback_data : FeedbackData := mkFeedbackData None None None None.

Definition save_feedback_data (env : Env) (feedback_data : FeedbackData) : M Feedback :=
  fun w =>
    let feedback :=
      mkFeedback (data_sender_id feedback_data)
                 (data_product_name feedback_data)
                 (data_feedback_text feedback_data)
                 (get (data_media_urls feedback_data) []) in
    if db_commit_ok env
    then (Ok feedback, with_feedback_table (fun t => t ++ [feedback])%list w)
    else (Raise SQLAlchemyError, w).   (* rollback, then raise *)

(** *** [upload_to_s3] *)

Definition s3_key_of (message_sid media_sid extension : string) : string :=
  "feedback-media/" ++ message_sid ++ "/" ++ media_sid ++ "." ++ extension.

Definition s3_url_of (bucket s3_key : string) : string :=
  "https://" ++ bucket ++ ".s3.amazonaws.com/" ++ s3_key.

Definition s3_put_object (env : Env) (s3_key : string) (object : S3Object) : M unit :=
  fun w =>
    if s3_put_ok env s3_key
    then (Ok tt, with_s3_objects (fun b => <[s3_key := object]> b) w)
    else (Raise ClientError, w).

Definition upload_to_s3 (cfg : Config) (env : Env) (content message_sid media_sid
    content_type : string) : M (option string) :=
  try_except
    (let extension := get (from_end (split slash content_type) 1) EmptyString in
     let s3_key := s3_key_of message_sid media_sid extension in
     s3_put_object env s3_key (mkObject content content_type "max-age=31536000") ;;
     mret (Some (s3_url_of (s3_bucket_name cfg) s3_key)))
    (fun _ => mret None).

(** *** [download_single_media] *)

(** The [for media in media_list] loop: the address of the first medium
    with that sid. *)
Fixpoint find_media_url (media_list : list TwilioMedia) (media_sid : string)
    : option string :=
  match media_list with
  | [] => None
  | media :: rest =>
      if media_sid_of media =? media_sid
      then Some ("https://api.twilio.com" ++ remove_occurrences ".json" 0 (media_uri media))
      else find_media_url rest media_sid
  end.

Definition download_single_media_body (cfg : Config) (env : Env) (url : string)
    : M (option string) :=
  let parts := split slash url in
  message_sid ← lift (match from_end parts 3 with
                      | Some s => Ok s | None => Raise IndexError end);
  media_sid ← lift (match from_end parts 1 with
                    | Some s => Ok s | None => Raise IndexError end);
  media_list ← lift (twilio_media_list env message_sid);
  let media_url := find_media_url media_list media_sid in
  if negb (truthy_opt_str media_url)
  then raise (ValueError ("Media not found: " ++ media_sid))
  else
    response ← lift (http_get env (get media_url EmptyString));
    if negb (response_ok response) then raise HTTPError
    else
      let content := response_content response in
      s3_url ← upload_to_s3 cfg env content message_sid media_sid
                 (get (response_content_type response) "application/octet-stream");
      mret (if truthy_opt_str s3_url then s3_url else None).

(** The result is the [s3_url] of the dictionary [{"s3_url": s3_url}], or
    [None]. *)
Definition download_single_media (cfg : Config) (env : Env) (url : string)
    : M (option string) :=
  try_except (download_single_media_body cfg env url) (fun _ => mret None).

(** *** [download_media_files] *)

(** [[r.get("s3_url") for r in results if r and r.get("s3_url")]]: an
    exception object among the results has no [get]. *)
Fixpoint saved_urls_of (results : list (outcome (option string)))
    : outcome (list string) :=
  match results with
  | [] => Ok []
  | Raise _ :: _ => Raise AttributeError
  | Ok r :: rest =>
      match saved_urls_of rest with
      | Raise e => Raise e
      | Ok urls => Ok (if truthy_opt_str r then get r EmptyString :: urls else urls)
      end
  end.

Definition download_media_files (cfg : Config) (env : Env) (feedback_data : FeedbackData)
    : M unit :=
  let media_urls := get (data_media_urls feedback_data) [] in
  let feedback_model_data :=
    mkFeedbackData (data_sender_id feedback_data)
                   (data_product_name feedback_data)
                   (data_feedback_text feedback_data)
                   (Some (get (data_media_urls feedback_data) [])) in
  feedback_model_data ←
    (if (0 <? length media_urls)%nat
     then
       results ← await_gather (map (download_single_media cfg env) media_urls);
       saved_urls ← lift (saved_urls_of results);
       mret (mkFeedbackData (data_sender_id feedback_model_data)
                            (data_product_name feedback_model_data)
                            (data_feedback_text feedback_model_data)
                            (Some saved_urls))
     else mret feedback_model_data);
  save_feedback_data env feedback_model_data ;;
  mret tt.

(** *** Sending and logging the reply *)

Definition send_whatsapp_message (env : Env) (from_number to_number reply_message : string)
    : M unit :=
  fun w =>
    if twilio_send_ok env
    then (Ok tt,
          with_whatsapp_outbox
            (fun o => o ++ [mkWhatsApp from_number to_number reply_message])%list w)
    else (Raise TwilioRestException, w).

Definition save_chat_message (env : Env) (message_data : ChatItem) : M unit :=
  fun w =>
    if dynamodb_ok env PutChat
    then (Ok tt, with_chat_table (fun t => t ++ [message_data])%list w)
    else (Raise ClientError, w).

(** *** Session updates *)

Definition mark_session_as_limited (env : Env) (session_id user_limited_until : string)
    : M unit :=
  update_session env UpdateLimited session_id
    (set_limited user_limited_until (time_time env UpdateLimited)).

Definition mark_session_as_completed (env : Env) (sender_id session_id : string)
    (reopen_session : bool) : M string :=
  if reopen_session
  then
    let new_session_id := uuid_reopened_session env in
    put_session env PutReopenedSession new_session_id
      (new_session sender_id (time_time env PutReopenedSession)) ;;
    mret new_session_id
  else
    update_session env UpdateCompleted session_id
      (set_completed (time_time env UpdateCompleted)) ;;
    mret session_id.

(** *** [get_user_unresolved_session_message] *)

Record Conversation : Type := mkConversation {
  messages : list Message;
  conversation_session_id : string
}.

(** The entries that one chat item contributes to the history. *)
Definition transform (msg : ChatItem) : list Message :=
  let direction := if chat_type msg =? "inbound" then "inbound" else "outbound" in
  ((match content_text msg with
    | Some text => if truthy_str text then [TextMessage text direction] else []
    | None => []
    end)
   ++ map (fun url => MediaMessage url direction) (content_media_items msg))%list.

Definition get_user_unresolved_session_message (env : Env) (sender_id : string)
    : M (option Conversation) :=
  fun w =>
    if negb (dynamodb_ok env QuerySessions) then (Raise ClientError, w)
    else
      match query_active_session (session_table w) sender_id with
      | [] => (Ok None, w)
      | (session_id, _) :: _ =>
          if negb (dynamodb_ok env QueryChats) then (Raise ClientError, w)
          else
            match all_messages env (chat_table w) session_id with
            | [] => (Ok None, w)
            | msgs => (Ok (Some (mkConversation (flat_map transform msgs) session_id)), w)
            end
      end.

Section WithIsoformat.

Variable isoformat : Z -> string.

(** *** [get_reply_message] *)

(** Lines 336 to 352: the conversation to continue, or a session created
    on the spot with an empty history. *)
Definition resolve_conversation (env : Env) (sender_id : string) : M Conversation :=
  conversation ← get_user_unresolved_session_message env sender_id;
  match conversation with
  | None =>
      let session_id := uuid_new_session env in
      put_session env PutNewSession session_id
        (new_session sender_id (time_time env PutNewSession)) ;;
      mret (mkConversation [] session_id)
  | Some conversation => mret conversation
  end.

Definition feedback_data_of (result : Decision) : FeedbackData :=
  if get (is_feedback_session_complete result) false
  then mkFeedbackData None
                      (Some (get (product_name result) EmptyString))
                      (Some (get (feedback result) EmptyString))
                      (Some (get (media_urls result) []))
  else no_feedback_data.

Definition reply_stage_of (result : Decision) : ReplyStage :=
  match reply_stage result with
  | Some name => StageName name
  | None => StageNumber 0
  end.

(** What [get_reply_message] returns, in the order of its tuple. *)
Record Reply : Type := mkReply {
  reply_text : string;
  reply_session_id : string;
  reply_should_persist : bool;
  reply_reply_stage : ReplyStage;
  reply_is_complete : bool;
  reply_feedback_data : FeedbackData
}.

(** Lines 354 to 385: the classifier is asked, then the three session
    updates are made, each under its own condition. *)
Definition apply_decision (env : Env) (sender_id : string) (conversation : Conversation)
    : M Reply :=
  let session_id := conversation_session_id conversation in
  result ← lift (LLM.analyze_conversation isoformat (llm_env env)
                   (messages conversation)).1;
  let feedback_data := feedback_data_of result in
  let reply := get (reply result) EmptyString in
  let should_persist_reply := get (should_persist_reply result) true in
  let is_feedback_session_complete := get (is_feedback_session_complete result) false in
  let user_limited_until := user_limited_until result in
  let reopen_session := get (reopen_session result) false in
  let reply_stage := reply_stage_of result in
  (if is_feedback_session_complete && truthy_str session_id
   then mark_session_as_completed env sender_id session_id false ;; mret tt
   else mret tt) ;;
  session_id ← (if reopen_session && truthy_str session_id
                then mark_session_as_completed env sender_id session_id true
                else mret session_id);
  (if truthy_opt_str user_limited_until && truthy_str session_id
   then mark_session_as_limited env session_id (get user_limited_until EmptyString)
   else mret tt) ;;
  mret (mkReply reply session_id should_persist_reply reply_stage
                is_feedback_session_complete feedback_data).

Definition get_reply_message (env : Env) (sender_id : string) : M Reply :=
  conversation ← resolve_conversation env sender_id;
  apply_decision env sender_id conversation.

(** *** [reply_user] *)

Record Summary : Type := mkSummary {
  summary_session_id : string;
  summary_message_id : string;
  summary_status : string
}.

Definition with_prefix (number : string) : string :=
  if String.prefix "whatsapp:" number then number else "whatsapp:" ++ number.

Definition chat_data_of (sender_id message_id : string) (timestamp : Z)
    (r : Reply) : ChatItem :=
  mkChat sender_id message_id "outbound" (reply_session_id r) timestamp
         (Some (reply_text r)) [] (Some 0%Z) (Some 1%Z)
         (Some (reply_reply_stage r)) (Some "sent").

(** The tasks handed to [asyncio.gather]. *)
Definition reply_tasks (cfg : Config) (env : Env) (sender_id message_id : string)
    (timestamp : Z) (r : Reply) : list (M unit) :=
  let from_number := with_prefix (from_number cfg) in
  let to_number := with_prefix ("+" ++ sender_id) in
  let chat_data := chat_data_of sender_id message_id timestamp r in
  let whatsapp_task := send_whatsapp_message env from_number to_number (reply_text r) in
  let save_task :=
    if reply_should_persist r then Some (save_chat_message env chat_data) else None in
  let tasks :=
    ([whatsapp_task] ++ (match save_task with Some t => [t] | None => [] end))%list in
  if reply_is_complete r
  then
    let feedback_data :=
      mkFeedbackData (Some sender_id)
                     (data_product_name (reply_feedback_data r))
                     (data_feedback_text (reply_feedback_data r))
                     (data_media_urls (reply_feedback_data r)) in
    (tasks ++ [download_media_files cfg env feedback_data])%list
  else tasks.

Definition reply_user (cfg : Config) (env : Env) (sender_id : string) : M Summary :=
  try_except
    (r ← get_reply_message env sender_id;
     let message_id := uuid_message env in
     let timestamp := time_time env PutChat in
     await_gather (reply_tasks cfg env sender_id message_id timestamp r) ;;
     mret (mkSummary (reply_session_id r) message_id "sent"))
    (fun e => raise e).

End WithIsoformat.

End ChatService.

(** * Vocabulary of the properties *)

Module ClassifierSpec.
Import LLM.

(** The loop, when every attempt before [k] was rate limited and the
    attempt [k] answers something that is not retried. *)
Definition rate_limited_before (env : Env) (k : nat) : Prop :=
  forall j, (j < k)%nat -> exists e, provider env j = Failed e /\ is_rate_limit e = true.

(** The trace of [k] rate-limited attempts followed by a last call. *)
Fixpoint retries_then_call (p : string) (a k : nat) : list event :=
  match k with
  | O => [ModelCall a p]
  | S k' => ModelCall a p :: Sleep wait_seconds :: retries_then_call p (S a) k'
  end.

(** What the call returns once the loop has stopped at the attempt [k]. *)
Definition answer_of (isoformat : Z -> string) (env : Env) (k : nat) : Decision :=
  match provider env k with
  | Completed response =>
      match content_json response with
      | Some result => post_process isoformat (datetime_now env) result
      | None => fallback_decision
      end
  | Failed _ => fallback_decision
  end.

End ClassifierSpec.

Module OrchestratorSpec.
Import ChatService.

(** [ensures R Q m]: running [m] moves the stores along [R], whether it
    returns or raises, and a value that it returns satisfies [Q]. *)
Definition ensures {A} (R : World -> World -> Prop) (Q : A -> Prop) (m : M A)
    : Prop :=
  forall w, R w (m w).2 /\ forall a, (m w).1 = Ok a -> Q a.

Definition any {A} (a : A) : Prop := True.

(** A store that a computation leaves as it is. *)
Definition unchanged {B} (proj : World -> B) (w w' : World) : Prop :=
  proj w' = proj w.

Definition ok_value {A} (r : outcome A) : option A :=
  match r with Ok a => Some a | Raise _ => None end.

Definition extension_of (content_type : string) : string :=
  get (from_end (split slash content_type) 1) EmptyString.

(** The text holds the character. *)
Fixpoint has_char (c : ascii) (s : string) : bool :=
  match s with
  | EmptyString => false
  | String x rest => Ascii.eqb x c || has_char c rest
  end.

(** The relay as the design describes it: the identifiers are taken from
    the reference, the content location is looked up, the content is
    downloaded and uploaded under a key made of the identifiers, and the
    address of the object is the result; a step that fails gives [None]. *)
Definition relay (cfg : Config) (env : Env) (reference : string) : option string :=
  let parts := split slash reference in
  message_sid ← from_end parts 3;
  media_sid ← from_end parts 1;
  media_list ← ok_value (twilio_media_list env message_sid);
  location ← find_media_url media_list media_sid;
  response ← ok_value (http_get env location);
  if response_ok response then
    let s3_key :=
      s3_key_of message_sid media_sid
        (extension_of (get (response_content_type response)
                           "application/octet-stream")) in
    if s3_put_ok env s3_key
    then Some (s3_url_of (s3_bucket_name cfg) s3_key)
    else None
  else None.

(** An address of an object that the bucket holds. *)
Definition stored (cfg : Config) (w : World) (url : string) : Prop :=
  exists s3_key,
    url = s3_url_of (s3_bucket_name cfg) s3_key /\
    is_Some (s3_objects w !! s3_key).

(** The bucket only gains objects and the other stores stay as they are. *)
Definition s3_grows (w w' : World) : Prop :=
  (forall s3_key, is_Some (s3_objects w !! s3_key) ->
                  is_Some (s3_objects w' !! s3_key)) /\
  session_table w' = session_table w /\
  chat_table w' = chat_table w /\
  whatsapp_outbox w' = whatsapp_outbox w /\
  feedback_table w' = feedback_table w.

(** The row that [download_media_files] writes for a payload. *)
Definition feedback_row (cfg : Config) (env : Env) (feedback_data : FeedbackData)
    : Feedback :=
  mkFeedback (data_sender_id feedback_data)
             (data_product_name feedback_data)
             (data_feedback_text feedback_data)
             (omap (relay cfg env) (get (data_media_urls feedback_data) [])).

Definition feedback_payload (sender_id : string) (r : Reply) : FeedbackData :=
  mkFeedbackData (Some sender_id)
                 (data_product_name (reply_feedback_data r))
                 (data_feedback_text (reply_feedback_data r))
                 (data_media_urls (reply_feedback_data r)).

Definition outbound_message (cfg : Config) (sender_id : string) (r : Reply)
    : WhatsAppMessage :=
  mkWhatsApp (with_prefix (from_number cfg)) (with_prefix ("+" ++ sender_id))
             (reply_text r).

(** The session that the reply names once the decision is applied. *)
Definition decided_session_id (env : Env) (d : Decision) (session_id : string)
    : string :=
  if get (reopen_session d) false && truthy_str session_id
  then uuid_reopened_session env else session_id.

(** The sessions table once the three updates of a decision are made. *)
Definition table_after_decision (env : Env) (sender_id : string) (d : Decision)
    (session_id : string) (t : gmap string SessionItem) : gmap string SessionItem :=
  let t1 :=
    if get (is_feedback_session_complete d) false && truthy_str session_id
    then <[session_id := set_completed (time_time env UpdateCompleted)
                           (default empty_session (t !! session_id))]> t
    else t in
  let t2 :=
    if get (reopen_session d) false && truthy_str session_id
    then <[uuid_reopened_session env :=
             new_session sender_id (time_time env PutReopenedSession)]> t1
    else t1 in
  let session_id' := decided_session_id env d session_id in
  if truthy_opt_str (user_limited_until d) && truthy_str session_id'
  then <[session_id' := set_limited (get (user_limited_until d) EmptyString)
                          (time_time env UpdateLimited)
                          (default empty_session (t2 !! session_id'))]> t2
  else t2.

Definition reply_of (env : Env) (d : Decision) (session_id : string) : Reply :=
  mkReply (get (reply d) EmptyString) (decided_session_id env d session_id)
          (get (should_persist_reply d) true) (reply_stage_of d)
          (get (is_feedback_session_complete d) false) (feedback_data_of d).

Definition active_for (sender_id : string) (item : SessionItem) : Prop :=
  session_sender_id item = Some sender_id /\ is_active item = true.

Definition at_most_one_active (table : gmap string SessionItem) (sender_id : string)
    : Prop :=
  forall k1 k2 item1 item2,
    table !! k1 = Some item1 -> table !! k2 = Some item2 ->
    active_for sender_id item1 -> active_for sender_id item2 -> k1 = k2.

Definition no_active_session (table : gmap string SessionItem) (sender_id : string)
    : Prop :=
  forall k item, table !! k = Some item -> ~ active_for sender_id item.

(** Every active session of the sender in [w'] was already one in [w], or
    has a key that [allowed] admits. *)
Definition active_from (sender_id : string) (allowed : string -> Prop)
    (w w' : World) : Prop :=
  forall k item',
    session_table w' !! k = Some item' -> active_for sender_id item' ->
    allowed k \/
    exists item, session_table w !! k = Some item /\ active_for sender_id item.

Definition none (k : string) : Prop := False.

(** Writes to other keys leave the item of a key as it is. *)
Definition session_at (k : string) (w : World) : option SessionItem :=
  session_table w !! k.

(** A sequence of reply cycles of one sender, each with its outside
    world; the result is the state of the stores after the last one. *)
Fixpoint run_cycles (isoformat : Z -> string) (cfg : Config) (sender_id : string)
    (cycles : list Env) (w : World) : World :=
  match cycles with
  | [] => w
  | env :: rest =>
      run_cycles isoformat cfg sender_id rest
        (reply_user isoformat cfg env sender_id w).2
  end.

(** The sender has no active session, or the lookup finds the active
    session and that session has a stored message. *)
Definition starts_or_continues (sender_id : string) (w : World) : Prop :=
  no_active_session (session_table w) sender_id \/
  exists session_id item,
    query_active_session (session_table w) sender_id = [(session_id, item)] /\
    session_index (chat_table w) session_id <> [].

(** The decision of the cycle does not ask to reopen. *)
Definition does_not_reopen (isoformat : Z -> string) (env : Env) (sender_id : string)
    (w : World) : Prop :=
  forall conversation w1 d,
    resolve_conversation env sender_id w = (Ok conversation, w1) ->
    (LLM.analyze_conversation isoformat (llm_env env) (messages conversation)).1
      = Ok d ->
    get (reopen_session d) false = false.

(** Every cycle of the sequence starts in such a state and takes such a
    decision. *)
Fixpoint steady (isoformat : Z -> string) (cfg : Config) (sender_id : string)
    (cycles : list Env) (w : World) : Prop :=
  match cycles with
  | [] => True
  | env :: rest =>
      starts_or_continues sender_id w /\
      does_not_reopen isoformat env sender_id w /\
      steady isoformat cfg sender_id rest
        (reply_user isoformat cfg env sender_id w).2
  end.

End OrchestratorSpec.

(** * Concrete conversations *)

Module Examples.
Import ChatService.

Definition isoformat (t : Z) : string := "2025-01-01T00:01:00".

Definition config : Config :=
  mkConfig "AC0" "token" "+14155238886" "feedback-bucket".

Definition sender : string := "155512345".

(** Answers of the model. *)
Definition asks_product : Decision :=
  mkDecision (Some false) (Some false) (Some false) (Some false)
             (Some "Which Apple product is your feedback about?")
             (Some EmptyString) (Some EmptyString) None (Some [])
             (Some false) (Some false) (Some false) (Some false) (Some true)
             (Some false) (Some "product_name") None None None.

Definition flags_abuse : Decision :=
  mkDecision (Some false) (Some false) (Some false) (Some false)
             (Some "Please keep the conversation about your product.")
             (Some EmptyString) (Some EmptyString) None (Some [])
             (Some false) (Some true) (Some false) (Some false) (Some false)
             (Some false) (Some "complete") (Some true) None (Some false).

Definition reference : string :=
  "https://api.twilio.com/2010-04-01/Accounts/AC0/Messages/MM1/Media/ME1".

Definition completes : Decision :=
  mkDecision (Some true) (Some true) (Some true) (Some true)
             (Some "Thank you, your feedback has been received.")
             (Some "AirPods Pro") (Some "it's great") None (Some [reference])
             (Some true) (Some false) (Some false) (Some false) (Some false)
             (Some false) (Some "complete") None None None.

Definition now : Z := 1735689600000000.

(** A provider that answers [d] at the first attempt. *)
Definition answers (d : Decision) : LLM.Env :=
  LLM.mkEnv (fun _ => LLM.Completed (LLM.mkCompletion (Some d))) now.

(** A provider that is rate limited twice, then answers [d]. *)
Definition answers_third (d : Decision) : LLM.Env :=
  LLM.mkEnv (fun i => match i with
                      | 0 => LLM.Failed RateLimitError
                      | 1 => LLM.Failed (APIStatusError 429)
                      | _ => LLM.Completed (LLM.mkCompletion (Some d))
                      end) now.

(** A provider that is rate limited once, then refuses the request. *)
Definition refuses : LLM.Env :=
  LLM.mkEnv (fun i => match i with
                      | 0 => LLM.Failed RateLimitError
                      | _ => LLM.Failed (APIStatusError 400)
                      end) now.

(** A provider that answers text that is not JSON. *)
Definition garbles : LLM.Env :=
  LLM.mkEnv (fun _ => LLM.Completed (LLM.mkCompletion None)) now.

Definition media_of (message_sid : string) : outcome (list TwilioMedia) :=
  if message_sid =? "MM1"
  then Ok [mkMedia "ME1" "/2010-04-01/Accounts/AC0/Messages/MM1/Media/ME1.json"]
  else Raise TwilioRestException.

Definition download (url : string) : outcome HttpResponse :=
  Ok (mkResponse true "JFIF" (Some "image/jpeg")).

(** One cycle: the provider, the two session ids that [uuid4] may give,
    and whether Twilio accepts the message; every store answers. *)
Definition cycle (llm : LLM.Env) (new_id reopened_id : string) (send_ok : bool)
    : Env :=
  mkEnv llm new_id reopened_id "M1" (fun _ => 1735689600%Z) (fun _ => true) 0
        send_ok media_of download (fun _ => true) true.

Definition no_store : World := mkWorld ∅ [] [] ∅ [].

Definition session_1 : SessionItem := new_session sender 1735680000.

(** The sender has the active session S1, without any stored message. *)
Definition idle : World :=
  mkWorld {[ "S1" := session_1 ]} [] [] ∅ [].

Definition inbound_1 : ChatItem :=
  mkChat sender "M0" "inbound" "S1" 1735680001 (Some "it's great") []
         None None None None.

(** The sender has the active session S1 with one inbound message. *)
Definition talking : World :=
  mkWorld {[ "S1" := session_1 ]} [inbound_1] [] ∅ [].

Definition long_text : string :=
  string_of_list_ascii (repeat "a"%char 1001).

Definition reply_cycles (cycles : list Env) (w : World) : World :=
  OrchestratorSpec.run_cycles isoformat config sender cycles w.

Definition hello : list Message := [TextMessage "hello" "inbound"].
Definition hello_prompt : string := LLM._convert_messages_to_string hello.

End Examples.

(** * Construction and the HTTP surface *)

(** [LLM.__init__], [ChatService.__init__], [app.py] and
    [src/routes/reply.py].  The configuration is the dictionary that
    [get_config] gives, with texts as values; [config.get(k)] is the
    lookup. *)
Module Startup.
Import ChatService.

Record LLMSettings : Type := mkLLMSettings {
  llm_api_key : string;
  llm_model : string
}.

(** [LLM.__init__]: what it keeps of the configuration, or the
    [ValueError] it raises. *)
Definition llm_init (config : gmap string string) : outcome LLMSettings :=
  if bool_decide (config = ∅) then Raise (ValueError "Configuration is required")
  else
    let api_key := config !! "OPENAI_API_KEY" in
    let model := default "gpt-4.1" (config !! "OPENAI_MODEL") in
    if negb (truthy_opt_str api_key)
    then Raise (ValueError "OPENAI_API_KEY is required in configuration")
    else Ok (mkLLMSettings (get api_key EmptyString) model).

Record Service : Type := mkService {
  service_config : Config;
  service_llm : LLMSettings
}.

Definition missing_twilio : string :=
  "Missing required Twilio configurations. Please set TWILIO_ACCOUNT_SID, TWILIO_AUTH_TOKEN, and TWILIO_WHATSAPP_FROM".

(** [ChatService.__init__]: the checks in the order of the source, then
    the construction of the classifier. *)
Definition chat_service_init (config : gmap string string) : outcome Service :=
  if bool_decide (config = ∅) then Raise (ValueError "Configuration is required")
  else
    let account_sid := config !! "TWILIO_ACCOUNT_SID" in
    let auth_token := config !! "TWILIO_AUTH_TOKEN" in
    let from_number := config !! "TWILIO_WHATSAPP_FROM" in
    let s3_bucket_name := config !! "S3_BUCKET_NAME" in
    if negb (truthy_opt_str s3_bucket_name)
    then Raise (ValueError "S3_BUCKET_NAME is required in configuration")
    else if negb (truthy_opt_str account_sid && truthy_opt_str auth_token
                  && truthy_opt_str from_number)
    then Raise (ValueError missing_twilio)
    else
      match llm_init config with
      | Raise e => Raise e
      | Ok llm =>
          Ok (mkService (mkConfig (get account_sid EmptyString)
                                  (get auth_token EmptyString)
                                  (get from_number EmptyString)
                                  (get s3_bucket_name EmptyString)) llm)
      end.

(** [bootstrap_services] of [app.py]. *)
Definition bootstrap_services (config : gmap string string)
    : outcome (gmap string Service) :=
  match chat_service_init config with
  | Raise e => Raise e
  | Ok service => Ok {[ "chat_service" := service ]}
  end.

(** What [setup_routes] stores on the router of [reply.py]. *)
Record Router : Type := mkRouter {
  router_config : gmap string string;
  router_services : gmap string Service
}.

(** The module body of [app.py]: the services are built, then the routes
    are set up with the configuration and the services. *)
Definition start_app (config : gmap string string) : outcome Router :=
  match bootstrap_services config with
  | Raise e => Raise e
  | Ok services => Ok (mkRouter config services)
  end.

End Startup.

Module Routes.
Import ChatService Startup.

(** The answer of the endpoint: the dictionary it returns, or the
    [HTTPException] it raises. *)
Inductive Response : Type :=
| Success (message : string)
| HTTPException (status_code : Z) (detail : string).

(** [verify_api_secret]: [None] when the request may pass. *)
Definition verify_api_secret (router : Router)
    (x_intelligence_api_secret : option string) : option Response :=
  let expected_secret := router_config router !! "INTELLIGENCE_API_SECRET" in
  if negb (truthy_opt_str expected_secret)
  then Some (HTTPException 500 "Server configuration error")
  else if negb (bool_decide (x_intelligence_api_secret = expected_secret))
  then Some (HTTPException 401 "Invalid or missing API key")
  else None.

Section WithIsoformat.

Variable isoformat : Z -> string.

(** The endpoint [POST /reply/]: the dependency [verify_api_secret] runs
    first; the body looks the service up and awaits
    [chat_service.reply_user(request.sender_id)], and its handler turns
    every exception into the same [HTTPException]. *)
Definition reply_user (router : Router) (env : Env)
    (x_intelligence_api_secret : option string) (sender_id message : string)
    (w : World) : Response * World :=
  match verify_api_secret router x_intelligence_api_secret with
  | Some refusal => (refusal, w)
  | None =>
      match router_services router !! "chat_service" with
      | None => (HTTPException 500 "An error occurred", w)
      | Some chat_service =>
          match ChatService.reply_user isoformat (service_config chat_service)
                  env sender_id w with
          | (Ok _, w') => (Success "Reply sent successfully.", w')
          | (Raise _, w') => (HTTPException 500 "An error occurred", w')
          end
      end
  end.

End WithIsoformat.

End Routes.

(** * Vocabulary of the further properties *)

Module FurtherSpec.
Import ChatService.

(** The number of occurrences of a character in a text. *)
Fixpoint count_char (c : ascii) (s : string) : nat :=
  match s with
  | EmptyString => O
  | String x rest => (if Ascii.eqb x c then 1 else 0) + count_char c rest
  end.

(** The attempt fails with an error that the loop retries. *)
Definition retryable (env : LLM.Env) (i : nat) : bool :=
  match LLM.provider env i with
  | LLM.Failed e => LLM.is_rate_limit e
  | LLM.Completed _ => false
  end.

(** A list of sessions in which no entry was created later than an entry
    before it. *)
Fixpoint latest_first (entries : list (string * SessionItem)) : Prop :=
  match entries with
  | [] => True
  | e :: rest =>
      Forall (fun x => (created x <= created e)%Z) rest /\ latest_first rest
  end.

(** The stores after a cycle hold everything they held before. *)
Definition nothing_removed (w w' : World) : Prop :=
  (forall k, is_Some (session_table w !! k) -> is_Some (session_table w' !! k)) /\
  (exists added, chat_table w' = (chat_table w ++ added)%list /\
                 (length added <= 1)%nat) /\
  (exists added, whatsapp_outbox w' = (whatsapp_outbox w ++ added)%list /\
                 (length added <= 1)%nat) /\
  (exists added, feedback_table w' = (feedback_table w ++ added)%list /\
                 (length added <= 1)%nat) /\
  (forall k, is_Some (s3_objects w !! k) -> is_Some (s3_objects w' !! k)).

(** Only the sessions table differs between the two states. *)
Definition only_sessions_differ (w w' : World) : Prop :=
  chat_table w' = chat_table w /\
  whatsapp_outbox w' = whatsapp_outbox w /\
  s3_objects w' = s3_objects w /\
  feedback_table w' = feedback_table w.

(** No session id is lost and only the sessions table differs. *)
Definition keys_kept (w w' : World) : Prop :=
  (forall k, is_Some (session_table w !! k) -> is_Some (session_table w' !! k)) /\
  only_sessions_differ w w'.

(** The configuration has a non-empty value for the key. *)
Definition configured (config : gmap string string) (key : string) : bool :=
  truthy_opt_str (config !! key).

(** The five keys that the construction of the service reads. *)
Definition required_keys : list string :=
  ["S3_BUCKET_NAME"; "TWILIO_ACCOUNT_SID"; "TWILIO_AUTH_TOKEN";
   "TWILIO_WHATSAPP_FROM"; "OPENAI_API_KEY"].

End FurtherSpec.

(** * Further concrete values *)

Module FurtherExamples.
Import ChatService Startup Routes Examples.

Definition full_config : gmap string string :=
  {[ "TWILIO_ACCOUNT_SID" := "AC0"; "TWILIO_AUTH_TOKEN" := "token";
     "TWILIO_WHATSAPP_FROM" := "+14155238886";
     "S3_BUCKET_NAME" := "feedback-bucket";
     "OPENAI_API_KEY" := "sk-0";
     "INTELLIGENCE_API_SECRET" := "s3cret" ]}.

Definition service : Service :=
  mkService config (mkLLMSettings "sk-0" "gpt-4.1").

Definition router : Router :=
  mkRouter full_config {[ "chat_service" := service ]}.

Definition inbound_2 : ChatItem :=
  mkChat sender "M0b" "inbound" "S1" 1735680002 None
         [Some reference; None] None None None None.

Definition outbound_3 : ChatItem :=
  mkChat sender "M0c" "outbound" "S1" 1735680003
         (Some "Do you have a picture?") [] (Some 0%Z) (Some 1%Z)
         (Some (StageName "media")) (Some "sent").

Definition other_session : ChatItem :=
  mkChat "2000" "M9" "inbound" "S9" 1735680002 (Some "hi") []
         None None None None.

(** A session with three stored items, among the items of another
    session. *)
Definition chatty : World :=
  mkWorld {[ "S1" := session_1 ]}
          [inbound_1; other_session; inbound_2; outbound_3] [] ∅ [].

Definition receipt : ChatItem :=
  mkChat sender "M0" "inbound" "S1" 1735680001 None [] None None None None.

(** A session whose only stored item has neither text nor media. *)
Definition contentless : World :=
  mkWorld {[ "S1" := session_1 ]} [receipt] [] ∅ [].

(** An older active session behind a more recent completed one. *)
Definition shadowed : gmap string SessionItem :=
  {[ "S1" := new_session sender 10;
     "S2" := set_completed 30 (new_session sender 20) ]}.

(** A provider that is rate limited at every attempt. *)
Definition always_limited : LLM.Env :=
  LLM.mkEnv (fun _ => LLM.Failed RateLimitError) now.

(** The session store does not answer the lookup. *)
Definition store_down : Env :=
  mkEnv (answers asks_product) "S2" "S3" "M1" (fun _ => 1735689600%Z)
        (fun _ => false) 0 true media_of download (fun _ => true) true.

(** The feedback store refuses the commit. *)
Definition commit_fails : Env :=
  mkEnv (answers completes) "S2" "S3" "M1" (fun _ => 1735689600%Z)
        (fun _ => true) 0 true media_of download (fun _ => true) false.

(** A configuration that has everything but the secret of the endpoint. *)
Definition no_secret_config : gmap string string :=
  {[ "TWILIO_ACCOUNT_SID" := "AC0"; "TWILIO_AUTH_TOKEN" := "token";
     "TWILIO_WHATSAPP_FROM" := "+14155238886";
     "S3_BUCKET_NAME" := "feedback-bucket";
     "OPENAI_API_KEY" := "sk-0" ]}.

(** Every service but the session store fails: the model, Twilio, the
    log of the chat, the bucket and the feedback store. *)
Definition only_sessions_up : Env :=
  mkEnv (LLM.mkEnv (fun _ => LLM.Failed APIConnectionError) now)
        "S2" "S3" "M1" (fun _ => 1735689600%Z)
        (fun call => match call with PutChat => false | _ => true end) 0
        false media_of download (fun _ => false) false.

End FurtherExamples.

(** * Properties of the classifier *)

Module ClassifierProperties.
Import LLM ClassifierSpec.

Lemma truthy_str_nonempty (s : string) :
  (0 < String.length s)%nat -> truthy_str s = true.
Proof. destruct s; simpl; [lia | reflexivity]. Qed.

Lemma any_exceeds_limit_In (messages : list Message) (text direction : string) :
  In (TextMessage text direction) messages ->
  (character_limit < String.length text)%nat ->
  any_exceeds_limit messages = true.
Proof.
  intros Hin Hlen. induction messages as [|msg rest IH]; simpl in *.
  - contradiction.
  - destruct Hin as [-> | Hin].
    + simpl. rewrite truthy_str_nonempty by lia.
      apply Nat.ltb_lt in Hlen. unfold character_limit in *.
      rewrite Hlen. reflexivity.
    + destruct (exceeds_limit msg); [reflexivity | auto].
Qed.

(** ** The retry loop *)

Ltac case_if :=
  match goal with
  | |- context [if ?c then _ else _] => destruct c eqn:?
  end.

Lemma completion_loop_calls_le (env : Env) (p : string) (indices : list nat) :
  (model_calls (completion_loop env p indices).2 <= length indices)%nat.
Proof.
  induction indices as [|i rest IH]; simpl; [unfold model_calls; simpl; lia|].
  destruct (completion_loop env p rest) as [r evs] eqn:Hrest. simpl in IH.
  assert (Hretry : (model_calls (ModelCall i p :: Sleep wait_seconds :: evs)
                    <= S (length rest))%nat).
  { unfold model_calls in *. simpl. rewrite !filter_cons. simpl.
    repeat case_decide; try congruence; simpl; lia. }
  assert (Hone : (model_calls [ModelCall i p] <= S (length rest))%nat).
  { unfold model_calls. simpl. lia. }
  destruct (provider env i) as [resp | e]; [exact Hone|].
  destruct e; try exact Hone.
  - case_if; [exact Hretry | exact Hone].
  - case_if; [exact Hretry | exact Hone].
Qed.

Lemma completion_loop_sleeps (env : Env) (p : string) (indices : list nat) (s : Z) :
  In (Sleep s) (completion_loop env p indices).2 -> s = wait_seconds.
Proof.
  induction indices as [|i rest IH]; simpl; [contradiction|].
  destruct (completion_loop env p rest) as [r evs] eqn:Hrest. simpl in IH.
  assert (Hretry : In (Sleep s) (ModelCall i p :: Sleep wait_seconds :: evs) ->
                   s = wait_seconds).
  { simpl. intros [H | [H | H]]; [discriminate | congruence | auto]. }
  assert (Hone : In (Sleep s) [ModelCall i p] -> s = wait_seconds).
  { simpl. intros [H | []]. discriminate. }
  destruct (provider env i) as [resp | e]; [exact Hone|].
  destruct e; try exact Hone.
  - case_if; [exact Hretry | exact Hone].
  - case_if; [exact Hretry | exact Hone].
Qed.

(** A call of index [j] is made only after every earlier attempt of the
    loop failed with a rate-limit error. *)
Lemma completion_loop_calls (env : Env) (p : string) (n a j : nat) (p' : string) :
  In (ModelCall j p') (completion_loop env p (seq a n)).2 ->
  (a <= j < a + n)%nat /\ p' = p /\
  forall i, (a <= i < j)%nat ->
            exists e, provider env i = Failed e /\ is_rate_limit e = true.
Proof.
  revert a. induction n as [|n IH]; intros a; simpl; [contradiction|].
  specialize (IH (S a)).
  destruct (completion_loop env p (seq (S a) n)) as [r evs] eqn:Hrest.
  simpl in IH.
  assert (Hone : In (ModelCall j p') [ModelCall a p] ->
                 (a <= j < a + S n)%nat /\ p' = p /\
                 forall i, (a <= i < j)%nat ->
                   exists e, provider env i = Failed e /\ is_rate_limit e = true).
  { simpl. intros [H | []]. inversion H; subst.
    repeat split; lia. }
  assert (Hretry : forall e, provider env a = Failed e -> is_rate_limit e = true ->
                 In (ModelCall j p') (ModelCall a p :: Sleep wait_seconds :: evs) ->
                 (a <= j < a + S n)%nat /\ p' = p /\
                 forall i, (a <= i < j)%nat ->
                   exists e, provider env i = Failed e /\ is_rate_limit e = true).
  { intros e He Hrl [H | [H | H]].
    - apply Hone. left. exact H.
    - discriminate.
    - destruct (IH H) as (Hj & Hp & Hprev). repeat split; try lia; [exact Hp|].
      intros i Hi. destruct (Nat.eq_dec i a) as [-> | Hne].
      + exists e. split; assumption.
      + apply Hprev. lia. }
  destruct (provider env a) as [resp | e] eqn:Hprov; [exact Hone|].
  destruct e; try exact Hone.
  - case_if; [|exact Hone].
    apply (Hretry RateLimitError); reflexivity.
  - destruct (status_code =? 429)%Z eqn:Hcode; simpl; [|exact Hone].
    case_if; [|exact Hone].
    apply (Hretry (APIStatusError status_code)); [reflexivity|].
    simpl. exact Hcode.
Qed.

Lemma model_calls_retries_then_call (p : string) (a k : nat) :
  model_calls (retries_then_call p a k) = S k.
Proof.
  revert a. induction k as [|k IH]; intros a; [reflexivity|].
  change (retries_then_call p a (S k))
    with (ModelCall a p :: Sleep wait_seconds :: retries_then_call p (S a) k).
  specialize (IH (S a)). unfold model_calls in *.
  rewrite !filter_cons. simpl.
  repeat case_decide; simpl; congruence.
Qed.

Lemma completion_loop_retry (env : Env) (p : string) (e : exn) (a : nat)
    (rest : list nat) :
  provider env a = Failed e -> is_rate_limit e = true ->
  (a <? max_attempts - 1)%nat = true ->
  completion_loop env p (a :: rest) =
  (let '(r, evs) := completion_loop env p rest in
   (r, ModelCall a p :: Sleep wait_seconds :: evs)).
Proof.
  intros Hprov Hrl Ha. simpl in Ha |- *. rewrite Hprov.
  destruct e; simpl in Hrl; try discriminate.
  - rewrite Ha. reflexivity.
  - rewrite Hrl, Ha. reflexivity.
Qed.

Lemma completion_loop_last (env : Env) (p : string) (a : nat) (rest : list nat) :
  (forall e, provider env a = Failed e ->
             is_rate_limit e = true -> (a <? max_attempts - 1)%nat = false) ->
  completion_loop env p (a :: rest) =
  (match provider env a with
   | Completed response => Ok (Some response)
   | Failed e => Raise e
   end, [ModelCall a p]).
Proof.
  intros Hlast. simpl.
  destruct (provider env a) as [resp | e] eqn:Hprov; [reflexivity|].
  specialize (Hlast e eq_refl). simpl in Hlast.
  destruct e; try reflexivity.
  - rewrite Hlast by reflexivity. reflexivity.
  - destruct (status_code =? 429)%Z eqn:Hcode; simpl; [|reflexivity].
    rewrite Hlast by exact Hcode. reflexivity.
Qed.

Lemma completion_loop_after_retries (env : Env) (p : string) (k a n : nat) :
  (a + k < max_attempts)%nat -> (k < n)%nat ->
  (forall j, (a <= j < a + k)%nat ->
             exists e, provider env j = Failed e /\ is_rate_limit e = true) ->
  (forall e, provider env (a + k) = Failed e ->
             is_rate_limit e = true -> (a + k <? max_attempts - 1)%nat = false) ->
  completion_loop env p (seq a n) =
  (match provider env (a + k) with
   | Completed response => Ok (Some response)
   | Failed e => Raise e
   end, retries_then_call p a k).
Proof.
  revert a n. induction k as [|k IH]; intros a n Hbound Hn Hprev Hlast.
  - destruct n as [|n]; [lia|]. rewrite Nat.add_0_r in *.
    simpl seq. apply completion_loop_last. exact Hlast.
  - destruct n as [|n]; [lia|]. simpl seq.
    destruct (Hprev a ltac:(lia)) as (e & Hprov & Hrl).
    rewrite (completion_loop_retry env p e a _ Hprov Hrl)
      by (apply Nat.ltb_lt; unfold max_attempts in *; lia).
    rewrite (IH (S a) n); try lia.
    + replace (S a + k)%nat with (a + S k)%nat by lia. reflexivity.
    + intros j Hj. apply Hprev. lia.
    + replace (S a + k)%nat with (a + S k)%nat by lia. exact Hlast.
Qed.

(** ** [analyze_conversation] *)

Lemma analyze_conversation_ok (isoformat : Z -> string) (env : Env)
    (messages : list Message) :
  exists d, (analyze_conversation isoformat env messages).1 = Ok d.
Proof.
  unfold analyze_conversation.
  destruct (analyze_body isoformat env messages) as [[d | e] evs]; eauto.
Qed.

Lemma analyze_conversation_trace (isoformat : Z -> string) (env : Env)
    (messages : list Message) :
  (analyze_conversation isoformat env messages).2 = [] \/
  (analyze_conversation isoformat env messages).2 =
  (completion_loop env (_convert_messages_to_string messages) (seq 0 max_attempts)).2.
Proof.
  unfold analyze_conversation, analyze_body.
  destruct (any_exceeds_limit messages); [left; reflexivity|]. right.
  destruct (completion_loop env _ _) as [[resp | e] evs]; [|reflexivity].
  simpl. destruct (json_loads resp); reflexivity.
Qed.

Lemma analyze_conversation_after_retries (isoformat : Z -> string) (env : Env)
    (messages : list Message) (k : nat) :
  any_exceeds_limit messages = false ->
  (k < max_attempts)%nat ->
  rate_limited_before env k ->
  (forall e, provider env k = Failed e ->
             is_rate_limit e = true -> (k <? max_attempts - 1)%nat = false) ->
  analyze_conversation isoformat env messages =
  (Ok (answer_of isoformat env k),
   retries_then_call (_convert_messages_to_string messages) 0 k).
Proof.
  intros Hshort Hk Hprev Hlast.
  unfold analyze_conversation, analyze_body, answer_of. rewrite Hshort.
  rewrite (completion_loop_after_retries env _ k 0 max_attempts);
    try (unfold max_attempts in *; simpl; lia).
  - simpl. destruct (provider env k) as [resp | e]; [|reflexivity].
    simpl. destruct (content_json resp); reflexivity.
  - intros j Hj. apply Hprev. lia.
  - exact Hlast.
Qed.

Lemma post_process_flagged (isoformat : Z -> string) (now : Z) (result : Decision) :
  any_safety_flag result = true ->
  post_process isoformat now result = suspend isoformat now result.
Proof. intros H. unfold post_process. rewrite H. reflexivity. Qed.

Lemma post_process_clean (isoformat : Z -> string) (now : Z) (result : Decision) :
  any_safety_flag result = false ->
  post_process isoformat now result = result.
Proof. intros H. unfold post_process. rewrite H. reflexivity. Qed.

Lemma any_safety_flag_true (result : Decision) :
  is_x_rated_conversation result = Some true \/
  is_crime_rated_conversation result = Some true \/
  is_immoral_conversation result = Some true \/
  is_irrelevant result = Some true ->
  any_safety_flag result = true.
Proof.
  unfold any_safety_flag, get.
  intros [H | [H | [H | H]]]; rewrite H; simpl;
    rewrite ?orb_true_r; reflexivity.
Qed.

(** C3. Whenever the model answers with one of the four safety flags set,
    [analyze_conversation] returns the decision of the model with the reply
    replaced by the suspension notice, [should_persist_reply] false,
    [user_limited_until] the ISO text of now plus one minute and
    [reopen_session] true, whatever the model had put in these fields. *)
Theorem safety_flag_forces_suspension (isoformat : Z -> string) (env : Env)
    (messages : list Message) (response : ChatCompletion) (result : Decision) :
  any_exceeds_limit messages = false ->
  (completion_loop env (_convert_messages_to_string messages)
     (seq 0 max_attempts)).1 = Ok (Some response) ->
  content_json response = Some result ->
  is_x_rated_conversation result = Some true \/
  is_crime_rated_conversation result = Some true \/
  is_immoral_conversation result = Some true \/
  is_irrelevant result = Some true ->
  exists d,
    (analyze_conversation isoformat env messages).1 = Ok d /\
    reply d = Some suspension_reply /\
    should_persist_reply d = Some false /\
    user_limited_until d =
      Some (isoformat (datetime_now env + timedelta_minutes 1)%Z) /\
    reopen_session d = Some true.
Proof.
  intros Hshort Hloop Hjson Hflag.
  exists (suspend isoformat (datetime_now env) result).
  unfold analyze_conversation, analyze_body. rewrite Hshort.
  destruct (completion_loop env _ _) as [r evs]. simpl in Hloop. subst r.
  simpl. rewrite Hjson.
  rewrite (post_process_flagged _ _ _ (any_safety_flag_true _ Hflag)).
  repeat split; reflexivity.
Qed.

(** C6. A history that holds a text entry longer than 1000 characters
    (inbound or not) gets the fixed message-too-long decision, which asks to
    persist the reply and does not complete the session, and the trace of
    the call is empty: the model is not called. *)
Theorem oversized_text_short_circuits (isoformat : Z -> string) (env : Env)
    (messages : list Message) (text direction : string) :
  In (TextMessage text direction) messages ->
  (1000 < String.length text)%nat ->
  analyze_conversation isoformat env messages = (Ok too_long_decision, []) /\
  model_calls (analyze_conversation isoformat env messages).2 = 0%nat /\
  reply too_long_decision = Some too_long_reply /\
  should_persist_reply too_long_decision = Some true /\
  is_feedback_session_complete too_long_decision = Some false.
Proof.
  intros Hin Hlen.
  assert (H : analyze_conversation isoformat env messages
              = (Ok too_long_decision, [])).
  { unfold analyze_conversation, analyze_body.
    rewrite (any_exceeds_limit_In messages text direction Hin Hlen).
    reflexivity. }
  rewrite H. repeat split; reflexivity.
Qed.

(** C7. [analyze_conversation] always returns a decision.  When the
    attempts before [k] were rate limited and the attempt [k] fails with an
    error that is not a rate limit, or answers with content that does not
    decode, the decision is the fixed fallback (generic reply, nothing
    persisted, no flag, no completion) and the attempt [k] is the last call
    made. *)
Theorem failure_yields_fallback (isoformat : Z -> string) (env : Env)
    (messages : list Message) :
  (exists d, (analyze_conversation isoformat env messages).1 = Ok d) /\
  (forall k e,
     any_exceeds_limit messages = false ->
     (k < max_attempts)%nat ->
     rate_limited_before env k ->
     provider env k = Failed e ->
     is_rate_limit e = false ->
     analyze_conversation isoformat env messages =
       (Ok fallback_decision,
        retries_then_call (_convert_messages_to_string messages) 0 k) /\
     model_calls (analyze_conversation isoformat env messages).2 = S k) /\
  (forall k response,
     any_exceeds_limit messages = false ->
     (k < max_attempts)%nat ->
     rate_limited_before env k ->
     provider env k = Completed response ->
     content_json response = None ->
     analyze_conversation isoformat env messages =
       (Ok fallback_decision,
        retries_then_call (_convert_messages_to_string messages) 0 k)) /\
  reply fallback_decision = Some failure_reply /\
  should_persist_reply fallback_decision = Some false /\
  any_safety_flag fallback_decision = false /\
  is_feedback_session_complete fallback_decision = Some false.
Proof.
  split; [apply analyze_conversation_ok|].
  split; [|split; [|repeat split; reflexivity]].
  - intros k e Hshort Hk Hprev Hprov He.
    assert (H : analyze_conversation isoformat env messages =
                (Ok fallback_decision,
                 retries_then_call (_convert_messages_to_string messages) 0 k)).
    { rewrite (analyze_conversation_after_retries isoformat env messages k);
        try assumption.
      - unfold answer_of. rewrite Hprov. reflexivity.
      - intros e' He' Hrl. congruence. }
    split; [exact H|]. rewrite H. simpl. apply model_calls_retries_then_call.
  - intros k response Hshort Hk Hprev Hprov Hjson.
    rewrite (analyze_conversation_after_retries isoformat env messages k);
      try assumption.
    + unfold answer_of. rewrite Hprov, Hjson. reflexivity.
    + intros e' He'. congruence.
Qed.

(** C8. The model is called at most three times, every pause between two
    calls lasts [wait_seconds], and a call of index [i + 1] is made only
    after the call of index [i] failed with a rate-limit error.  When the
    first two attempts are rate limited and the third answers, the decision
    is the post-processed answer of the model, the answer itself when no
    safety flag is set, after exactly three calls and two pauses. *)
Theorem rate_limit_retry (isoformat : Z -> string) (env : Env)
    (messages : list Message) :
  (model_calls (analyze_conversation isoformat env messages).2 <= 3)%nat /\
  (forall s, In (Sleep s) (analyze_conversation isoformat env messages).2 ->
             s = 1%Z) /\
  (forall i p, In (ModelCall (S i) p)
                  (analyze_conversation isoformat env messages).2 ->
               exists e, provider env i = Failed e /\ is_rate_limit e = true) /\
  (forall e0 e1 response result,
     any_exceeds_limit messages = false ->
     provider env 0 = Failed e0 -> is_rate_limit e0 = true ->
     provider env 1 = Failed e1 -> is_rate_limit e1 = true ->
     provider env 2 = Completed response ->
     content_json response = Some result ->
     let p := _convert_messages_to_string messages in
     analyze_conversation isoformat env messages =
       (Ok (post_process isoformat (datetime_now env) result),
        [ModelCall 0 p; Sleep 1; ModelCall 1 p; Sleep 1; ModelCall 2 p]) /\
     (any_safety_flag result = false ->
      (analyze_conversation isoformat env messages).1 = Ok result)).
Proof.
  split; [|split; [|split]].
  - destruct (analyze_conversation_trace isoformat env messages) as [-> | ->].
    + unfold model_calls. simpl. lia.
    + apply (completion_loop_calls_le env _ (seq 0 max_attempts)).
  - intros s. destruct (analyze_conversation_trace isoformat env messages)
      as [-> | ->]; [contradiction|]. apply completion_loop_sleeps.
  - intros i p. destruct (analyze_conversation_trace isoformat env messages)
      as [-> | ->]; [contradiction|]. intros Hin.
    apply completion_loop_calls in Hin. destruct Hin as (_ & _ & Hprev).
    apply Hprev. lia.
  - intros e0 e1 response result Hshort H0 Hr0 H1 Hr1 H2 Hjson p.
    assert (H : analyze_conversation isoformat env messages =
                (Ok (post_process isoformat (datetime_now env) result),
                 [ModelCall 0 p; Sleep 1; ModelCall 1 p; Sleep 1; ModelCall 2 p])).
    { rewrite (analyze_conversation_after_retries isoformat env messages 2).
      - unfold answer_of. rewrite H2, Hjson. reflexivity.
      - exact Hshort.
      - unfold max_attempts. lia.
      - intros j Hj. destruct j as [|[|j]]; [eauto | eauto | lia].
      - reflexivity. }
    split; [exact H|]. intros Hclean. rewrite H. simpl.
    rewrite post_process_clean by exact Hclean. reflexivity.
Qed.

End ClassifierProperties.

(** * Properties of the orchestrator *)

Module OrchestratorProperties.
Import ChatService OrchestratorSpec.

(** ** Reasoning about computations over the stores *)

Section Ensures.

Context (R : World -> World -> Prop).
Hypothesis R_refl : forall w, R w w.
Hypothesis R_trans : forall w1 w2 w3, R w1 w2 -> R w2 w3 -> R w1 w3.

Lemma ensures_ret {A} (Q : A -> Prop) (a : A) : Q a -> ensures R Q (mret a).
Proof.
  intros HQ w. split; [apply R_refl|].
  intros a' H. inversion H. subst. exact HQ.
Qed.

Lemma ensures_raise {A} (Q : A -> Prop) (e : exn) : ensures R Q (raise e).
Proof. intros w. split; [apply R_refl | discriminate]. Qed.

Lemma ensures_lift {A} (r : outcome A) : ensures R (fun a => r = Ok a) (lift r).
Proof. intros w. split; [apply R_refl | auto]. Qed.

Lemma ensures_weaken {A} (Q Q' : A -> Prop) (m : M A) :
  ensures R Q m -> (forall a, Q a -> Q' a) -> ensures R Q' m.
Proof. intros Hm HQ w. destruct (Hm w) as [HR Hv]. split; auto. Qed.

Lemma ensures_bind {A B} (Q : A -> Prop) (Q' : B -> Prop) (m : M A) (k : A -> M B) :
  ensures R Q m -> (forall a, Q a -> ensures R Q' (k a)) ->
  ensures R Q' (m ≫= k).
Proof.
  intros Hm Hk w. unfold mbind, M_bind, bind.
  destruct (Hm w) as [HR Hv]. destruct (m w) as [[a | e] w1]; simpl in *.
  - destruct (Hk a (Hv a eq_refl) w1) as [HR' Hv'].
    split; [eapply R_trans; eassumption | exact Hv'].
  - split; [exact HR | discriminate].
Qed.

Lemma ensures_try_except {A} (Q : A -> Prop) (m : M A) (handler : exn -> M A) :
  ensures R Q m -> (forall e, ensures R Q (handler e)) ->
  ensures R Q (try_except m handler).
Proof.
  intros Hm Hh w. unfold try_except.
  destruct (Hm w) as [HR Hv]. destruct (m w) as [[a | e] w1]; simpl in *.
  - split; [exact HR | exact Hv].
  - destruct (Hh e w1) as [HR' Hv'].
    split; [eapply R_trans; eassumption | exact Hv'].
Qed.

Lemma ensures_gather {A} (tasks : list (M A)) :
  Forall (ensures R any) tasks -> forall w, R w (gather tasks w).2.
Proof.
  induction 1 as [|task rest Htask _ IH]; intros w; simpl; [apply R_refl|].
  destruct (Htask w) as [HR _]. destruct (task w) as [r w1]. simpl in HR.
  specialize (IH w1). destruct (gather rest w1) as [rs w2]. simpl in *.
  eapply R_trans; eassumption.
Qed.

End Ensures.

Lemma unchanged_refl {B} (proj : World -> B) w : unchanged proj w w.
Proof. reflexivity. Qed.

Lemma unchanged_trans {B} (proj : World -> B) w1 w2 w3 :
  unchanged proj w1 w2 -> unchanged proj w2 w3 -> unchanged proj w1 w3.
Proof. unfold unchanged. congruence. Qed.

(** ** The queries *)

Lemma In_insert_recent entry sorted e :
  In e (insert_recent entry sorted) <-> e = entry \/ In e sorted.
Proof.
  induction sorted as [|x rest IH]; simpl.
  - intuition.
  - destruct (created x <=? created entry)%Z; simpl; rewrite ?IH; intuition.
Qed.

Lemma In_most_recent_first entries e :
  In e (most_recent_first entries) <-> In e entries.
Proof.
  unfold most_recent_first. induction entries as [|x rest IH]; simpl.
  - reflexivity.
  - rewrite In_insert_recent, IH. intuition.
Qed.

Lemma In_sender_sessions_index (table : gmap string SessionItem) sender k item :
  In (k, item) (sender_sessions_index table sender) ->
  table !! k = Some item /\ session_sender_id item = Some sender.
Proof.
  unfold sender_sessions_index. rewrite In_most_recent_first.
  rewrite filter_In. intros [Hin Hidx]. split.
  - apply elem_of_map_to_list. apply list_elem_of_In. exact Hin.
  - unfold in_sender_index in Hidx. simpl in Hidx.
    destruct (session_sender_id item) as [s|]; [|discriminate].
    destruct (session_created_at item); [|discriminate].
    apply String.eqb_eq in Hidx. congruence.
Qed.

(** The lookup returns nothing, or one session of the sender that is
    stored with status active. *)
Lemma query_active_session_inv (table : gmap string SessionItem) sender :
  query_active_session table sender = [] \/
  exists k item,
    query_active_session table sender = [(k, item)] /\
    table !! k = Some item /\
    session_sender_id item = Some sender /\
    is_active item = true.
Proof.
  unfold query_active_session.
  destruct (sender_sessions_index table sender) as [|[k item] rest] eqn:Hidx;
    simpl; [left; reflexivity|].
  destruct (is_active item) eqn:Hact; [|left; reflexivity].
  right. exists k, item. split; [reflexivity|].
  destruct (In_sender_sessions_index table sender k item) as [Hk Hs].
  { rewrite Hidx. left. reflexivity. }
  auto.
Qed.

(** The loop over the pages reads the whole index. *)
Lemma fetch_messages_all (env : Env) (index : list ChatItem) (fuel : nat)
    (acc : list ChatItem) (last_key : option nat) :
  (length index - default O last_key < fuel)%nat ->
  fetch_messages fuel env index acc last_key
  = (acc ++ drop (default O last_key) index)%list.
Proof.
  revert acc last_key. induction fuel as [|fuel IH]; intros acc last_key Hfuel;
    [lia|].
  simpl. set (start := default O last_key) in *.
  destruct (start + S (page_limit env) <? length index)%nat eqn:Hmore.
  - apply Nat.ltb_lt in Hmore. rewrite IH by (simpl; lia). simpl.
    rewrite <- app_assoc. f_equal.
    rewrite <- (take_drop (S (page_limit env)) (drop start index)) at 2.
    rewrite drop_drop. reflexivity.
  - apply Nat.ltb_ge in Hmore. f_equal.
    apply take_ge. rewrite length_drop. lia.
Qed.

Lemma all_messages_index (env : Env) (chats : list ChatItem) (session_id : string) :
  all_messages env chats session_id = session_index chats session_id.
Proof.
  unfold all_messages. rewrite fetch_messages_all by (simpl; lia).
  reflexivity.
Qed.

(** ** Text lemmas *)

Lemma append_cons (x : ascii) (a b : string) :
  (String x a ++ b = String x (a ++ b))%string.
Proof. reflexivity. Qed.

Lemma append_assoc (a b c : string) : ((a ++ b) ++ c = a ++ (b ++ c))%string.
Proof.
  induction a as [|x a IH]; [reflexivity|].
  rewrite !append_cons, IH. reflexivity.
Qed.

Lemma length_append (a b : string) :
  String.length (a ++ b) = (String.length a + String.length b)%nat.
Proof.
  induction a as [|x a IH]; [reflexivity|].
  rewrite append_cons. simpl. rewrite IH. reflexivity.
Qed.

Lemma has_char_append c (a b : string) :
  has_char c (a ++ b) = has_char c a || has_char c b.
Proof.
  induction a as [|x a IH]; [reflexivity|].
  rewrite append_cons. simpl. rewrite IH. apply orb_assoc.
Qed.

Lemma split_nonempty sep s : split sep s <> [].
Proof.
  destruct s as [|c rest]; simpl; [discriminate|].
  destruct (Ascii.eqb c sep); [discriminate|].
  destruct (split sep rest); discriminate.
Qed.

Lemma split_no_sep sep s : has_char sep s = false -> split sep s = [s].
Proof.
  induction s as [|c rest IH]; simpl; [reflexivity|].
  intros H. apply orb_false_iff in H. destruct H as [Hc Hrest].
  rewrite Hc, (IH Hrest). reflexivity.
Qed.

Lemma split_parts_no_sep sep s p : In p (split sep s) -> has_char sep p = false.
Proof.
  revert p. induction s as [|c rest IH]; simpl; intros p.
  - intros [<- | []]. reflexivity.
  - destruct (Ascii.eqb c sep) eqn:Hc.
    + intros [<- | Hin]; [reflexivity | auto].
    + destruct (split sep rest) as [|q qs] eqn:Hsplit.
      * intros [<- | []]. simpl. rewrite Hc. reflexivity.
      * intros [<- | Hin].
        -- simpl. rewrite Hc. apply IH. left. reflexivity.
        -- apply IH. right. exact Hin.
Qed.

Lemma split_append sep (a b : string) :
  split sep (a ++ String sep b) = (split sep a ++ split sep b)%list.
Proof.
  induction a as [|c a IH].
  - change (EmptyString ++ String sep b)%string with (String sep b).
    simpl. rewrite Ascii.eqb_refl. reflexivity.
  - rewrite append_cons. simpl.
    rewrite IH. destruct (Ascii.eqb c sep); [reflexivity|].
    destruct (split sep a) as [|p ps] eqn:Ha; [|reflexivity].
    exfalso. exact (split_nonempty sep a Ha).
Qed.

Lemma from_end_In parts k x : from_end parts k = Some x -> In x parts.
Proof.
  unfold from_end. destruct (length parts <? k)%nat; [discriminate|].
  apply nth_error_In.
Qed.

Lemma from_end_last (parts : list string) (x : string) :
  from_end (parts ++ [x]) 1 = Some x.
Proof.
  unfold from_end. rewrite length_app. simpl.
  destruct (length parts + 1 <? 1)%nat eqn:H; [apply Nat.ltb_lt in H; lia|].
  rewrite nth_error_app2 by lia.
  replace (length parts + 1 - 1 - length parts)%nat with 0%nat by lia.
  reflexivity.
Qed.

(** The last part of the address of an object is the media identifier
    followed by the extension. *)
Lemma s3_url_last_part bucket message_sid media_sid extension :
  has_char slash media_sid = false ->
  has_char slash extension = false ->
  from_end (split slash (s3_url_of bucket (s3_key_of message_sid media_sid extension))) 1
  = Some (media_sid ++ "." ++ extension)%string.
Proof.
  intros Hm He. unfold s3_url_of, s3_key_of.
  change ("/" ++ media_sid ++ "." ++ extension)%string
    with (String slash (media_sid ++ "." ++ extension)).
  rewrite <- !append_assoc. rewrite split_append.
  rewrite (split_no_sep slash ((media_sid ++ ".") ++ extension)).
  - apply from_end_last.
  - rewrite !has_char_append, Hm, He. reflexivity.
Qed.

Lemma extension_of_no_slash content_type :
  has_char slash (extension_of content_type) = false.
Proof.
  unfold extension_of, get.
  destruct (from_end (split slash content_type) 1) as [x|] eqn:H; [|reflexivity].
  apply (split_parts_no_sep slash content_type). eapply from_end_In. exact H.
Qed.

(** An address that the relay answers is never the reference it was
    given. *)
Lemma relay_differs cfg env reference u :
  relay cfg env reference = Some u -> u <> reference.
Proof.
  unfold relay. simpl.
  destruct (from_end (split slash reference) 3) as [message_sid|]; simpl;
    [|discriminate].
  destruct (from_end (split slash reference) 1) as [media_sid|] eqn:Hlast; simpl;
    [|discriminate].
  destruct (twilio_media_list env message_sid) as [media_list|]; simpl;
    [|discriminate].
  destruct (find_media_url media_list media_sid) as [location|]; simpl;
    [|discriminate].
  destruct (http_get env location) as [response|]; simpl; [|discriminate].
  destruct (response_ok response); [|discriminate].
  destruct (s3_put_ok env _); [|discriminate].
  intros Hu Heq. inversion Hu as [Hurl]. clear Hu. rewrite Heq in Hurl.
  assert (Hm : has_char slash media_sid = false).
  { apply (split_parts_no_sep slash reference). eapply from_end_In. exact Hlast. }
  rewrite <- Hurl in Hlast.
  rewrite s3_url_last_part in Hlast
    by (exact Hm || apply extension_of_no_slash).
  inversion Hlast as [Hlen]. apply (f_equal String.length) in Hlen.
  rewrite !length_append in Hlen. simpl in Hlen. lia.
Qed.

(** ** The media relay *)

Lemma s3_grows_refl w : s3_grows w w.
Proof. unfold s3_grows. auto. Qed.

Lemma s3_grows_trans w1 w2 w3 : s3_grows w1 w2 -> s3_grows w2 w3 -> s3_grows w1 w3.
Proof.
  unfold s3_grows. intros (H1 & -> & -> & -> & ->) (H2 & -> & -> & -> & ->).
  auto.
Qed.

Lemma stored_mono cfg w w' url : s3_grows w w' -> stored cfg w url -> stored cfg w' url.
Proof. intros [H _] (key & -> & Hk). exists key. auto. Qed.

Lemma s3_put_object_grows env s3_key object w :
  s3_grows w (s3_put_object env s3_key object w).2.
Proof.
  unfold s3_put_object. destruct (s3_put_ok env s3_key); simpl;
    [|apply s3_grows_refl].
  unfold s3_grows. simpl. repeat split; try reflexivity.
  intros key Hkey. destruct (decide (s3_key = key)) as [-> | Hne].
  - rewrite lookup_insert_eq. eauto.
  - rewrite lookup_insert_ne by exact Hne. exact Hkey.
Qed.

Lemma find_media_url_truthy media_list media_sid location :
  find_media_url media_list media_sid = Some location ->
  truthy_str location = true.
Proof.
  induction media_list as [|media rest IH]; simpl; [discriminate|].
  destruct (media_sid_of media =? media_sid); [|exact IH].
  intros H. inversion H. reflexivity.
Qed.

(** [upload_to_s3] never raises: it answers the address of the object it
    has put, or [None] when the put failed. *)
Lemma upload_to_s3_spec cfg env content message_sid media_sid content_type w :
  let s3_key := s3_key_of message_sid media_sid (extension_of content_type) in
  exists w',
    upload_to_s3 cfg env content message_sid media_sid content_type w =
      (Ok (if s3_put_ok env s3_key
           then Some (s3_url_of (s3_bucket_name cfg) s3_key) else None), w') /\
    s3_grows w w' /\
    (s3_put_ok env s3_key = true -> is_Some (s3_objects w' !! s3_key)).
Proof.
  intros s3_key. unfold upload_to_s3, try_except, mbind, M_bind, bind.
  fold (extension_of content_type). fold s3_key.
  pose proof (s3_put_object_grows env s3_key
                (mkObject content content_type "max-age=31536000") w) as Hg.
  unfold s3_put_object in *. destruct (s3_put_ok env s3_key); simpl in *.
  - eexists. split; [reflexivity|]. split; [exact Hg|].
    intros _. simpl. rewrite lookup_insert_eq. eauto.
  - eexists. split; [reflexivity|]. split; [exact Hg|]. discriminate.
Qed.

(** [download_single_media] never raises and answers what [relay] says. *)
Lemma download_single_media_spec cfg env url w :
  exists w',
    download_single_media cfg env url w = (Ok (relay cfg env url), w') /\
    s3_grows w w' /\
    (forall u, relay cfg env url = Some u ->
               truthy_str u = true /\ stored cfg w' u).
Proof.
  unfold download_single_media, download_single_media_body, relay, try_except.
  unfold mbind at 1 2 3 4 5, M_bind, bind, lift, raise, option_bind. simpl.
  destruct (from_end (split slash url) 3) as [message_sid|]; simpl;
    [|exists w; split; [reflexivity|split; [apply s3_grows_refl|discriminate]]].
  destruct (from_end (split slash url) 1) as [media_sid|]; simpl;
    [|exists w; split; [reflexivity|split; [apply s3_grows_refl|discriminate]]].
  destruct (twilio_media_list env message_sid) as [media_list|e]; simpl;
    [|exists w; split; [reflexivity|split; [apply s3_grows_refl|discriminate]]].
  destruct (find_media_url media_list media_sid) as [location|] eqn:Hfind; simpl;
    [|exists w; split; [reflexivity|split; [apply s3_grows_refl|discriminate]]].
  rewrite (find_media_url_truthy _ _ _ Hfind). simpl. unfold get at 1. simpl.
  destruct (http_get env location) as [response|e]; simpl;
    [|exists w; split; [reflexivity|split; [apply s3_grows_refl|discriminate]]].
  destruct (response_ok response); simpl;
    [|exists w; split; [reflexivity|split; [apply s3_grows_refl|discriminate]]].
  destruct (upload_to_s3_spec cfg env (response_content response) message_sid
              media_sid
              (get (response_content_type response) "application/octet-stream") w)
    as (w' & Hup & Hg & Hput).
  unfold get in *. rewrite Hup. unfold mret, M_ret, ret.
  destruct (s3_put_ok env _) eqn:Hok; simpl.
  - exists w'. split; [reflexivity|]. split; [exact Hg|].
    intros u Hu. inversion Hu; subst. split; [reflexivity|].
    eexists. split; [reflexivity|]. apply Hput. reflexivity.
  - exists w'. split; [reflexivity|]. split; [exact Hg|]. discriminate.
Qed.

Lemma gather_downloads cfg env urls w :
  exists w',
    gather (map (download_single_media cfg env) urls) w =
      (map (fun url => Ok (relay cfg env url)) urls, w') /\
    s3_grows w w' /\
    (forall url u, In url urls -> relay cfg env url = Some u ->
                   truthy_str u = true /\ stored cfg w' u).
Proof.
  revert w. induction urls as [|url rest IH]; intros w; simpl.
  - exists w. split; [reflexivity|]. split; [apply s3_grows_refl|].
    intros ? ? [].
  - destruct (download_single_media_spec cfg env url w) as (w1 & -> & Hg1 & Hs1).
    destruct (IH w1) as (w2 & -> & Hg2 & Hs2).
    exists w2. split; [reflexivity|].
    split; [eapply s3_grows_trans; eassumption|].
    intros ref u [<- | Hin] Hrelay.
    + destruct (Hs1 u Hrelay) as [Ht Hst]. split; [exact Ht|].
      eapply stored_mono; eassumption.
    + eapply Hs2; eassumption.
Qed.

Lemma saved_urls_of_relayed cfg env urls :
  saved_urls_of (map (fun url => Ok (relay cfg env url)) urls) =
  Ok (omap (relay cfg env) urls).
Proof.
  induction urls as [|url rest IH]; simpl; [reflexivity|].
  rewrite IH. destruct (relay cfg env url) as [u|] eqn:Hrelay; simpl;
    [|reflexivity].
  destruct (download_single_media_spec cfg env url
              (mkWorld ∅ [] [] ∅ [])) as (w' & _ & _ & Hs).
  destruct (Hs u Hrelay) as [-> _]. reflexivity.
Qed.

Lemma download_media_files_spec cfg env feedback_data w :
  exists w',
    download_media_files cfg env feedback_data w =
      (if db_commit_ok env then Ok tt else Raise SQLAlchemyError, w') /\
    session_table w' = session_table w /\
    chat_table w' = chat_table w /\
    whatsapp_outbox w' = whatsapp_outbox w /\
    feedback_table w' =
      (if db_commit_ok env
       then feedback_table w ++ [feedback_row cfg env feedback_data]
       else feedback_table w)%list /\
    (forall u, In u (feedback_media_urls (feedback_row cfg env feedback_data)) ->
               stored cfg w' u).
Proof.
  unfold download_media_files, feedback_row.
  set (urls := get (data_media_urls feedback_data) []).
  unfold mbind at 1 2, M_bind, bind.
  destruct (0 <? length urls)%nat eqn:Hlen.
  - unfold mbind at 1 2, M_bind, bind, await_gather, lift.
    destruct (gather_downloads cfg env urls w) as (w1 & -> & Hg & Hs).
    rewrite saved_urls_of_relayed. unfold mret, M_ret, ret. simpl.
    unfold save_feedback_data. simpl.
    destruct Hg as (Hs3 & Hst & Hct & Hwo & Hft).
    destruct (db_commit_ok env); simpl; eexists; (split; [reflexivity|]);
      simpl; rewrite ?Hft; repeat split; auto;
      intros u Hu; apply list_elem_of_In, list_elem_of_omap in Hu;
      destruct Hu as (url & Hin & Hrelay);
      apply list_elem_of_In in Hin;
      destruct (Hs url u Hin Hrelay) as [_ Hst']; exact Hst'.
  - assert (Hnil : urls = []).
    { apply Nat.ltb_ge in Hlen. destruct urls; [reflexivity | simpl in Hlen; lia]. }
    rewrite Hnil. unfold mret, M_ret, ret. simpl.
    unfold save_feedback_data. simpl.
    destruct (db_commit_ok env); simpl; eexists; (split; [reflexivity|]);
      simpl; repeat split; auto; intros u [].
Qed.

(** ** The side effects of [reply_user] *)

(** Each store ends as its own task leaves it, whatever happens to the
    other tasks. *)
Lemma reply_tasks_effect cfg env sender_id message_id timestamp r w :
  let w' := (gather (reply_tasks cfg env sender_id message_id timestamp r) w).2 in
  session_table w' = session_table w /\
  whatsapp_outbox w' =
    (if twilio_send_ok env
     then whatsapp_outbox w ++ [outbound_message cfg sender_id r]
     else whatsapp_outbox w)%list /\
  chat_table w' =
    (if reply_should_persist r && dynamodb_ok env PutChat
     then chat_table w ++ [chat_data_of sender_id message_id timestamp r]
     else chat_table w)%list /\
  feedback_table w' =
    (if reply_is_complete r && db_commit_ok env
     then feedback_table w ++ [feedback_row cfg env (feedback_payload sender_id r)]
     else feedback_table w)%list /\
  (reply_is_complete r = true ->
   forall u, In u (feedback_media_urls
                     (feedback_row cfg env (feedback_payload sender_id r))) ->
             stored cfg w' u).
Proof.
  unfold reply_tasks. fold (feedback_payload sender_id r).
  unfold send_whatsapp_message, save_chat_message, outbound_message.
  destruct (reply_should_persist r), (reply_is_complete r); simpl;
    destruct (twilio_send_ok env); simpl;
    try (destruct (dynamodb_ok env PutChat); simpl);
    try match goal with
      | |- context [download_media_files ?c ?e ?d ?w0] =>
          destruct (download_media_files_spec c e d w0)
            as (w2 & -> & Hst & Hct & Hwo & Hft & Hs3); simpl;
          rewrite Hst, Hct, Hwo, Hft; simpl
      end;
    try (destruct (db_commit_ok env); simpl);
    repeat split; auto; discriminate.
Qed.

Lemma reply_user_run isoformat cfg env sender_id w :
  reply_user isoformat cfg env sender_id w =
  match get_reply_message isoformat env sender_id w with
  | (Ok r, w1) =>
      (Ok (mkSummary (reply_session_id r) (uuid_message env) "sent"),
       (gather (reply_tasks cfg env sender_id (uuid_message env)
                            (time_time env PutChat) r) w1).2)
  | (Raise e, w1) => (Raise e, w1)
  end.
Proof.
  unfold reply_user, try_except, mbind, M_bind, bind, await_gather, raise.
  destruct (get_reply_message isoformat env sender_id w) as [[r | e] w1];
    [|reflexivity].
  destruct (gather _ w1) as [rs w2]. reflexivity.
Qed.

(** ** The session updates of one decision *)

Lemma with_session_table_id w : with_session_table (fun t => t) w = w.
Proof. destruct w. reflexivity. Qed.

(** When [apply_decision] returns, it returns the reply of the decision
    and has made the three updates. *)
Lemma apply_decision_ok isoformat env sender_id conversation d r w w' :
  (LLM.analyze_conversation isoformat (llm_env env) (messages conversation)).1
    = Ok d ->
  apply_decision isoformat env sender_id conversation w = (Ok r, w') ->
  r = reply_of env d (conversation_session_id conversation) /\
  w' = with_session_table
         (table_after_decision env sender_id d
            (conversation_session_id conversation)) w.
Proof.
  intros Hd. unfold apply_decision, reply_of, table_after_decision,
    decided_session_id.
  unfold mbind at 1, M_bind, bind at 1, lift. rewrite Hd.
  set (sid := conversation_session_id conversation).
  unfold mark_session_as_completed, mark_session_as_limited,
    put_session, update_session, mbind, M_bind, bind, mret, M_ret, ret.
  destruct (get (is_feedback_session_complete d) false && truthy_str sid);
    destruct (get (reopen_session d) false && truthy_str sid);
    destruct (truthy_opt_str (user_limited_until d));
    simpl;
    repeat (match goal with
            | |- context [dynamodb_ok env ?c] => destruct (dynamodb_ok env c)
            | |- context [truthy_str ?x] => destruct (truthy_str x)
            end; simpl);
    destruct w; intros H; inversion H; subst; clear H;
    split; reflexivity.
Qed.

(** ** How [get_reply_message] moves the stores *)

Lemma get_user_unresolved_session_message_reads env sender_id w :
  (get_user_unresolved_session_message env sender_id w).2 = w.
Proof.
  unfold get_user_unresolved_session_message.
  destruct (dynamodb_ok env QuerySessions); simpl; [|reflexivity].
  destruct (query_active_session _ _) as [|[k item] rest]; [reflexivity|].
  destruct (dynamodb_ok env QueryChats); simpl; [|reflexivity].
  destruct (all_messages _ _ _); reflexivity.
Qed.

Section Structure.

Context (isoformat : Z -> string) (env : Env) (sender_id : string).
Context (R : World -> World -> Prop).
Hypothesis R_refl : forall w, R w w.
Hypothesis R_trans : forall w1 w2 w3, R w1 w2 -> R w2 w3 -> R w1 w3.

(** [resolve_conversation] writes at most the new session. *)
Lemma resolve_conversation_ensures :
  ensures R any
    (put_session env PutNewSession (uuid_new_session env)
       (new_session sender_id (time_time env PutNewSession))) ->
  ensures R any (resolve_conversation env sender_id).
Proof.
  intros Hput. unfold resolve_conversation.
  apply ensures_bind with (Q := any); try assumption.
  - intros w. rewrite get_user_unresolved_session_message_reads.
    split; [apply R_refl | intros; exact I].
  - intros [conversation|] _.
    + apply ensures_ret; [assumption | exact I].
    + apply ensures_bind with (Q := any); try assumption.
      intros _ _. apply ensures_ret; [assumption | exact I].
Qed.

(** [apply_decision] makes at most three writes: completed on the session of
    the conversation, the reopened session when the decision asks for it,
    limited on the session that the reply names. *)
Lemma apply_decision_ensures (conversation : Conversation) (good : string -> Prop) :
  good (conversation_session_id conversation) ->
  good (uuid_reopened_session env) ->
  (forall k t, good k ->
     ensures R any (update_session env UpdateCompleted k (set_completed t))) ->
  ((exists d,
      (LLM.analyze_conversation isoformat (llm_env env)
         (messages conversation)).1 = Ok d /\
      get (reopen_session d) false = true) ->
   ensures R any
     (put_session env PutReopenedSession (uuid_reopened_session env)
        (new_session sender_id (time_time env PutReopenedSession)))) ->
  (forall k u t, good k ->
     ensures R any (update_session env UpdateLimited k (set_limited u t))) ->
  ensures R (fun r => good (reply_session_id r))
    (apply_decision isoformat env sender_id conversation).
Proof.
  intros Hsid Hnew Hcompleted Hreopen Hlimited. unfold apply_decision.
  eapply ensures_bind; [assumption | apply ensures_lift; assumption |].
  intros d Hd. simpl in Hd.
  apply ensures_bind with (Q := any); try assumption.
  { destruct (_ && _); [|apply ensures_ret; [assumption | exact I]].
    unfold mark_session_as_completed.
    apply ensures_bind with (Q := any); try assumption.
    - apply ensures_bind with (Q := any); try assumption.
      + apply Hcompleted. exact Hsid.
      + intros _ _. apply ensures_ret; [assumption | exact I].
    - intros _ _. apply ensures_ret; [assumption | exact I]. }
  intros _ _.
  apply ensures_bind with (Q := good); try assumption.
  { destruct (get (reopen_session d) false) eqn:Hre; simpl;
      [|apply ensures_ret; assumption].
    destruct (truthy_str _); [|apply ensures_ret; assumption].
    unfold mark_session_as_completed.
    apply ensures_bind with (Q := any); try assumption.
    - apply Hreopen. exists d. split; assumption.
    - intros _ _. apply ensures_ret; assumption. }
  intros session_id Hgood.
  apply ensures_bind with (Q := any); try assumption.
  { destruct (_ && _); [|apply ensures_ret; [assumption | exact I]].
    unfold mark_session_as_limited. apply Hlimited. exact Hgood. }
  intros _ _. apply ensures_ret; [assumption | exact Hgood].
Qed.

End Structure.

(** ** Active sessions *)

Lemma active_from_refl sender_id allowed w : active_from sender_id allowed w w.
Proof. intros k item Hk Hact. right. eauto. Qed.

Lemma active_from_trans sender_id allowed w1 w2 w3 :
  active_from sender_id allowed w1 w2 -> active_from sender_id allowed w2 w3 ->
  active_from sender_id allowed w1 w3.
Proof.
  intros H12 H23 k item Hk Hact.
  destruct (H23 k item Hk Hact) as [Hall | (item2 & Hk2 & Hact2)]; [left; exact Hall|].
  apply (H12 k item2 Hk2 Hact2).
Qed.

Lemma active_from_weaken sender_id (allowed allowed' : string -> Prop) w w' :
  (forall k, allowed k -> allowed' k) ->
  active_from sender_id allowed w w' -> active_from sender_id allowed' w w'.
Proof.
  intros Hsub H k item Hk Hact.
  destruct (H k item Hk Hact) as [Hall | Hold]; auto.
Qed.

Lemma active_from_same_table sender_id allowed w w' :
  session_table w' = session_table w -> active_from sender_id allowed w w'.
Proof. intros Heq k item Hk Hact. rewrite Heq in Hk. right. eauto. Qed.

Lemma update_completed_no_new env call sender_id k t :
  ensures (active_from sender_id none) any
    (update_session env call k (set_completed t)).
Proof.
  intros w. split; [|intros; exact I].
  unfold update_session. destruct (dynamodb_ok env call); simpl;
    [|apply active_from_refl].
  intros k' item' Hk' Hact. simpl in Hk'.
  destruct (decide (k = k')) as [-> | Hne].
  - rewrite lookup_insert_eq in Hk'. inversion Hk'; subst.
    destruct Hact as [_ Hact]. discriminate.
  - rewrite lookup_insert_ne in Hk' by exact Hne. right. eauto.
Qed.

Lemma update_limited_no_new env call sender_id k u t :
  ensures (active_from sender_id none) any
    (update_session env call k (set_limited u t)).
Proof.
  intros w. split; [|intros; exact I].
  unfold update_session. destruct (dynamodb_ok env call); simpl;
    [|apply active_from_refl].
  intros k' item' Hk' Hact. simpl in Hk'.
  destruct (decide (k = k')) as [-> | Hne].
  - rewrite lookup_insert_eq in Hk'. inversion Hk'; subst. right.
    destruct (session_table w !! k') as [item|] eqn:Hold; simpl in *.
    + exists item. split; [reflexivity|]. exact Hact.
    + destruct Hact as [Hs _]. discriminate.
  - rewrite lookup_insert_ne in Hk' by exact Hne. right. eauto.
Qed.

Lemma put_session_allowed env call sender_id k item :
  ensures (active_from sender_id (fun k' => k' = k)) any
    (put_session env call k item).
Proof.
  intros w. split; [|intros; exact I].
  unfold put_session. destruct (dynamodb_ok env call); simpl;
    [|apply active_from_refl].
  intros k' item' Hk' Hact. simpl in Hk'.
  destruct (decide (k = k')) as [-> | Hne]; [left; reflexivity|].
  rewrite lookup_insert_ne in Hk' by exact Hne. right. eauto.
Qed.

Lemma put_session_other env call k k' item :
  k' <> k -> ensures (unchanged (session_at k)) any (put_session env call k' item).
Proof.
  intros Hne w. split; [|intros; exact I].
  unfold put_session, unchanged, session_at.
  destruct (dynamodb_ok env call); simpl; [|reflexivity].
  apply lookup_insert_ne. exact Hne.
Qed.

Lemma update_session_other env call k k' set :
  k' <> k -> ensures (unchanged (session_at k)) any (update_session env call k' set).
Proof.
  intros Hne w. split; [|intros; exact I].
  unfold update_session, unchanged, session_at.
  destruct (dynamodb_ok env call); simpl; [|reflexivity].
  apply lookup_insert_ne. exact Hne.
Qed.

(** A store that [with_session_table] does not touch is left as it is by
    [get_reply_message]. *)
Lemma put_session_frame {B} (proj : World -> B) env call k item :
  (forall f w, proj (with_session_table f w) = proj w) ->
  ensures (unchanged proj) any (put_session env call k item).
Proof.
  intros Hproj w. split; [|intros; exact I]. unfold put_session, unchanged.
  destruct (dynamodb_ok env call); simpl; [apply Hproj | reflexivity].
Qed.

Lemma update_session_frame {B} (proj : World -> B) env call k set :
  (forall f w, proj (with_session_table f w) = proj w) ->
  ensures (unchanged proj) any (update_session env call k set).
Proof.
  intros Hproj w. split; [|intros; exact I]. unfold update_session, unchanged.
  destruct (dynamodb_ok env call); simpl; [apply Hproj | reflexivity].
Qed.

Lemma get_reply_message_frame {B} (proj : World -> B) isoformat env sender_id :
  (forall f w, proj (with_session_table f w) = proj w) ->
  ensures (unchanged proj) any (get_reply_message isoformat env sender_id).
Proof.
  intros Hproj. unfold get_reply_message.
  apply ensures_bind with (Q := any); [apply unchanged_trans | |].
  - apply resolve_conversation_ensures;
      [apply unchanged_refl | apply unchanged_trans |].
    apply put_session_frame. exact Hproj.
  - intros conversation _.
    eapply ensures_weaken.
    + apply (apply_decision_ensures isoformat env sender_id (unchanged proj)
               (unchanged_refl proj) (unchanged_trans proj) conversation any);
        try exact I.
      * intros. apply update_session_frame. exact Hproj.
      * intros. apply put_session_frame. exact Hproj.
      * intros. apply update_session_frame. exact Hproj.
    + intros; exact I.
Qed.

(** ** One reply cycle and the active sessions *)

Lemma reply_user_session_table isoformat cfg env sender_id w :
  session_table (reply_user isoformat cfg env sender_id w).2 =
  session_table (get_reply_message isoformat env sender_id w).2.
Proof.
  rewrite reply_user_run.
  destruct (get_reply_message isoformat env sender_id w) as [[r | e] w1];
    [|reflexivity].
  simpl. apply reply_tasks_effect.
Qed.

Lemma get_reply_message_run isoformat env sender_id w :
  get_reply_message isoformat env sender_id w =
  match resolve_conversation env sender_id w with
  | (Ok conversation, w1) => apply_decision isoformat env sender_id conversation w1
  | (Raise e, w1) => (Raise e, w1)
  end.
Proof. reflexivity. Qed.

(** The three outcomes of [resolve_conversation]. *)
Lemma resolve_conversation_cases env sender_id w :
  (exists e, resolve_conversation env sender_id w = (Raise e, w)) \/
  (exists session_id item,
     query_active_session (session_table w) sender_id = [(session_id, item)] /\
     session_index (chat_table w) session_id <> [] /\
     resolve_conversation env sender_id w =
       (Ok (mkConversation
              (flat_map transform (session_index (chat_table w) session_id))
              session_id), w)) \/
  ((query_active_session (session_table w) sender_id = [] \/
    exists session_id item,
      query_active_session (session_table w) sender_id = [(session_id, item)] /\
      session_index (chat_table w) session_id = []) /\
   resolve_conversation env sender_id w =
     (Ok (mkConversation [] (uuid_new_session env)),
      with_session_table
        (fun t => <[uuid_new_session env :=
                      new_session sender_id (time_time env PutNewSession)]> t) w)).
Proof.
  unfold resolve_conversation, get_user_unresolved_session_message,
    mbind, M_bind, bind, put_session, mret, M_ret, ret.
  destruct (dynamodb_ok env QuerySessions); simpl; [|left; eauto].
  destruct (query_active_session_inv (session_table w) sender_id)
    as [Hq | (k & item & Hq & _)]; rewrite Hq.
  - destruct (dynamodb_ok env PutNewSession); simpl; [|left; eauto].
    right. right. split; [left; reflexivity | reflexivity].
  - destruct (dynamodb_ok env QueryChats); simpl; [|left; eauto].
    rewrite all_messages_index.
    destruct (session_index (chat_table w) k) as [|c rest] eqn:Hidx.
    + destruct (dynamodb_ok env PutNewSession); simpl; [|left; eauto].
      right. right. split; [|reflexivity]. right. eauto.
    + right. left. exists k, item. rewrite Hidx.
      split; [reflexivity|]. split; [discriminate | reflexivity].
Qed.

Lemma apply_decision_no_new isoformat env sender_id sender conversation :
  (forall d,
     (LLM.analyze_conversation isoformat (llm_env env)
        (messages conversation)).1 = Ok d ->
     get (reopen_session d) false = false) ->
  ensures (active_from sender none) any
    (apply_decision isoformat env sender_id conversation).
Proof.
  intros Hno. eapply ensures_weaken.
  - apply (apply_decision_ensures isoformat env sender_id
             (active_from sender none) (active_from_refl sender none)
             (active_from_trans sender none) conversation any);
      try exact I.
    + intros. apply update_completed_no_new.
    + intros (d & Hd & Hre). rewrite (Hno d Hd) in Hre. discriminate.
    + intros. apply update_limited_no_new.
  - intros; exact I.
Qed.

Lemma no_active_query_empty table sender_id :
  no_active_session table sender_id -> query_active_session table sender_id = [].
Proof.
  intros Hno.
  destruct (query_active_session_inv table sender_id)
    as [Hq | (k & item & _ & Hk & Hs & Hact)]; [exact Hq|].
  exfalso. apply (Hno k item Hk). split; assumption.
Qed.

(** In a cycle whose decision does not ask to reopen, a session is created
    only when the sender has no active session: if the sender has no active
    session, or if the lookup finds the active session and that session has
    a stored message, then after the cycle, whether it returns or raises,
    every active session of the sender either was active before or is the
    one just created for a sender that had none, and the sender has at most
    one active session. *)
Lemma one_active_session_step (isoformat : Z -> string) (cfg : Config) (env : Env)
    (sender_id : string) (w : World) :
  at_most_one_active (session_table w) sender_id ->
  (no_active_session (session_table w) sender_id \/
   exists session_id item,
     query_active_session (session_table w) sender_id = [(session_id, item)] /\
     session_index (chat_table w) session_id <> []) ->
  (forall conversation w1 d,
     resolve_conversation env sender_id w = (Ok conversation, w1) ->
     (LLM.analyze_conversation isoformat (llm_env env)
        (messages conversation)).1 = Ok d ->
     get (reopen_session d) false = false) ->
  let w' := (reply_user isoformat cfg env sender_id w).2 in
  at_most_one_active (session_table w') sender_id /\
  forall k item',
    session_table w' !! k = Some item' -> active_for sender_id item' ->
    (exists item, session_table w !! k = Some item /\ active_for sender_id item) \/
    (k = uuid_new_session env /\ no_active_session (session_table w) sender_id).
Proof.
  intros Hone Hstate Hno w'.
  assert (Hstep : forall k item',
    session_table w' !! k = Some item' -> active_for sender_id item' ->
    (exists item, session_table w !! k = Some item /\ active_for sender_id item) \/
    (k = uuid_new_session env /\ no_active_session (session_table w) sender_id)).
  { subst w'. rewrite reply_user_session_table, get_reply_message_run.
    destruct (resolve_conversation_cases env sender_id w)
      as [(e & Hr) | [(sid & item & Hq & Hidx & Hr) | (Hq & Hr)]]; rewrite Hr.
    - intros k item' Hk Hact. left. eauto.
    - intros k item' Hk Hact.
      destruct (apply_decision_no_new isoformat env sender_id sender_id _
                  (fun d => Hno _ _ d Hr) w) as [Hfrom _].
      destruct (Hfrom k item' Hk Hact) as [[] | Hold]. left. exact Hold.
    - assert (Hnone : no_active_session (session_table w) sender_id).
      { destruct Hstate as [Hnone | (sid & item & Hq' & Hidx)]; [exact Hnone|].
        destruct Hq as [Hq | (sid' & item'' & Hq & Hidx')];
          rewrite Hq in Hq'; [discriminate|].
        inversion Hq'; subst. contradiction. }
      intros k item' Hk Hact.
      match type of Hr with _ = (_, ?x) => set (w1 := x) in * end.
      destruct (apply_decision_no_new isoformat env sender_id sender_id
                  (mkConversation [] (uuid_new_session env))
                  (fun d => Hno _ _ d Hr) w1) as [Hfrom _].
      destruct (Hfrom k item' Hk Hact) as [[] | (item1 & Hk1 & Hact1)].
      subst w1. simpl in Hk1.
      destruct (decide (uuid_new_session env = k)) as [<- | Hne].
      + right. split; [reflexivity | exact Hnone].
      + rewrite lookup_insert_ne in Hk1 by exact Hne. left. eauto. }
  split; [|exact Hstep].
  intros k1 k2 item1 item2 Hk1 Hk2 Hact1 Hact2.
  destruct (Hstep k1 item1 Hk1 Hact1) as [(i1 & Hi1 & Ha1) | [-> Hnone1]];
    destruct (Hstep k2 item2 Hk2 Hact2) as [(i2 & Hi2 & Ha2) | [-> Hnone2]].
  - eapply Hone; eassumption.
  - exfalso. eapply Hnone2; eassumption.
  - exfalso. eapply Hnone1; eassumption.
  - reflexivity.
Qed.

(** C1, as amended.  Along every sequence of reply cycles of a sender in
    which no decision asks to reopen and every cycle starts with the sender
    having no active session or an active session that the lookup finds with
    a stored message, the sender has at most one active session after every
    cycle, and a cycle leaves active only sessions that were active before
    it, or the one it created for a sender that had none. *)
Theorem one_active_session_invariant (isoformat : Z -> string) (cfg : Config)
    (sender_id : string) (cycles : list Env) (w : World) :
  at_most_one_active (session_table w) sender_id ->
  steady isoformat cfg sender_id cycles w ->
  forall before env after,
    cycles = (before ++ env :: after)%list ->
    let w0 := run_cycles isoformat cfg sender_id before w in
    let w1 := (reply_user isoformat cfg env sender_id w0).2 in
    at_most_one_active (session_table w1) sender_id /\
    forall k item',
      session_table w1 !! k = Some item' -> active_for sender_id item' ->
      (exists item, session_table w0 !! k = Some item /\ active_for sender_id item) \/
      (k = uuid_new_session env /\ no_active_session (session_table w0) sender_id).
Proof.
  intros Hone Hsteady before. revert cycles w Hone Hsteady.
  induction before as [|env0 before IH]; intros cycles w Hone Hsteady env after ->.
  - simpl in Hsteady. destruct Hsteady as (Hstart & Hno & _). simpl.
    apply one_active_session_step; assumption.
  - simpl in Hsteady. destruct Hsteady as (Hstart & Hno & Hrest). simpl.
    assert (Hone' : at_most_one_active
                      (session_table (reply_user isoformat cfg env0 sender_id w).2)
                      sender_id).
    { apply (one_active_session_step isoformat cfg env0 sender_id w); assumption. }
    exact (IH (before ++ env :: after)%list _ Hone' Hrest env after eq_refl).
Qed.

Lemma apply_decision_other isoformat env sender_id conversation k :
  conversation_session_id conversation <> k ->
  uuid_reopened_session env <> k ->
  ensures (unchanged (session_at k)) (fun r => reply_session_id r <> k)
    (apply_decision isoformat env sender_id conversation).
Proof.
  intros Hsid Hre.
  apply (apply_decision_ensures isoformat env sender_id
           (unchanged (session_at k)) (unchanged_refl _) (unchanged_trans _)
           conversation (fun k' => k' <> k)); try assumption.
  - intros. apply update_session_other. assumption.
  - intros. apply put_session_other. assumption.
  - intros. apply update_session_other. assumption.
Qed.

(** C10. When the lookup finds an active session of the sender that has no
    stored message, the cycle does not reuse it: a second session with a
    new id is stored as active for the sender, the history given to the
    classifier is empty, the rest of [get_reply_message] runs on the new
    session, the reply names the new session (the reopened one when the
    decision asks to reopen) and never the original one, and the original
    session is still stored, active and untouched, when the cycle ends. *)
Theorem empty_active_session_not_reused (isoformat : Z -> string) (cfg : Config)
    (env : Env) (sender_id : string) (w : World) (session_id : string)
    (item : SessionItem) :
  dynamodb_ok env QuerySessions = true ->
  dynamodb_ok env QueryChats = true ->
  dynamodb_ok env PutNewSession = true ->
  query_active_session (session_table w) sender_id = [(session_id, item)] ->
  session_index (chat_table w) session_id = [] ->
  uuid_new_session env <> session_id ->
  uuid_reopened_session env <> session_id ->
  let fresh := mkConversation [] (uuid_new_session env) in
  let created := new_session sender_id (time_time env PutNewSession) in
  let w1 := with_session_table (fun t => <[uuid_new_session env := created]> t) w in
  (session_table w !! session_id = Some item /\ active_for sender_id item) /\
  resolve_conversation env sender_id w = (Ok fresh, w1) /\
  (session_table w1 !! uuid_new_session env = Some created /\
   active_for sender_id created) /\
  session_table w1 !! session_id = Some item /\
  get_reply_message isoformat env sender_id w =
    apply_decision isoformat env sender_id fresh w1 /\
  (forall r w2 d,
     get_reply_message isoformat env sender_id w = (Ok r, w2) ->
     (LLM.analyze_conversation isoformat (llm_env env) []).1 = Ok d ->
     reply_session_id r = decided_session_id env d (uuid_new_session env) /\
     (get (reopen_session d) false = false ->
      reply_session_id r = uuid_new_session env) /\
     reply_session_id r <> session_id) /\
  session_table (reply_user isoformat cfg env sender_id w).2 !! session_id
    = Some item.
Proof.
  intros Hqs Hqc Hput Hq Hidx Hnew Hre fresh created w1.
  assert (Hitem : session_table w !! session_id = Some item /\
                  active_for sender_id item).
  { destruct (query_active_session_inv (session_table w) sender_id)
      as [Hq' | (k & item' & Hq' & Hk & Hs & Hact)]; rewrite Hq in Hq';
      [discriminate|].
    inversion Hq'; subst. split; [exact Hk | split; assumption]. }
  assert (Hres : resolve_conversation env sender_id w = (Ok fresh, w1)).
  { unfold resolve_conversation, get_user_unresolved_session_message,
      mbind, M_bind, bind, put_session, mret, M_ret, ret.
    rewrite Hqs. simpl. rewrite Hq, Hqc. simpl.
    rewrite all_messages_index, Hidx, Hput. reflexivity. }
  assert (Hrun : get_reply_message isoformat env sender_id w =
                 apply_decision isoformat env sender_id fresh w1).
  { rewrite get_reply_message_run, Hres. reflexivity. }
  assert (Hw1 : session_table w1 !! session_id = Some item).
  { subst w1. simpl. rewrite lookup_insert_ne by exact Hnew. apply Hitem. }
  destruct (apply_decision_other isoformat env sender_id fresh session_id
              Hnew Hre w1) as [Hsame Hnames].
  split; [exact Hitem|]. split; [exact Hres|].
  split; [|split; [exact Hw1|split; [exact Hrun|split]]].
  - split.
    + subst w1. simpl. apply lookup_insert_eq.
    + split; reflexivity.
  - intros r w2 d Hget Hd. rewrite Hrun in Hget.
    destruct (apply_decision_ok isoformat env sender_id fresh d r w1 w2 Hd Hget)
      as [Hr _].
    split; [rewrite Hr; reflexivity|]. split.
    + intros Hkeep. rewrite Hr. simpl. unfold decided_session_id.
      rewrite Hkeep. reflexivity.
    + apply Hnames. rewrite Hget. reflexivity.
  - rewrite reply_user_session_table, Hrun.
    unfold unchanged, session_at in Hsame. rewrite Hsame. exact Hw1.
Qed.

(** What a decision that asks to reopen without completing does to the
    sessions: the session of the conversation keeps the item it had. *)
Lemma reopen_keeps_prior_session isoformat env sender_id conversation d r w w' :
  (LLM.analyze_conversation isoformat (llm_env env) (messages conversation)).1
    = Ok d ->
  get (reopen_session d) false = true ->
  get (is_feedback_session_complete d) false = false ->
  truthy_str (conversation_session_id conversation) = true ->
  uuid_reopened_session env <> conversation_session_id conversation ->
  apply_decision isoformat env sender_id conversation w = (Ok r, w') ->
  reply_session_id r = uuid_reopened_session env /\
  session_table w' !! conversation_session_id conversation =
    session_table w !! conversation_session_id conversation /\
  exists item,
    session_table w' !! uuid_reopened_session env = Some item /\
    active_for sender_id item.
Proof.
  intros Hd Hre Hcomplete Htruthy Hne Hrun.
  destruct (apply_decision_ok isoformat env sender_id conversation d r w w' Hd Hrun)
    as [-> ->].
  unfold reply_of, table_after_decision, decided_session_id. simpl.
  rewrite Hre, Hcomplete, Htruthy. simpl.
  split; [reflexivity|].
  destruct (truthy_opt_str (user_limited_until d) &&
            truthy_str (uuid_reopened_session env)); simpl.
  - rewrite lookup_insert_ne by exact Hne.
    rewrite lookup_insert_ne by exact Hne.
    split; [reflexivity|]. rewrite !lookup_insert_eq. simpl.
    eexists. split; [reflexivity|]. split; reflexivity.
  - rewrite lookup_insert_ne by exact Hne.
    split; [reflexivity|]. rewrite lookup_insert_eq.
    eexists. split; [reflexivity|]. split; reflexivity.
Qed.

Lemma table_after_decision_completed env sender_id d session_id t :
  get (is_feedback_session_complete d) false = true ->
  truthy_str session_id = true ->
  uuid_reopened_session env <> session_id ->
  exists item,
    table_after_decision env sender_id d session_id t !! session_id = Some item /\
    session_status item = Some "completed".
Proof.
  intros Hcomplete Htruthy Hne.
  unfold table_after_decision, decided_session_id.
  rewrite Hcomplete, Htruthy. simpl.
  destruct (get (reopen_session d) false); simpl.
  - destruct (truthy_opt_str (user_limited_until d) &&
              truthy_str (uuid_reopened_session env)); simpl.
    + rewrite lookup_insert_ne by exact Hne.
      rewrite lookup_insert_ne by exact Hne.
      rewrite lookup_insert_eq. eexists. split; reflexivity.
    + rewrite lookup_insert_ne by exact Hne.
      rewrite lookup_insert_eq. eexists. split; reflexivity.
  - rewrite Htruthy.
    destruct (truthy_opt_str (user_limited_until d)); simpl.
    + rewrite !lookup_insert_eq. simpl. eexists. split; reflexivity.
    + rewrite lookup_insert_eq. eexists. split; reflexivity.
Qed.

(** ** Feedback records *)

(** C5. When the decision of the cycle marks the feedback session complete
    and the session updates go through, the session of the conversation is
    stored with status completed and, the commit of the feedback store
    succeeding, exactly one row is added to it: its sender is the sender,
    its product name and text are those of the decision, and its media
    addresses are the results of the relay on the references of the
    decision, each one the address of an object held by the bucket and
    different from the reference it was made from. *)
Theorem completed_session_writes_feedback (isoformat : Z -> string) (cfg : Config)
    (env : Env) (sender_id : string) (w : World) (conversation : Conversation)
    (w1 : World) (d : Decision) (r : Reply) (w2 : World) :
  resolve_conversation env sender_id w = (Ok conversation, w1) ->
  (LLM.analyze_conversation isoformat (llm_env env) (messages conversation)).1
    = Ok d ->
  is_feedback_session_complete d = Some true ->
  get_reply_message isoformat env sender_id w = (Ok r, w2) ->
  truthy_str (conversation_session_id conversation) = true ->
  uuid_reopened_session env <> conversation_session_id conversation ->
  db_commit_ok env = true ->
  let w' := (reply_user isoformat cfg env sender_id w).2 in
  (exists item,
     session_table w' !! conversation_session_id conversation = Some item /\
     session_status item = Some "completed") /\
  exists row,
    feedback_table w' = (feedback_table w ++ [row])%list /\
    feedback_sender_id row = Some sender_id /\
    feedback_product_name row = Some (get (product_name d) EmptyString) /\
    feedback_text row = Some (get (feedback d) EmptyString) /\
    feedback_media_urls row = omap (relay cfg env) (get (media_urls d) []) /\
    forall u, In u (feedback_media_urls row) ->
      stored cfg w' u /\
      exists reference,
        In reference (get (media_urls d) []) /\
        relay cfg env reference = Some u /\ u <> reference.
Proof.
  intros Hres Hd Hcomplete Hget Htruthy Hne Hdb w'.
  assert (Hc : get (is_feedback_session_complete d) false = true)
    by (unfold get; rewrite Hcomplete; reflexivity).
  assert (Hrun : apply_decision isoformat env sender_id conversation w1 = (Ok r, w2)).
  { rewrite get_reply_message_run, Hres in Hget. exact Hget. }
  destruct (apply_decision_ok isoformat env sender_id conversation d r w1 w2 Hd Hrun)
    as [Hr Hw2].
  assert (Hfb : feedback_table w2 = feedback_table w).
  { destruct (get_reply_message_frame feedback_table isoformat env sender_id
                (fun _ _ => eq_refl) w) as [Hsame _].
    rewrite Hget in Hsame. exact Hsame. }
  assert (Hw' : w' = (gather (reply_tasks cfg env sender_id (uuid_message env)
                                (time_time env PutChat) r) w2).2).
  { subst w'. rewrite reply_user_run, Hget. reflexivity. }
  destruct (reply_tasks_effect cfg env sender_id (uuid_message env)
              (time_time env PutChat) r w2) as (Hst & _ & _ & Hft & Hs3).
  rewrite <- Hw' in Hst, Hft, Hs3.
  assert (Hrc : reply_is_complete r = true) by (rewrite Hr; exact Hc).
  rewrite Hrc, Hdb in Hft. simpl in Hft.
  split.
  - rewrite Hst, Hw2. simpl.
    apply table_after_decision_completed; assumption.
  - exists (feedback_row cfg env (feedback_payload sender_id r)).
    split; [rewrite Hft, Hfb; reflexivity|].
    assert (Hdata : reply_feedback_data r =
                    mkFeedbackData None (Some (get (product_name d) EmptyString))
                                   (Some (get (feedback d) EmptyString))
                                   (Some (get (media_urls d) []))).
    { rewrite Hr. simpl. unfold feedback_data_of. rewrite Hc. reflexivity. }
    unfold feedback_row, feedback_payload in *. rewrite Hdata in *. simpl in *.
    repeat split; try reflexivity.
    + apply Hs3; assumption.
    + apply list_elem_of_In, list_elem_of_omap in H.
      destruct H as (reference & Hin & Hrelay).
      exists reference. split; [apply list_elem_of_In; exact Hin|].
      split; [exact Hrelay|]. eapply relay_differs. exact Hrelay.
Qed.

(** C9. [download_single_media] never raises and its answer for a
    reference is [relay] of that reference alone, wherever the reference
    stands in a batch; [relay] is [None] as soon as the lookup, the download
    or the upload fails.  [download_media_files] then writes the row with
    the addresses of the references whose relay succeeded, in order, and
    raises only if the commit of the feedback store fails. *)
Theorem relay_failures_are_isolated (cfg : Config) (env : Env)
    (feedback_data : FeedbackData) (w : World) :
  (forall url w0, exists w1,
     download_single_media cfg env url w0 = (Ok (relay cfg env url), w1)) /\
  (forall urls w0,
     (gather (map (download_single_media cfg env) urls) w0).1 =
     map (fun url => Ok (relay cfg env url)) urls) /\
  (forall url message_sid media_sid,
     from_end (split slash url) 3 = Some message_sid ->
     from_end (split slash url) 1 = Some media_sid ->
     (* lookup miss *)
     ((exists e, twilio_media_list env message_sid = Raise e) ->
      relay cfg env url = None) /\
     (forall media_list,
        twilio_media_list env message_sid = Ok media_list ->
        find_media_url media_list media_sid = None ->
        relay cfg env url = None) /\
     (* download error *)
     (forall media_list location,
        twilio_media_list env message_sid = Ok media_list ->
        find_media_url media_list media_sid = Some location ->
        (exists e, http_get env location = Raise e) \/
        (exists response, http_get env location = Ok response /\
                          response_ok response = false) ->
        relay cfg env url = None) /\
     (* upload error *)
     (forall media_list location response,
        twilio_media_list env message_sid = Ok media_list ->
        find_media_url media_list media_sid = Some location ->
        http_get env location = Ok response ->
        s3_put_ok env
          (s3_key_of message_sid media_sid
             (extension_of (get (response_content_type response)
                                "application/octet-stream"))) = false ->
        relay cfg env url = None)) /\
  exists w',
    download_media_files cfg env feedback_data w =
      (if db_commit_ok env then Ok tt else Raise SQLAlchemyError, w') /\
    feedback_table w' =
      (if db_commit_ok env
       then feedback_table w ++
            [mkFeedback (data_sender_id feedback_data)
                        (data_product_name feedback_data)
                        (data_feedback_text feedback_data)
                        (omap (relay cfg env)
                              (get (data_media_urls feedback_data) []))]
       else feedback_table w)%list /\
    (length (omap (relay cfg env) (get (data_media_urls feedback_data) []))
     <= length (get (data_media_urls feedback_data) []))%nat.
Proof.
  split; [|split; [|split]].
  - intros url w0.
    destruct (download_single_media_spec cfg env url w0) as (w1 & H & _).
    eauto.
  - intros urls w0.
    destruct (gather_downloads cfg env urls w0) as (w1 & -> & _). reflexivity.
  - intros url message_sid media_sid H3 H1. unfold relay.
    rewrite H3, H1. simpl. repeat split.
    + intros [e ->]. reflexivity.
    + intros media_list -> Hfind. simpl. rewrite Hfind. reflexivity.
    + intros media_list location -> Hfind. simpl. rewrite Hfind. simpl.
      intros [[e ->] | (response & -> & Hok)]; simpl; [reflexivity|].
      rewrite Hok. reflexivity.
    + intros media_list location response -> Hfind Hget Hput. simpl.
      rewrite Hfind. simpl. rewrite Hget. simpl.
      destruct (response_ok response); [|reflexivity].
      rewrite Hput. reflexivity.
  - destruct (download_media_files_spec cfg env feedback_data w)
      as (w' & Hrun & _ & _ & _ & Hft & _).
    exists w'. split; [exact Hrun|]. split; [exact Hft|].
    generalize (get (data_media_urls feedback_data) []). intros urls.
    induction urls as [|url rest IH]; simpl; [lia|].
    change (list_omap string string (relay cfg env) rest)
      with (omap (relay cfg env) rest).
    destruct (relay cfg env url); simpl; lia.
Qed.

(** ** What [reply_user] reports *)

(** [reply_user] raises exactly when [get_reply_message] does: nothing
    that happens to the gathered tasks reaches the caller. *)
Lemma reply_user_raises_iff isoformat cfg env sender_id w :
  is_ok (reply_user isoformat cfg env sender_id w).1 =
  is_ok (get_reply_message isoformat env sender_id w).1.
Proof.
  rewrite reply_user_run.
  destruct (get_reply_message isoformat env sender_id w) as [[r | e] w1];
    reflexivity.
Qed.

(** Whatever the answer of Twilio, a cycle whose [get_reply_message]
    returns ends with the summary of status sent. *)
Lemma reply_user_summary isoformat cfg env sender_id w r w1 :
  get_reply_message isoformat env sender_id w = (Ok r, w1) ->
  (reply_user isoformat cfg env sender_id w).1 =
  Ok (mkSummary (reply_session_id r) (uuid_message env) "sent").
Proof. intros H. rewrite reply_user_run, H. reflexivity. Qed.

End OrchestratorProperties.

(** * The properties on concrete conversations *)

Module Scenarios.
Import ChatService ClassifierSpec OrchestratorSpec Examples.
Import ClassifierProperties OrchestratorProperties.

(** ** The helpers on concrete values *)

Example hello_prompt_text : hello_prompt = "Inbound: hello".
Proof. reflexivity. Qed.

Example prompt_of_two_entries :
  LLM._convert_messages_to_string
    [TextMessage "it's great" "inbound"; MediaMessage (Some reference) "inbound";
     MediaMessage None "outbound"]
  = String.concat LLM.newline
      ["Inbound: it's great";
       "Inbound: [Media] https://api.twilio.com/2010-04-01/Accounts/AC0/Messages/MM1/Media/ME1";
       "Outbound: [Media] None"].
Proof. reflexivity. Qed.

Example split_reference :
  split slash reference =
  ["https:"; EmptyString; "api.twilio.com"; "2010-04-01"; "Accounts"; "AC0";
   "Messages"; "MM1"; "Media"; "ME1"].
Proof. reflexivity. Qed.

Example identifiers_of_reference :
  from_end (split slash reference) 3 = Some "MM1" /\
  from_end (split slash reference) 1 = Some "ME1" /\
  from_end (split slash "no-reference") 3 = None.
Proof. repeat split; reflexivity. Qed.

Example location_without_suffix :
  find_media_url
    [mkMedia "ME0" "/2010-04-01/Accounts/AC0/Messages/MM1/Media/ME0.json";
     mkMedia "ME1" "/2010-04-01/Accounts/AC0/Messages/MM1/Media/ME1.json"] "ME1"
  = Some "https://api.twilio.com/2010-04-01/Accounts/AC0/Messages/MM1/Media/ME1".
Proof. reflexivity. Qed.

Example relay_of_reference :
  relay config (cycle (answers completes) "S2" "S3" true) reference
  = Some "https://feedback-bucket.s3.amazonaws.com/feedback-media/MM1/ME1.jpeg".
Proof. reflexivity. Qed.

Example history_of_talking :
  flat_map transform (all_messages (cycle (answers asks_product) "S2" "S3" true)
                        (chat_table talking) "S1")
  = [TextMessage "it's great" "inbound"].
Proof. reflexivity. Qed.

(** The first cycle of a sender: a session is created, the reply is sent
    and logged, and no feedback is written. *)
Example first_cycle :
  let w' := (reply_user isoformat config (cycle (answers asks_product) "S1" "R1" true)
               sender no_store).2 in
  session_table w' !! "S1" = Some (new_session sender 1735689600) /\
  whatsapp_outbox w' =
    [mkWhatsApp "whatsapp:+14155238886" "whatsapp:+155512345"
                "Which Apple product is your feedback about?"] /\
  length (chat_table w') = 1%nat /\
  feedback_table w' = [].
Proof. vm_compute. repeat split; reflexivity. Qed.

(** C3 at a model answer that flags explicit content while proposing its
    own reply, a persisted reply and no reopening. *)
Lemma safety_flag_forces_suspension_witness :
  is_x_rated_conversation flags_abuse = Some true /\
  should_persist_reply flags_abuse = Some true /\
  reopen_session flags_abuse = Some false /\
  exists d,
    (LLM.analyze_conversation isoformat (answers flags_abuse) hello).1 = Ok d /\
    reply d = Some LLM.suspension_reply /\
    should_persist_reply d = Some false /\
    user_limited_until d =
      Some (isoformat (LLM.datetime_now (answers flags_abuse)
                       + LLM.timedelta_minutes 1)%Z) /\
    reopen_session d = Some true.
Proof.
  split; [reflexivity|]. split; [reflexivity|]. split; [reflexivity|].
  apply (safety_flag_forces_suspension isoformat (answers flags_abuse) hello
           (LLM.mkCompletion (Some flags_abuse)) flags_abuse).
  - reflexivity.
  - reflexivity.
  - reflexivity.
  - left. reflexivity.
Defined.

(** C6 at a history whose inbound text has 1001 characters. *)
Lemma oversized_text_short_circuits_witness :
  String.length long_text = 1001%nat /\
  LLM.analyze_conversation isoformat (answers asks_product)
    (hello ++ [TextMessage long_text "inbound"])%list
  = (Ok LLM.too_long_decision, []).
Proof.
  split; [vm_compute; reflexivity|].
  apply (oversized_text_short_circuits isoformat (answers asks_product)
           (hello ++ [TextMessage long_text "inbound"])%list long_text "inbound").
  - right. left. reflexivity.
  - apply Nat.ltb_lt. vm_compute. reflexivity.
Defined.

(** C7 at a provider that is rate limited once and then refuses the
    request, and at a provider that answers text that does not decode. *)
Lemma failure_yields_fallback_witness :
  LLM.analyze_conversation isoformat refuses hello =
    (Ok LLM.fallback_decision,
     [LLM.ModelCall 0 hello_prompt; LLM.Sleep 1; LLM.ModelCall 1 hello_prompt]) /\
  LLM.analyze_conversation isoformat garbles hello =
    (Ok LLM.fallback_decision, [LLM.ModelCall 0 hello_prompt]).
Proof.
  split.
  - destruct (failure_yields_fallback isoformat refuses hello) as (_ & H & _).
    apply (H 1%nat (APIStatusError 400)).
    + reflexivity.
    + unfold LLM.max_attempts. lia.
    + intros j Hj. assert (j = 0%nat) as -> by lia.
      exists RateLimitError. split; reflexivity.
    + reflexivity.
    + reflexivity.
  - destruct (failure_yields_fallback isoformat garbles hello) as (_ & _ & H & _).
    apply (H 0%nat (LLM.mkCompletion None)).
    + reflexivity.
    + unfold LLM.max_attempts. lia.
    + intros j Hj. lia.
    + reflexivity.
    + reflexivity.
Defined.

(** C8 at a provider that is rate limited twice and then answers. *)
Lemma rate_limit_retry_witness :
  LLM.analyze_conversation isoformat (answers_third asks_product) hello =
    (Ok asks_product,
     [LLM.ModelCall 0 hello_prompt; LLM.Sleep 1;
      LLM.ModelCall 1 hello_prompt; LLM.Sleep 1;
      LLM.ModelCall 2 hello_prompt]).
Proof.
  destruct (rate_limit_retry isoformat (answers_third asks_product) hello)
    as (_ & _ & _ & H).
  exact (proj1 (H RateLimitError (APIStatusError 429)
                  (LLM.mkCompletion (Some asks_product)) asks_product
                  eq_refl eq_refl eq_refl eq_refl eq_refl eq_refl eq_refl)).
Defined.

(** C9 at a batch of two references, the first of which is not one. *)
Lemma relay_failures_are_isolated_witness :
  exists w',
    download_media_files config (cycle (answers completes) "S2" "S3" true)
      (mkFeedbackData (Some sender) (Some "AirPods Pro") (Some "it's great")
                      (Some ["no-reference"; reference])) no_store
    = (Ok tt, w') /\
    feedback_table w' =
      [mkFeedback (Some sender) (Some "AirPods Pro") (Some "it's great")
         ["https://feedback-bucket.s3.amazonaws.com/feedback-media/MM1/ME1.jpeg"]].
Proof.
  destruct (relay_failures_are_isolated config
              (cycle (answers completes) "S2" "S3" true)
              (mkFeedbackData (Some sender) (Some "AirPods Pro") (Some "it's great")
                              (Some ["no-reference"; reference])) no_store)
    as (_ & _ & _ & w' & Hrun & Hrow & _).
  exists w'. split; [exact Hrun | exact Hrow].
Defined.

(** C1 fails on two cycles from the empty store.  In the first the
    provider refuses the request: the session S1 is created and nothing is
    logged.  In the second the lookup finds S1 without messages and S2 is
    created while S1 is still active. *)
Lemma two_active_sessions_after_two_cycles :
  let w := reply_cycles [cycle refuses "S1" "R1" true;
                         cycle (answers asks_product) "S2" "R2" true] no_store in
  at_most_one_active (session_table no_store) sender /\
  (exists item1 item2,
     session_table w !! "S1" = Some item1 /\ active_for sender item1 /\
     session_table w !! "S2" = Some item2 /\ active_for sender item2) /\
  ~ at_most_one_active (session_table w) sender.
Proof.
  intros w.
  assert (H1 : session_table w !! "S1" = Some (new_session sender 1735689600))
    by (vm_compute; reflexivity).
  assert (H2 : session_table w !! "S2" = Some (new_session sender 1735689600))
    by (vm_compute; reflexivity).
  split; [|split].
  - intros k1 k2 item1 item2 Hk1. simpl in Hk1. rewrite lookup_empty in Hk1.
    discriminate.
  - exists (new_session sender 1735689600), (new_session sender 1735689600).
    repeat split; assumption || reflexivity.
  - intros Hone.
    assert (Heq : "S1" = "S2").
    { apply (Hone "S1" "S2" _ _ H1 H2); split; reflexivity. }
    discriminate.
Qed.

(** C1 as amended, on two cycles from the empty store.  The first creates
    S1 and logs its reply; the second finds S1 with that message and
    continues it. *)
Lemma one_active_session_invariant_witness :
  let cycles := [cycle (answers asks_product) "S1" "R1" true;
                 cycle (answers asks_product) "S2" "R2" true] in
  steady isoformat config sender cycles no_store /\
  at_most_one_active (session_table (reply_cycles cycles no_store)) sender.
Proof.
  intros cycles.
  assert (Hone : at_most_one_active (session_table no_store) sender).
  { intros k1 k2 item1 item2 Hk1. simpl in Hk1. rewrite lookup_empty in Hk1.
    discriminate. }
  assert (Hsteady : steady isoformat config sender cycles no_store).
  { split; [|split; [|split; [|split; [|exact I]]]].
    - left. intros k item Hk. simpl in Hk. rewrite lookup_empty in Hk.
      discriminate.
    - intros conversation w1 d Hres Hd.
      vm_compute in Hres. inversion Hres; subst. clear Hres.
      vm_compute in Hd. inversion Hd; subst. reflexivity.
    - right. exists "S1", (new_session sender 1735689600).
      split; [vm_compute; reflexivity | vm_compute; discriminate].
    - intros conversation w1 d Hres Hd.
      vm_compute in Hres. inversion Hres; subst. clear Hres.
      vm_compute in Hd. inversion Hd; subst. reflexivity. }
  split; [exact Hsteady|].
  apply (one_active_session_invariant isoformat config sender cycles no_store
           Hone Hsteady [cycle (answers asks_product) "S1" "R1" true]
           (cycle (answers asks_product) "S2" "R2" true) [] eq_refl).
Defined.

(** C10 at a sender whose active session S1 has no stored message. *)
Lemma empty_active_session_not_reused_witness :
  query_active_session (session_table idle) sender = [("S1", session_1)] /\
  session_index (chat_table idle) "S1" = [] /\
  session_table
    (reply_user isoformat config (cycle (answers asks_product) "S2" "S3" true)
       sender idle).2 !! "S1" = Some session_1 /\
  (reply_user isoformat config (cycle (answers asks_product) "S2" "S3" true)
     sender idle).1 = Ok (mkSummary "S2" "M1" "sent") /\
  map chat_session_id
    (chat_table
       (reply_user isoformat config (cycle (answers asks_product) "S2" "S3" true)
          sender idle).2) = ["S2"].
Proof.
  split; [vm_compute; reflexivity|]. split; [reflexivity|].
  split; [|split; vm_compute; reflexivity].
  apply (empty_active_session_not_reused isoformat config
           (cycle (answers asks_product) "S2" "S3" true) sender idle "S1" session_1).
  - reflexivity.
  - reflexivity.
  - reflexivity.
  - vm_compute. reflexivity.
  - reflexivity.
  - discriminate.
  - discriminate.
Defined.

(** C5 at a conversation that the model declares complete, with one media
    reference. *)
Lemma completed_session_writes_feedback_witness :
  let env := cycle (answers completes) "S2" "S3" true in
  let w' := (reply_user isoformat config env sender talking).2 in
  is_feedback_session_complete completes = Some true /\
  (exists item,
     session_table w' !! "S1" = Some item /\
     session_status item = Some "completed") /\
  exists row,
    feedback_table w' = [row] /\
    feedback_sender_id row = Some sender /\
    feedback_product_name row = Some "AirPods Pro" /\
    feedback_text row = Some "it's great" /\
    feedback_media_urls row = omap (relay config env) [reference] /\
    forall u, In u (feedback_media_urls row) ->
      stored config w' u /\
      exists r, In r [reference] /\ relay config env r = Some u /\ u <> r.
Proof.
  intros env w'. split; [reflexivity|].
  apply (completed_session_writes_feedback isoformat config env sender talking
           (mkConversation [TextMessage "it's great" "inbound"] "S1") talking
           completes (reply_of env completes "S1")
           (get_reply_message isoformat env sender talking).2).
  - vm_compute. reflexivity.
  - vm_compute. reflexivity.
  - reflexivity.
  - vm_compute. reflexivity.
  - reflexivity.
  - discriminate.
  - reflexivity.
Defined.

(** C2 on the code.  The active session S1 has one message and the model
    flags explicit content.  The cycle opens S3 as active for the sender,
    writes the suspension marker on S3, names S3 in its summary and sends
    the suspension notice without logging it; the session S1 is not marked
    completed: it is stored as before, with status active. *)
Theorem reopen_leaves_prior_session_active :
  let env := cycle (answers flags_abuse) "S2" "S3" true in
  let w' := (reply_user isoformat config env sender talking).2 in
  (reply_user isoformat config env sender talking).1
    = Ok (mkSummary "S3" "M1" "sent") /\
  session_table talking !! "S1" = Some session_1 /\
  session_table w' !! "S1" = Some session_1 /\
  session_status session_1 = Some "active" /\
  session_table w' !! "S3" =
    Some (mkSession (Some sender) (Some "active") (Some 1735689600%Z)
                    (Some 1735689600%Z) (Some "2025-01-01T00:01:00")) /\
  whatsapp_outbox w' =
    [mkWhatsApp "whatsapp:+14155238886" "whatsapp:+155512345"
                LLM.suspension_reply] /\
  chat_table w' = chat_table talking.
Proof. vm_compute. repeat split; reflexivity. Qed.

(** C4 on the code.  Twilio refuses the message: nothing is sent, the
    reply is logged all the same, and [reply_user] does not raise but
    returns the summary with status sent. *)
Theorem send_failure_is_not_escalated :
  let env := cycle (answers asks_product) "S2" "S3" false in
  let w' := (reply_user isoformat config env sender talking).2 in
  twilio_send_ok env = false /\
  (reply_user isoformat config env sender talking).1
    = Ok (mkSummary "S1" "M1" "sent") /\
  whatsapp_outbox w' = [] /\
  chat_table w' =
    (chat_table talking ++
     [mkChat sender "M1" "outbound" "S1" 1735689600
             (Some "Which Apple product is your feedback about?") []
             (Some 0%Z) (Some 1%Z) (Some (StageName "product_name"))
             (Some "sent")])%list.
Proof. vm_compute. repeat split; reflexivity. Qed.

End Scenarios.

(** * Further properties of the classifier *)

Module FurtherClassifier.
Import LLM ClassifierSpec FurtherSpec ClassifierProperties.

Lemma exceeds_limit_inv (msg : Message) :
  exceeds_limit msg = true ->
  exists text direction,
    msg = TextMessage text direction /\ (1000 < String.length text)%nat.
Proof.
  destruct msg as [text direction | url direction]; simpl; [|discriminate].
  intros H. apply andb_true_iff in H. destruct H as [_ H].
  apply Nat.ltb_lt in H. eauto.
Qed.

(** X1. The length check fires exactly when some text entry of the history
    has more than 1000 characters: a text of 1000 characters passes, and a
    media entry never counts, whatever its address. *)
Theorem length_check_iff (messages : list Message) :
  any_exceeds_limit messages = true <->
  exists text direction,
    In (TextMessage text direction) messages /\
    (1000 < String.length text)%nat.
Proof.
  split.
  - induction messages as [|msg rest IH]; simpl; [discriminate|].
    destruct (exceeds_limit msg) eqn:Hmsg.
    + intros _. destruct (exceeds_limit_inv msg Hmsg) as (text & d & -> & Hlen).
      exists text, d. split; [left; reflexivity | exact Hlen].
    + intros H. destruct (IH H) as (text & d & Hin & Hlen).
      exists text, d. split; [right; exact Hin | exact Hlen].
  - intros (text & d & Hin & Hlen).
    apply (any_exceeds_limit_In messages text d Hin Hlen).
Qed.

Lemma retryable_spec (env : Env) (i : nat) :
  retryable env i = true ->
  exists e, provider env i = Failed e /\ is_rate_limit e = true.
Proof.
  unfold retryable. destruct (provider env i) as [r | e]; [discriminate|].
  intros H. eauto.
Qed.

Lemma not_retryable_spec (env : Env) (i : nat) :
  retryable env i = false ->
  forall e, provider env i = Failed e -> is_rate_limit e = true -> False.
Proof.
  unfold retryable. intros H e He Hrl. rewrite He in H. congruence.
Qed.

(** X2. Once the length check has passed, the whole call is decided by
    the first attempt that is not a rate-limit failure, or by the third
    attempt: the attempts before it were all rate limited, the decision is
    the answer to that attempt (the fallback if it failed), and the trace is
    the calls 0 to [k] with one pause between two calls and none after the
    last. *)
Theorem analyze_conversation_shape (isoformat : Z -> string) (env : Env)
    (messages : list Message) :
  any_exceeds_limit messages = false ->
  exists k,
    (k < max_attempts)%nat /\
    rate_limited_before env k /\
    (retryable env k = true -> k = 2%nat) /\
    analyze_conversation isoformat env messages =
      (Ok (answer_of isoformat env k),
       retries_then_call (_convert_messages_to_string messages) 0 k).
Proof.
  intros Hshort.
  destruct (retryable env 0) eqn:H0; [destruct (retryable env 1) eqn:H1|].
  - exists 2%nat. split; [unfold max_attempts; lia|].
    assert (Hprev : rate_limited_before env 2).
    { intros j Hj. destruct j as [|[|j]]; [| |lia]; apply retryable_spec; assumption. }
    split; [exact Hprev|]. split; [reflexivity|].
    apply analyze_conversation_after_retries; try assumption.
    + unfold max_attempts. lia.
    + reflexivity.
  - exists 1%nat. split; [unfold max_attempts; lia|].
    assert (Hprev : rate_limited_before env 1).
    { intros j Hj. assert (j = 0%nat) as -> by lia.
      apply retryable_spec; assumption. }
    split; [exact Hprev|]. split; [congruence|].
    apply analyze_conversation_after_retries; try assumption.
    + unfold max_attempts. lia.
    + intros e He Hrl. exfalso. exact (not_retryable_spec env 1 H1 e He Hrl).
  - exists 0%nat. split; [unfold max_attempts; lia|].
    split; [intros j Hj; lia|]. split; [congruence|].
    apply analyze_conversation_after_retries; try assumption.
    + unfold max_attempts. lia.
    + intros j Hj. lia.
    + intros e He Hrl. exfalso. exact (not_retryable_spec env 0 H0 e He Hrl).
Qed.

(** X3. When the three attempts are rate limited the call gives up: the
    decision is the fallback, after three calls and two pauses. *)
Theorem rate_limit_exhaustion (isoformat : Z -> string) (env : Env)
    (messages : list Message) :
  any_exceeds_limit messages = false ->
  rate_limited_before env 3 ->
  let p := _convert_messages_to_string messages in
  analyze_conversation isoformat env messages =
    (Ok fallback_decision,
     [ModelCall 0 p; Sleep 1; ModelCall 1 p; Sleep 1; ModelCall 2 p]).
Proof.
  intros Hshort Hall p.
  rewrite (analyze_conversation_after_retries isoformat env messages 2).
  - unfold answer_of. destruct (Hall 2%nat ltac:(lia)) as (e & -> & _).
    reflexivity.
  - exact Hshort.
  - unfold max_attempts. lia.
  - intros j Hj. apply Hall. lia.
  - reflexivity.
Qed.

Lemma concat_cons (sep x : string) (y : string) (ys : list string) :
  String.concat sep (x :: y :: ys) = (x ++ sep ++ String.concat sep (y :: ys))%string.
Proof. reflexivity. Qed.

Lemma string_append_assoc (a b c : string) :
  ((a ++ b) ++ c = a ++ (b ++ c))%string.
Proof.
  induction a as [|x a IH]; [reflexivity|].
  change (String x a ++ b)%string with (String x (a ++ b)).
  change (String x (a ++ b) ++ c)%string with (String x ((a ++ b) ++ c)).
  change (String x a ++ (b ++ c))%string with (String x (a ++ (b ++ c))).
  rewrite IH. reflexivity.
Qed.

Lemma concat_app (sep : string) (xs ys : list string) :
  xs <> [] -> ys <> [] ->
  String.concat sep (xs ++ ys) =
  (String.concat sep xs ++ sep ++ String.concat sep ys)%string.
Proof.
  intros Hxs Hys. induction xs as [|x xs IH]; [contradiction|].
  destruct xs as [|x' xs].
  - destruct ys as [|y ys]; [contradiction|]. reflexivity.
  - change ((x :: x' :: xs) ++ ys)%list with (x :: ((x' :: xs) ++ ys))%list.
    change ((x' :: xs) ++ ys)%list with (x' :: (xs ++ ys))%list.
    rewrite concat_cons.
    change (x' :: (xs ++ ys))%list with ((x' :: xs) ++ ys)%list.
    rewrite IH by discriminate. rewrite concat_cons.
    rewrite !string_append_assoc. reflexivity.
Qed.

(** X4. The prompt of an empty history is the empty text, and the prompt
    of two histories put end to end is their prompts joined by a line
    break: the entries are printed in order, one after the other. *)
Theorem prompt_of_append (earlier later : list Message) :
  _convert_messages_to_string [] = EmptyString /\
  (earlier <> [] -> later <> [] ->
   _convert_messages_to_string (earlier ++ later) =
   (_convert_messages_to_string earlier ++ newline
      ++ _convert_messages_to_string later)%string).
Proof.
  split; [reflexivity|]. intros He Hl. unfold _convert_messages_to_string.
  rewrite map_app. apply concat_app.
  - destruct earlier; [contradiction | discriminate].
  - destruct later; [contradiction | discriminate].
Qed.


End FurtherClassifier.

(** * Further properties of the orchestrator *)

Module FurtherOrchestrator.
Import ChatService OrchestratorSpec FurtherSpec OrchestratorProperties.

(** ** Reading the stores *)

(** X6. When the stores answer and the lookup finds a session that has
    stored items, [get_user_unresolved_session_message] returns the entries
    of all the items of that session, and of no other session, in the order
    of the index, whatever the size of the pages that DynamoDB serves, and
    it leaves the stores as they are. *)
Theorem history_is_complete (env : Env) (sender_id : string) (w : World)
    (session_id : string) (item : SessionItem) :
  dynamodb_ok env QuerySessions = true ->
  dynamodb_ok env QueryChats = true ->
  query_active_session (session_table w) sender_id = [(session_id, item)] ->
  session_index (chat_table w) session_id <> [] ->
  get_user_unresolved_session_message env sender_id w =
    (Ok (Some (mkConversation
                 (flat_map transform (session_index (chat_table w) session_id))
                 session_id)), w).
Proof.
  intros Hqs Hqc Hq Hidx. unfold get_user_unresolved_session_message.
  rewrite Hqs. simpl. rewrite Hq, Hqc. simpl. rewrite all_messages_index.
  destruct (session_index (chat_table w) session_id); [contradiction|].
  reflexivity.
Qed.

Lemma transform_entries (c : ChatItem) (msg : Message) :
  In msg (transform c) ->
  match msg with
  | TextMessage text direction =>
      content_text c = Some text /\ text <> EmptyString /\
      direction = (if chat_type c =? "inbound" then "inbound" else "outbound")
  | MediaMessage url direction =>
      In url (content_media_items c) /\
      direction = (if chat_type c =? "inbound" then "inbound" else "outbound")
  end.
Proof.
  unfold transform. rewrite in_app_iff. intros [Htext | Hmedia].
  - destruct (content_text c) as [text|]; [|contradiction].
    destruct (truthy_str text) eqn:Ht; [|contradiction].
    destruct Htext as [<- | []].
    split; [reflexivity|]. split; [|reflexivity].
    intros ->. discriminate.
  - apply in_map_iff in Hmedia. destruct Hmedia as (url & <- & Hin).
    split; [exact Hin | reflexivity].
Qed.

(** X7. Every entry of a history read from the store has the direction
    inbound or outbound, inbound exactly for the items whose [chat_type] is
    inbound; a text entry is never empty and is the text of a stored item,
    and a media entry carries the address of a media item of a stored
    item. *)
Theorem history_entries_well_formed (chats : list ChatItem) (msg : Message) :
  In msg (flat_map transform chats) ->
  exists c,
    In c chats /\
    match msg with
    | TextMessage text direction =>
        content_text c = Some text /\ text <> EmptyString /\
        (direction = "inbound" \/ direction = "outbound") /\
        (direction = "inbound" <-> chat_type c = "inbound")
    | MediaMessage url direction =>
        In url (content_media_items c) /\
        (direction = "inbound" \/ direction = "outbound") /\
        (direction = "inbound" <-> chat_type c = "inbound")
    end.
Proof.
  intros Hin. apply in_flat_map in Hin. destruct Hin as (c & Hc & Hmsg).
  exists c. split; [exact Hc|].
  pose proof (transform_entries c msg Hmsg) as H.
  destruct msg as [text direction | url direction].
  - destruct H as (Htext & Hne & ->). split; [exact Htext|]. split; [exact Hne|].
    destruct (chat_type c =? "inbound") eqn:Hty.
    + apply String.eqb_eq in Hty. split; [left; reflexivity|]. tauto.
    + apply String.eqb_neq in Hty. split; [right; reflexivity|].
      split; [discriminate | contradiction].
  - destruct H as (Hurl & ->). split; [exact Hurl|].
    destruct (chat_type c =? "inbound") eqn:Hty.
    + apply String.eqb_eq in Hty. split; [left; reflexivity|]. tauto.
    + apply String.eqb_neq in Hty. split; [right; reflexivity|].
      split; [discriminate | contradiction].
Qed.

(** X8. A session that has stored items is continued even when none of
    them carries a text or a media item: the history is empty, as for a new
    session, but no session is created and the sessions table is left as it
    is. *)
Theorem contentless_session_is_continued (env : Env) (sender_id : string)
    (w : World) (session_id : string) (item : SessionItem) :
  dynamodb_ok env QuerySessions = true ->
  dynamodb_ok env QueryChats = true ->
  query_active_session (session_table w) sender_id = [(session_id, item)] ->
  session_index (chat_table w) session_id <> [] ->
  (forall c, In c (session_index (chat_table w) session_id) -> transform c = []) ->
  resolve_conversation env sender_id w = (Ok (mkConversation [] session_id), w).
Proof.
  intros Hqs Hqc Hq Hidx Hempty.
  unfold resolve_conversation, mbind, M_bind, bind.
  rewrite (history_is_complete env sender_id w session_id item Hqs Hqc Hq Hidx).
  assert (Hnil : flat_map transform (session_index (chat_table w) session_id) = []).
  { clear Hidx.
    induction (session_index (chat_table w) session_id) as [|c rest IH];
      [reflexivity|].
    simpl. rewrite (Hempty c) by (left; reflexivity). simpl.
    apply IH. intros c' Hc'. apply Hempty. right. exact Hc'. }
  rewrite Hnil. reflexivity.
Qed.

(** X9. The lookup returns at most one session; a session it returns is
    stored under that key, belongs to the sender and has status active. *)
Theorem lookup_returns_one_active_session (table : gmap string SessionItem)
    (sender_id : string) :
  (length (query_active_session table sender_id) <= 1)%nat /\
  forall k item,
    In (k, item) (query_active_session table sender_id) ->
    table !! k = Some item /\
    session_sender_id item = Some sender_id /\
    session_status item = Some "active".
Proof.
  destruct (query_active_session_inv table sender_id)
    as [Hq | (k0 & item0 & Hq & Hk & Hs & Hact)]; rewrite Hq.
  - split; [simpl; lia | intros k item []].
  - split; [simpl; lia|]. intros k item [Heq | []]. inversion Heq; subst.
    split; [exact Hk|]. split; [exact Hs|].
    unfold is_active in Hact. destruct (session_status item) as [st|];
      [|discriminate].
    apply String.eqb_eq in Hact. subst. reflexivity.
Qed.

Lemma insert_recent_latest_first entry sorted :
  latest_first sorted -> latest_first (insert_recent entry sorted).
Proof.
  induction sorted as [|e rest IH]; simpl.
  - intros _. split; [constructor | exact I].
  - intros [Hall Hrest]. destruct (created e <=? created entry)%Z eqn:Hle.
    + apply Z.leb_le in Hle. simpl. split; [|split; assumption].
      constructor; [exact Hle|].
      eapply Forall_impl; [exact Hall|]. simpl. intros x Hx. lia.
    + apply Z.leb_gt in Hle. simpl. split; [|apply IH; exact Hrest].
      apply Forall_forall. intros x Hx.
      apply list_elem_of_In, In_insert_recent in Hx.
      destruct Hx as [-> | Hx]; [lia|].
      rewrite Forall_forall in Hall. apply Hall, list_elem_of_In. exact Hx.
Qed.

Lemma most_recent_first_latest_first entries :
  latest_first (most_recent_first entries).
Proof.
  unfold most_recent_first. induction entries as [|e rest IH]; simpl;
    [exact I|].
  apply insert_recent_latest_first. exact IH.
Qed.

Lemma index_head_is_latest table sender_id e rest k item :
  sender_sessions_index table sender_id = e :: rest ->
  table !! k = Some item ->
  in_sender_index sender_id (k, item) = true ->
  (created (k, item) <= created e)%Z.
Proof.
  intros Hidx Hk Hin.
  assert (Hmem : In (k, item) (sender_sessions_index table sender_id)).
  { unfold sender_sessions_index. apply In_most_recent_first.
    apply filter_In. split; [|exact Hin].
    apply list_elem_of_In, elem_of_map_to_list. exact Hk. }
  pose proof (most_recent_first_latest_first
                (List.filter (in_sender_index sender_id) (map_to_list table)))
    as Hsorted.
  fold (sender_sessions_index table sender_id) in Hsorted.
  rewrite Hidx in Hsorted, Hmem. simpl in Hsorted. destruct Hsorted as [Hall _].
  destruct Hmem as [<- | Hmem]; [lia|].
  rewrite Forall_forall in Hall. apply Hall, list_elem_of_In. exact Hmem.
Qed.

(** X10. The lookup only looks at the most recent session of the sender
    (the limit of one item applies before the filter on the status): a
    session it returns was created no earlier than any session of the
    sender, and when a session of the sender that is not active was created
    later than all the others, the lookup returns nothing, even if older
    sessions of the sender are active. *)
Theorem lookup_sees_only_the_latest (table : gmap string SessionItem)
    (sender_id : string) :
  (forall k item k' item' t',
     In (k, item) (query_active_session table sender_id) ->
     table !! k' = Some item' ->
     session_sender_id item' = Some sender_id ->
     session_created_at item' = Some t' ->
     exists t, session_created_at item = Some t /\ (t' <= t)%Z) /\
  (forall k item t,
     table !! k = Some item ->
     session_sender_id item = Some sender_id ->
     session_created_at item = Some t ->
     is_active item = false ->
     (forall k' item' t',
        k' <> k -> table !! k' = Some item' ->
        session_sender_id item' = Some sender_id ->
        session_created_at item' = Some t' -> (t' < t)%Z) ->
     query_active_session table sender_id = []).
Proof.
  assert (Hindex : forall k item t,
            session_sender_id item = Some sender_id ->
            session_created_at item = Some t ->
            in_sender_index sender_id (k, item) = true /\ created (k, item) = t).
  { intros k item t Hs Ht. unfold in_sender_index, created. simpl.
    rewrite Hs, Ht. split; [apply String.eqb_refl | reflexivity]. }
  split.
  - intros k item k' item' t' Hin Hk' Hs' Ht'.
    unfold query_active_session in Hin.
    destruct (sender_sessions_index table sender_id) as [|e rest] eqn:Hidx;
      [contradiction|].
    simpl in Hin. destruct (is_active e.2); [|contradiction].
    destruct Hin as [-> | []].
    destruct (Hindex k' item' t' Hs' Ht') as [Hin' Hc'].
    pose proof (index_head_is_latest table sender_id (k, item) rest k' item'
                  Hidx Hk' Hin') as Hle.
    assert (Hmem : In (k, item) (sender_sessions_index table sender_id))
      by (rewrite Hidx; left; reflexivity).
    unfold sender_sessions_index in Hmem.
    apply In_most_recent_first, filter_In in Hmem. destruct Hmem as [_ Hin0].
    unfold in_sender_index in Hin0. simpl in Hin0.
    destruct (session_sender_id item); [|discriminate].
    destruct (session_created_at item) as [t|] eqn:Ht; [|discriminate].
    exists t. split; [reflexivity|].
    unfold created in Hle, Hc'. simpl in Hle, Hc'. rewrite Ht in Hle.
    simpl in Hle. lia.
  - intros k item t Hk Hs Ht Hact Hlater.
    destruct (Hindex k item t Hs Ht) as [Hin Hc].
    unfold query_active_session.
    destruct (sender_sessions_index table sender_id) as [|[k0 item0] rest] eqn:Hidx.
    + reflexivity.
    + pose proof (index_head_is_latest table sender_id (k0, item0) rest k item
                    Hidx Hk Hin) as Hle.
      destruct (In_sender_sessions_index table sender_id k0 item0) as [Hk0 Hs0].
      { rewrite Hidx. left. reflexivity. }
      assert (Hmem : In (k0, item0) (sender_sessions_index table sender_id))
        by (rewrite Hidx; left; reflexivity).
      unfold sender_sessions_index in Hmem.
      apply In_most_recent_first, filter_In in Hmem. destruct Hmem as [_ Hin0].
      unfold in_sender_index in Hin0. simpl in Hin0. rewrite Hs0 in Hin0.
      destruct (session_created_at item0) as [t0|] eqn:Ht0; [|discriminate].
      destruct (decide (k0 = k)) as [-> | Hne].
      * rewrite Hk in Hk0. inversion Hk0; subst. simpl. rewrite Hact.
        reflexivity.
      * pose proof (Hlater k0 item0 t0 Hne Hk0 Hs0 Ht0) as Hlt.
        unfold created in Hle, Hc. simpl in Hle, Hc. rewrite Ht0 in Hle.
        simpl in Hle. lia.
Qed.

(** ** Session updates *)

Lemma no_sender_not_found (table : gmap string SessionItem) k item0 sender_id item :
  table !! k = Some item0 -> session_sender_id item0 = None ->
  ~ In (k, item) (query_active_session table sender_id).
Proof.
  intros Hk Hnone Hin.
  destruct (query_active_session_inv table sender_id)
    as [Hq | (k1 & item1 & Hq & Hk1 & Hs1 & _)]; rewrite Hq in Hin;
    [contradiction|].
  destruct Hin as [Heq | []]. inversion Heq; subst.
  rewrite Hk in Hk1. inversion Hk1; subst. congruence.
Qed.

(** X11. [mark_session_as_limited] either fails on the store and changes
    nothing, or writes the marker and the update time on the item of that
    id and nothing else: status, sender and creation time of the item, the
    other items and the other stores stay as they are.  On an id that is
    not stored it creates an item that has neither sender nor status, which
    no lookup returns. *)
Theorem limited_marker_is_written (env : Env) (session_id until : string)
    (w : World) :
  let result := mark_session_as_limited env session_id until w in
  (dynamodb_ok env UpdateLimited = false -> result = (Raise ClientError, w)) /\
  (dynamodb_ok env UpdateLimited = true ->
   result.1 = Ok tt /\
   only_sessions_differ w result.2 /\
   (forall k, k <> session_id ->
              session_table result.2 !! k = session_table w !! k) /\
   (exists item',
      session_table result.2 !! session_id = Some item' /\
      session_user_limited_until item' = Some until /\
      session_updated_at item' = Some (time_time env UpdateLimited) /\
      let before := default empty_session (session_table w !! session_id) in
      session_status item' = session_status before /\
      session_sender_id item' = session_sender_id before /\
      session_created_at item' = session_created_at before) /\
   (session_table w !! session_id = None ->
    forall sender_id item,
      ~ In (session_id, item)
           (query_active_session (session_table result.2) sender_id))).
Proof.
  unfold mark_session_as_limited, update_session. simpl.
  destruct (dynamodb_ok env UpdateLimited); split; try discriminate;
    try (intros _; reflexivity).
  intros _. simpl. split; [reflexivity|].
  split; [repeat split|]. split.
  { intros k Hne. apply lookup_insert_ne. congruence. }
  split.
  { eexists. split; [apply lookup_insert_eq|]. repeat split. }
  intros Hnone sender_id item.
  eapply no_sender_not_found; [apply lookup_insert_eq|].
  rewrite Hnone. reflexivity.
Qed.


(** ** The media relay *)

(** X13. [upload_to_s3] never raises.  When the put succeeds it returns the
    address made of the bucket and the key
    [feedback-media/<message sid>/<media sid>.<extension>], the bucket holds
    under that key the content with its content type and the cache header
    of one year, and the other objects and stores are as before; when the
    put fails it returns [None] and changes nothing. *)
Theorem upload_round_trip (cfg : Config) (env : Env)
    (content message_sid media_sid content_type : string) (w : World) :
  let s3_key := s3_key_of message_sid media_sid (extension_of content_type) in
  let result := upload_to_s3 cfg env content message_sid media_sid content_type w in
  (s3_put_ok env s3_key = true ->
   result.1 = Ok (Some (s3_url_of (s3_bucket_name cfg) s3_key)) /\
   s3_objects result.2 !! s3_key =
     Some (mkObject content content_type "max-age=31536000") /\
   (forall k, k <> s3_key -> s3_objects result.2 !! k = s3_objects w !! k) /\
   session_table result.2 = session_table w /\
   chat_table result.2 = chat_table w /\
   feedback_table result.2 = feedback_table w) /\
  (s3_put_ok env s3_key = false -> result = (Ok None, w)).
Proof.
  intros s3_key result. subst result.
  unfold upload_to_s3, try_except, mbind, M_bind, bind, s3_put_object,
    mret, M_ret, ret.
  fold (extension_of content_type). fold s3_key.
  destruct (s3_put_ok env s3_key); simpl; split; try discriminate.
  - intros _. split; [reflexivity|]. split; [apply lookup_insert_eq|].
    split; [|repeat split].
    intros k Hne. apply lookup_insert_ne. congruence.
  - intros _. reflexivity.
Qed.

(** X14. The extension of the key is the part of the content type after
    its last slash: it holds no slash, it is the whole content type when
    that has no slash, and it is the subtype of a content type of the form
    type/subtype. *)
Theorem extension_is_last_part (content_type : string) :
  has_char slash (extension_of content_type) = false /\
  (has_char slash content_type = false ->
   extension_of content_type = content_type) /\
  (forall type subtype,
     has_char slash subtype = false ->
     content_type = (type ++ "/" ++ subtype)%string ->
     extension_of content_type = subtype).
Proof.
  split; [apply extension_of_no_slash|]. split.
  - intros H. unfold extension_of. rewrite (split_no_sep slash _ H).
    reflexivity.
  - intros type subtype Hsub ->. unfold extension_of.
    change ("/" ++ subtype)%string with (String slash subtype).
    rewrite split_append, (split_no_sep slash subtype Hsub), from_end_last.
    reflexivity.
Qed.

Lemma split_length sep s : length (split sep s) = S (count_char sep s).
Proof.
  induction s as [|c rest IH]; [reflexivity|]. simpl.
  destruct (Ascii.eqb c sep); simpl.
  - rewrite IH. reflexivity.
  - destruct (split sep rest) as [|p ps]; simpl in *; lia.
Qed.

(** X15. A reference with fewer than two slashes has no message
    identifier: [download_single_media] returns [None] for it without
    raising and without touching any store. *)
Theorem short_reference_is_absent (cfg : Config) (env : Env) (url : string)
    (w : World) :
  (count_char slash url < 2)%nat ->
  download_single_media cfg env url w = (Ok None, w) /\
  relay cfg env url = None.
Proof.
  intros Hcount.
  assert (Hnone : from_end (split slash url) 3 = None).
  { unfold from_end. rewrite split_length.
    destruct (S (count_char slash url) <? 3)%nat eqn:H; [reflexivity|].
    apply Nat.ltb_ge in H. lia. }
  split.
  - unfold download_single_media, download_single_media_body, try_except,
      mbind, M_bind, bind, lift. rewrite Hnone. reflexivity.
  - unfold relay. rewrite Hnone. reflexivity.
Qed.

(** X16. The search in the media list of a message finds nothing exactly
    when no medium of the list has the sid; otherwise it gives the address
    made from the first medium that has it: the host of the provider
    followed by the uri of that medium without [.json]. *)
Theorem find_media_url_first_match (media_list : list TwilioMedia)
    (media_sid : string) :
  (find_media_url media_list media_sid = None <->
   forall media, In media media_list -> media_sid_of media <> media_sid) /\
  (forall location,
     find_media_url media_list media_sid = Some location ->
     exists before media after,
       media_list = (before ++ media :: after)%list /\
       (forall m, In m before -> media_sid_of m <> media_sid) /\
       media_sid_of media = media_sid /\
       location = ("https://api.twilio.com"
                   ++ remove_occurrences ".json" 0 (media_uri media))%string).
Proof.
  split.
  - induction media_list as [|media rest IH]; simpl.
    + split; [intros _ m [] | reflexivity].
    + destruct (media_sid_of media =? media_sid) eqn:Hsid.
      * apply String.eqb_eq in Hsid. split; [discriminate|].
        intros H. exfalso. apply (H media); [left; reflexivity | exact Hsid].
      * apply String.eqb_neq in Hsid. rewrite IH. split.
        -- intros H m [<- | Hm]; [exact Hsid | apply H; exact Hm].
        -- intros H m Hm. apply H. right. exact Hm.
  - induction media_list as [|media rest IH]; simpl; [discriminate|].
    intros location. destruct (media_sid_of media =? media_sid) eqn:Hsid.
    + apply String.eqb_eq in Hsid. intros H. inversion H; subst.
      exists [], media, rest. repeat split. intros m [].
    + apply String.eqb_neq in Hsid. intros H.
      destruct (IH location H) as (before & m0 & after & -> & Hbefore & Hm0 & Hloc).
      exists (media :: before), m0, after. repeat split; try assumption.
      intros m [<- | Hm]; [exact Hsid | apply Hbefore; exact Hm].
Qed.

Lemma prefix_json_dot (s : string) :
  String.prefix ".json" s = true -> exists rest, s = String "."%char rest.
Proof.
  destruct s as [|c rest]; [discriminate|].
  change (String.prefix ".json" (String c rest))
    with (if ascii_dec "."%char c then String.prefix "json" rest else false).
  destruct (ascii_dec "."%char c) as [<- | Hne]; [eauto | discriminate].
Qed.

Lemma remove_occurrences_no_dot (s : string) :
  has_char "."%char s = false -> remove_occurrences ".json" 0 s = s.
Proof.
  induction s as [|c rest IH]; [reflexivity|].
  intros H. simpl in H. apply orb_false_iff in H. destruct H as [Hc Hrest].
  cbn [remove_occurrences].
  destruct (String.prefix ".json" (String c rest)) eqn:Hp.
  - destruct (prefix_json_dot _ Hp) as (r & Heq). inversion Heq; subst.
    rewrite Ascii.eqb_refl in Hc. discriminate.
  - rewrite (IH Hrest). reflexivity.
Qed.

(** X17. Removing [.json] leaves a uri without any dot as it is, and gives
    back the path when the uri is a path without dot followed by
    [.json]. *)
Theorem json_suffix_is_stripped (path : string) :
  has_char "."%char path = false ->
  remove_occurrences ".json" 0 path = path /\
  remove_occurrences ".json" 0 (path ++ ".json") = path.
Proof.
  intros Hdot. split; [apply remove_occurrences_no_dot; exact Hdot|].
  induction path as [|c rest IH]; [reflexivity|].
  simpl in Hdot. apply orb_false_iff in Hdot. destruct Hdot as [Hc Hrest].
  change (String c rest ++ ".json")%string with (String c (rest ++ ".json")).
  cbn [remove_occurrences].
  destruct (String.prefix ".json" (String c (rest ++ ".json"))) eqn:Hp.
  - destruct (prefix_json_dot _ Hp) as (r & Heq). inversion Heq; subst.
    rewrite Ascii.eqb_refl in Hc. discriminate.
  - rewrite (IH Hrest). reflexivity.
Qed.

(** ** Addresses *)

Lemma prefix_whatsapp (s : string) :
  String.prefix "whatsapp:" ("whatsapp:" ++ s) = true.
Proof. destruct s; reflexivity. Qed.

Lemma with_prefix_has_prefix (number : string) :
  String.prefix "whatsapp:" (with_prefix number) = true.
Proof.
  unfold with_prefix.
  destruct (String.prefix "whatsapp:" number) eqn:Hp; [exact Hp|].
  apply prefix_whatsapp.
Qed.

(** X18. The sender address gets the prefix [whatsapp:] exactly when it
    lacks it, so the result always has it and prefixing twice changes
    nothing.  The receiver is the sender id after a plus sign, which never
    has the prefix: the address of the receiver is always [whatsapp:+]
    followed by the sender id, even for a sender id that starts with
    [whatsapp:]. *)
Theorem addresses_are_prefixed (number sender_id : string) :
  String.prefix "whatsapp:" (with_prefix number) = true /\
  with_prefix (with_prefix number) = with_prefix number /\
  (String.prefix "whatsapp:" number = true -> with_prefix number = number) /\
  with_prefix ("+" ++ sender_id) = ("whatsapp:+" ++ sender_id)%string.
Proof.
  pose proof (with_prefix_has_prefix number) as H1.
  split; [exact H1|]. split; [|split].
  - unfold with_prefix at 1. rewrite H1. reflexivity.
  - intros Hp. unfold with_prefix. rewrite Hp. reflexivity.
  - reflexivity.
Qed.

(** ** One reply cycle *)

Lemma keys_kept_refl w : keys_kept w w.
Proof. unfold keys_kept, only_sessions_differ. auto. Qed.

Lemma keys_kept_trans w1 w2 w3 :
  keys_kept w1 w2 -> keys_kept w2 w3 -> keys_kept w1 w3.
Proof.
  unfold keys_kept, only_sessions_differ.
  intros (H1 & -> & -> & -> & ->) (H2 & -> & -> & -> & ->). auto.
Qed.

Lemma put_session_keys_kept env call k item :
  ensures keys_kept any (put_session env call k item).
Proof.
  intros w. split; [|intros; exact I]. unfold put_session.
  destruct (dynamodb_ok env call); simpl; [|apply keys_kept_refl].
  split; [|repeat split]. simpl. intros k' Hk'.
  destruct (decide (k = k')) as [-> | Hne].
  - rewrite lookup_insert_eq. eauto.
  - rewrite lookup_insert_ne by exact Hne. exact Hk'.
Qed.

Lemma update_session_keys_kept env call k set :
  ensures keys_kept any (update_session env call k set).
Proof.
  intros w. split; [|intros; exact I]. unfold update_session.
  destruct (dynamodb_ok env call); simpl; [|apply keys_kept_refl].
  split; [|repeat split]. simpl. intros k' Hk'.
  destruct (decide (k = k')) as [-> | Hne].
  - rewrite lookup_insert_eq. eauto.
  - rewrite lookup_insert_ne by exact Hne. exact Hk'.
Qed.

Lemma get_reply_message_keys_kept isoformat env sender_id w :
  keys_kept w (get_reply_message isoformat env sender_id w).2.
Proof.
  assert (H : ensures keys_kept any (get_reply_message isoformat env sender_id)).
  { unfold get_reply_message.
    apply ensures_bind with (Q := any); [apply keys_kept_trans | |].
    - apply resolve_conversation_ensures;
        [apply keys_kept_refl | apply keys_kept_trans |].
      apply put_session_keys_kept.
    - intros conversation _. eapply ensures_weaken.
      + apply (apply_decision_ensures isoformat env sender_id keys_kept
                 keys_kept_refl keys_kept_trans conversation any);
          try exact I.
        * intros. apply update_session_keys_kept.
        * intros. apply put_session_keys_kept.
        * intros. apply update_session_keys_kept.
      + intros; exact I. }
  apply H.
Qed.

Lemma download_media_files_objects cfg env feedback_data w k :
  is_Some (s3_objects w !! k) ->
  is_Some (s3_objects (download_media_files cfg env feedback_data w).2 !! k).
Proof.
  intros Hk. unfold download_media_files.
  set (urls := get (data_media_urls feedback_data) []).
  unfold mbind at 1 2, M_bind, bind.
  destruct (0 <? length urls)%nat.
  - unfold mbind at 1 2, M_bind, bind, await_gather, lift.
    destruct (gather_downloads cfg env urls w) as (w1 & -> & Hg & _).
    rewrite saved_urls_of_relayed. unfold mret, M_ret, ret. simpl.
    unfold save_feedback_data. simpl. destruct Hg as (Hs3 & _).
    destruct (db_commit_ok env); simpl; apply Hs3; exact Hk.
  - unfold mret, M_ret, ret. simpl. unfold save_feedback_data. simpl.
    destruct (db_commit_ok env); simpl; exact Hk.
Qed.

Lemma reply_tasks_objects cfg env sender_id message_id timestamp r w k :
  is_Some (s3_objects w !! k) ->
  is_Some (s3_objects
             (gather (reply_tasks cfg env sender_id message_id timestamp r) w).2
           !! k).
Proof.
  intros Hk. unfold reply_tasks, send_whatsapp_message, save_chat_message.
  destruct (reply_should_persist r), (reply_is_complete r); simpl;
    destruct (twilio_send_ok env); simpl;
    try (destruct (dynamodb_ok env PutChat); simpl);
    try match goal with
      | |- context [download_media_files ?c ?e ?d ?w0] =>
          pose proof (download_media_files_objects c e d w0 k) as Hd;
          destruct (download_media_files c e d w0) as [o w2]; simpl in *;
          apply Hd
      end;
    exact Hk.
Qed.

(** X19. A reply cycle removes nothing, whether it returns or raises:
    every session id that was stored still is, the chat log, the outbox and
    the feedback store are what they were with at most one entry added at
    the end of each, and every object of the bucket is still there. *)
Theorem cycle_removes_nothing (isoformat : Z -> string) (cfg : Config) (env : Env)
    (sender_id : string) (w : World) :
  nothing_removed w (reply_user isoformat cfg env sender_id w).2.
Proof.
  rewrite reply_user_run.
  pose proof (get_reply_message_keys_kept isoformat env sender_id w) as Hkept.
  destruct (get_reply_message isoformat env sender_id w) as [[r | e] w1];
    simpl in *; destruct Hkept as (Hkeys & Hct & Hwo & Hs3 & Hft).
  - destruct (reply_tasks_effect cfg env sender_id (uuid_message env)
                (time_time env PutChat) r w1) as (Hst' & Hwo' & Hct' & Hft' & _).
    unfold nothing_removed. rewrite Hst', Hwo', Hct', Hft', Hct, Hwo, Hft.
    split; [exact Hkeys|]. split; [|split; [|split]].
    + destruct (reply_should_persist r && dynamodb_ok env PutChat).
      * eexists. split; [reflexivity | simpl; lia].
      * exists []. split; [rewrite app_nil_r; reflexivity | simpl; lia].
    + destruct (twilio_send_ok env).
      * eexists. split; [reflexivity | simpl; lia].
      * exists []. split; [rewrite app_nil_r; reflexivity | simpl; lia].
    + destruct (reply_is_complete r && db_commit_ok env).
      * eexists. split; [reflexivity | simpl; lia].
      * exists []. split; [rewrite app_nil_r; reflexivity | simpl; lia].
    + intros k Hk. apply reply_tasks_objects. rewrite Hs3. exact Hk.
  - unfold nothing_removed. rewrite Hct, Hwo, Hft, Hs3.
    split; [exact Hkeys|].
    repeat split; try (exists []; split; [rewrite app_nil_r; reflexivity | simpl; lia]).
    intros k Hk. exact Hk.
Qed.

Lemma apply_decision_raises isoformat env sender_id conversation w e w' :
  apply_decision isoformat env sender_id conversation w = (Raise e, w') ->
  e = ClientError.
Proof.
  destruct (ClassifierProperties.analyze_conversation_ok isoformat (llm_env env)
              (messages conversation)) as (d & Hd).
  unfold apply_decision. unfold mbind at 1, M_bind, bind at 1, lift. rewrite Hd.
  set (sid := conversation_session_id conversation).
  unfold mark_session_as_completed, mark_session_as_limited,
    put_session, update_session, mbind, M_bind, bind, mret, M_ret, ret.
  destruct (get (is_feedback_session_complete d) false && truthy_str sid);
    destruct (get (reopen_session d) false && truthy_str sid);
    destruct (truthy_opt_str (user_limited_until d));
    simpl;
    repeat (match goal with
            | |- context [dynamodb_ok env ?c] => destruct (dynamodb_ok env c)
            | |- context [truthy_str ?x] => destruct (truthy_str x)
            end; simpl);
    intros H; inversion H; reflexivity.
Qed.

Lemma resolve_conversation_raises env sender_id w e w' :
  resolve_conversation env sender_id w = (Raise e, w') -> e = ClientError.
Proof.
  unfold resolve_conversation, get_user_unresolved_session_message,
    mbind, M_bind, bind, put_session, mret, M_ret, ret.
  destruct (dynamodb_ok env QuerySessions); simpl;
    [|intros H; inversion H; reflexivity].
  destruct (query_active_session _ _) as [|[k item] rest].
  - destruct (dynamodb_ok env PutNewSession); simpl; intros H; inversion H;
      reflexivity.
  - destruct (dynamodb_ok env QueryChats); simpl;
      [|intros H; inversion H; reflexivity].
    destruct (all_messages _ _ _); simpl;
      [destruct (dynamodb_ok env PutNewSession); simpl|];
      intros H; inversion H; reflexivity.
Qed.

(** X20. When [reply_user] raises, the exception is the error of a
    request to DynamoDB (the lookup of the session, the fetch of the
    history or a write of a session), no message was handed to Twilio, and
    nothing was added to the chat log, to the bucket or to the feedback
    store; only the sessions table can differ, by the updates made before
    the failure. *)
Theorem failed_cycle_sends_nothing (isoformat : Z -> string) (cfg : Config)
    (env : Env) (sender_id : string) (w : World) (e : exn) :
  (reply_user isoformat cfg env sender_id w).1 = Raise e ->
  e = ClientError /\
  only_sessions_differ w (reply_user isoformat cfg env sender_id w).2.
Proof.
  rewrite reply_user_run.
  pose proof (get_reply_message_keys_kept isoformat env sender_id w) as Hkept.
  destruct (get_reply_message isoformat env sender_id w) as [[r | e'] w1] eqn:Hget;
    simpl; [discriminate|].
  intros H. inversion H; subst. split; [|apply Hkept].
  rewrite get_reply_message_run in Hget.
  destruct (resolve_conversation env sender_id w) as [[c | e1] w0] eqn:Hres.
  - eapply apply_decision_raises. exact Hget.
  - inversion Hget; subst. eapply resolve_conversation_raises. exact Hres.
Qed.

(** X21. In a cycle that returns, the summary, the log and the outbox
    agree: the summary has the status sent and the message id of the cycle;
    an item added to the chat log is of type outbound, from the sender of
    the cycle, with the message id and the session id of the summary; a
    message added to the outbox goes to [whatsapp:+] followed by the sender
    id, and its body is the text of the item added to the log, if both are
    added. *)
Theorem summary_matches_log (isoformat : Z -> string) (cfg : Config) (env : Env)
    (sender_id : string) (w : World) (summary : Summary) :
  (reply_user isoformat cfg env sender_id w).1 = Ok summary ->
  let w' := (reply_user isoformat cfg env sender_id w).2 in
  summary_status summary = "sent" /\
  summary_message_id summary = uuid_message env /\
  exists logged sent,
    chat_table w' = (chat_table w ++ logged)%list /\
    whatsapp_outbox w' = (whatsapp_outbox w ++ sent)%list /\
    (forall c, In c logged ->
       chat_type c = "outbound" /\
       chat_sender_id c = sender_id /\
       chat_message_id c = summary_message_id summary /\
       chat_session_id c = summary_session_id summary) /\
    (forall m, In m sent ->
       wa_to m = ("whatsapp:+" ++ sender_id)%string /\
       String.prefix "whatsapp:" (wa_from m) = true /\
       forall c, In c logged -> content_text c = Some (wa_body m)).
Proof.
  rewrite reply_user_run.
  pose proof (get_reply_message_keys_kept isoformat env sender_id w) as Hkept.
  destruct (get_reply_message isoformat env sender_id w) as [[r | e'] w1];
    simpl; [|discriminate].
  intros H. inversion H; subst. clear H. simpl. simpl in Hkept.
  destruct Hkept as (_ & Hct & Hwo & _).
  destruct (reply_tasks_effect cfg env sender_id (uuid_message env)
              (time_time env PutChat) r w1) as (_ & Hwo' & Hct' & _).
  split; [reflexivity|]. split; [reflexivity|].
  exists (if reply_should_persist r && dynamodb_ok env PutChat
          then [chat_data_of sender_id (uuid_message env) (time_time env PutChat) r]
          else []),
         (if twilio_send_ok env then [outbound_message cfg sender_id r] else []).
  split.
  { rewrite Hct', Hct. destruct (_ && _); [reflexivity|].
    rewrite app_nil_r. reflexivity. }
  split.
  { rewrite Hwo', Hwo. destruct (twilio_send_ok env); [reflexivity|].
    rewrite app_nil_r. reflexivity. }
  split.
  - intros c Hc. destruct (_ && _); [|contradiction].
    destruct Hc as [<- | []]. repeat split.
  - intros m Hm. destruct (twilio_send_ok env); [|contradiction].
    destruct Hm as [<- | []]. split; [reflexivity|]. split.
    + apply with_prefix_has_prefix.
    + intros c Hc. destruct (_ && _); [|contradiction].
      destruct Hc as [<- | []]. reflexivity.
Qed.

Lemma session_index_app chats more session_id :
  session_index (chats ++ more)%list session_id =
  (session_index chats session_id ++ session_index more session_id)%list.
Proof. unfold session_index. apply List.filter_app. Qed.

(** X22. What a cycle logs is read back by the next one: once the item
    of a reply is added to the chat log, the history of the session of the
    reply is the history before followed by the reply as an outbound text
    entry, or the history before when the reply is the empty text, and the
    histories of the other sessions are as before. *)
Theorem logged_reply_is_read_back (env : Env) (chats : list ChatItem)
    (sender_id message_id : string) (timestamp : Z) (r : Reply) :
  let chats' := (chats ++ [chat_data_of sender_id message_id timestamp r])%list in
  flat_map transform (all_messages env chats' (reply_session_id r)) =
    (flat_map transform (all_messages env chats (reply_session_id r)) ++
     (if truthy_str (reply_text r)
      then [TextMessage (reply_text r) "outbound"] else []))%list /\
  forall session_id,
    session_id <> reply_session_id r ->
    all_messages env chats' session_id = all_messages env chats session_id.
Proof.
  intros chats'. subst chats'. split.
  - rewrite !all_messages_index, session_index_app, flat_map_app. f_equal.
    unfold session_index. simpl. rewrite String.eqb_refl. simpl.
    unfold transform. simpl. destruct (truthy_str (reply_text r)); reflexivity.
  - intros session_id Hne. rewrite !all_messages_index, session_index_app.
    unfold session_index at 2. simpl.
    destruct (reply_session_id r =? session_id) eqn:Heq.
    + apply String.eqb_eq in Heq. congruence.
    + apply app_nil_r.
Qed.

(** X23. The uploads are not undone when the commit of the feedback store
    fails: [download_media_files] raises and writes no row, and the object
    of every reference whose relay succeeded is in the bucket. *)
Theorem uploads_survive_failed_commit (cfg : Config) (env : Env)
    (feedback_data : FeedbackData) (w : World) :
  db_commit_ok env = false ->
  let result := download_media_files cfg env feedback_data w in
  result.1 = Raise SQLAlchemyError /\
  feedback_table result.2 = feedback_table w /\
  forall url u,
    In url (get (data_media_urls feedback_data) []) ->
    relay cfg env url = Some u ->
    stored cfg result.2 u.
Proof.
  intros Hdb result. subst result.
  destruct (download_media_files_spec cfg env feedback_data w)
    as (w' & Hrun & _ & _ & _ & Hft & Hs3).
  rewrite Hrun, Hdb in *. simpl. split; [reflexivity|]. split; [exact Hft|].
  intros url u Hin Hrelay. apply Hs3. unfold feedback_row. simpl.
  apply list_elem_of_In, list_elem_of_omap. exists url.
  split; [apply list_elem_of_In; exact Hin | exact Hrelay].
Qed.

(** X24. For a sender that the lookup finds no session for, and a store
    that answers, [get_reply_message] first stores one new session, active,
    of the sender, created now, under the id that [uuid4] gave, leaving the
    other items and stores as they are, and then asks the classifier about
    the empty history: it runs as [apply_decision] on that session and no
    message. *)
Theorem first_contact_opens_a_session (isoformat : Z -> string) (env : Env)
    (sender_id : string) (w : World) :
  dynamodb_ok env QuerySessions = true ->
  dynamodb_ok env PutNewSession = true ->
  query_active_session (session_table w) sender_id = [] ->
  let created := new_session sender_id (time_time env PutNewSession) in
  let w1 := with_session_table (fun t => <[uuid_new_session env := created]> t) w in
  resolve_conversation env sender_id w =
    (Ok (mkConversation [] (uuid_new_session env)), w1) /\
  session_table w1 !! uuid_new_session env = Some created /\
  (forall k, k <> uuid_new_session env ->
             session_table w1 !! k = session_table w !! k) /\
  only_sessions_differ w w1 /\
  get_reply_message isoformat env sender_id w =
    apply_decision isoformat env sender_id
      (mkConversation [] (uuid_new_session env)) w1.
Proof.
  intros Hqs Hput Hq created w1.
  assert (Hres : resolve_conversation env sender_id w =
                 (Ok (mkConversation [] (uuid_new_session env)), w1)).
  { unfold resolve_conversation, get_user_unresolved_session_message,
      mbind, M_bind, bind, put_session, mret, M_ret, ret.
    rewrite Hqs. simpl. rewrite Hq, Hput. reflexivity. }
  split; [exact Hres|]. split; [apply lookup_insert_eq|]. split.
  { intros k Hne. apply lookup_insert_ne. congruence. }
  split; [repeat split|].
  rewrite get_reply_message_run, Hres. reflexivity.
Qed.

End FurtherOrchestrator.

(** * Further properties: construction and the endpoint *)

Module FurtherSurface.
Import ChatService Startup Routes OrchestratorSpec FurtherSpec.
Import OrchestratorProperties.

Lemma chat_service_init_ok (config : gmap string string) :
  is_ok (chat_service_init config) =
  forallb (configured config) required_keys.
Proof.
  unfold chat_service_init, llm_init, required_keys, configured, forallb.
  destruct (bool_decide (config = ∅)) eqn:He.
  { apply bool_decide_eq_true in He. subst config. rewrite !lookup_empty.
    reflexivity. }
  destruct (config !! "S3_BUCKET_NAME") as [b|],
           (config !! "TWILIO_ACCOUNT_SID") as [a|],
           (config !! "TWILIO_AUTH_TOKEN") as [t|],
           (config !! "TWILIO_WHATSAPP_FROM") as [f|],
           (config !! "OPENAI_API_KEY") as [k|]; simpl;
    repeat match goal with
      | |- context [truthy_str ?x] => destruct (truthy_str x); simpl
      end;
    reflexivity.
Qed.

Lemma start_app_ok (config : gmap string string) :
  is_ok (start_app config) = is_ok (chat_service_init config).
Proof.
  unfold start_app, bootstrap_services.
  destruct (chat_service_init config); reflexivity.
Qed.

Lemma start_app_router (config : gmap string string) (router : Router) :
  start_app config = Ok router ->
  router_config router = config /\
  exists service,
    chat_service_init config = Ok service /\
    router_services router !! "chat_service" = Some service.
Proof.
  unfold start_app, bootstrap_services.
  destruct (chat_service_init config) as [service | e]; [|discriminate].
  intros H. inversion H; subst. simpl. split; [reflexivity|].
  exists service. split; [reflexivity | apply lookup_singleton_eq].
Qed.

(** X25. The service is constructed exactly when the configuration has a
    non-empty value for each of the five keys it reads; it then keeps these
    values, and the model is the configured one or [gpt-4.1].  Every
    failure of the construction is a [ValueError]. *)
Theorem construction_needs_five_keys (config : gmap string string) :
  is_ok (chat_service_init config) =
    forallb (configured config) required_keys /\
  (forall service, chat_service_init config = Ok service ->
     config !! "S3_BUCKET_NAME" = Some (s3_bucket_name (service_config service)) /\
     config !! "TWILIO_ACCOUNT_SID" = Some (account_sid (service_config service)) /\
     config !! "TWILIO_AUTH_TOKEN" = Some (auth_token (service_config service)) /\
     config !! "TWILIO_WHATSAPP_FROM" = Some (from_number (service_config service)) /\
     config !! "OPENAI_API_KEY" = Some (llm_api_key (service_llm service)) /\
     llm_model (service_llm service) = default "gpt-4.1" (config !! "OPENAI_MODEL")) /\
  (forall e, chat_service_init config = Raise e -> exists msg, e = ValueError msg).
Proof.
  unfold chat_service_init, llm_init, required_keys, configured, forallb.
  destruct (bool_decide (config = ∅)) eqn:He.
  { apply bool_decide_eq_true in He. subst config. rewrite !lookup_empty.
    simpl. split; [reflexivity|]. split; [discriminate|].
    intros e H. inversion H. eauto. }
  destruct (config !! "S3_BUCKET_NAME") as [b|],
           (config !! "TWILIO_ACCOUNT_SID") as [a|],
           (config !! "TWILIO_AUTH_TOKEN") as [t|],
           (config !! "TWILIO_WHATSAPP_FROM") as [f|],
           (config !! "OPENAI_API_KEY") as [k|]; simpl;
    repeat match goal with
      | |- context [truthy_str ?x] => destruct (truthy_str x); simpl
      end;
    (split; [reflexivity|]);
    (split; [intros service H; inversion H; subst; simpl; repeat split
            | intros e H; inversion H; eauto]).
Qed.

(** X26. The check of the secret lets a request pass exactly when a
    non-empty secret is configured and the header carries that very text.
    Without a configured secret every request is answered 500, whatever
    its header; with one, every other request is answered 401, the
    request without the header included. *)
Theorem secret_check_passes_iff (router : Router) (header : option string) :
  (verify_api_secret router header = None <->
   exists secret,
     router_config router !! "INTELLIGENCE_API_SECRET" = Some secret /\
     secret <> EmptyString /\ header = Some secret) /\
  (configured (router_config router) "INTELLIGENCE_API_SECRET" = false ->
   verify_api_secret router header =
     Some (HTTPException 500 "Server configuration error")) /\
  (configured (router_config router) "INTELLIGENCE_API_SECRET" = true ->
   header <> router_config router !! "INTELLIGENCE_API_SECRET" ->
   verify_api_secret router header =
     Some (HTTPException 401 "Invalid or missing API key")) /\
  verify_api_secret router None <> None.
Proof.
  unfold verify_api_secret, configured.
  destruct (router_config router !! "INTELLIGENCE_API_SECRET") as [secret|];
    simpl.
  - unfold truthy_str. destruct (secret =? EmptyString) eqn:Hs; simpl.
    + apply String.eqb_eq in Hs. subst secret.
      split; [|split; [reflexivity|split; [discriminate|discriminate]]].
      split; [discriminate|]. intros (s & Hs & Hne & _).
      inversion Hs; subst. contradiction.
    + apply String.eqb_neq in Hs.
      split; [|split; [discriminate|split]].
      * destruct (bool_decide (header = Some secret)) eqn:Hh; simpl.
        -- apply bool_decide_eq_true in Hh. split; [|reflexivity].
           intros _. exists secret. auto.
        -- apply bool_decide_eq_false in Hh. split; [discriminate|].
           intros (s & Hs' & _ & Hhs). inversion Hs'; subst. contradiction.
      * intros _ Hne. rewrite bool_decide_eq_false_2 by exact Hne. reflexivity.
      * discriminate.
  - split; [|split; [reflexivity|split; [discriminate|discriminate]]].
    split; [discriminate|]. intros (s & Hs & _). discriminate.
Qed.

Lemma resolve_conversation_returns env sender_id w :
  (forall call, call <> PutChat -> dynamodb_ok env call = true) ->
  exists conversation w1,
    resolve_conversation env sender_id w = (Ok conversation, w1).
Proof.
  intros Hup.
  assert (Hqs : dynamodb_ok env QuerySessions = true) by (apply Hup; discriminate).
  assert (Hqc : dynamodb_ok env QueryChats = true) by (apply Hup; discriminate).
  assert (Hpn : dynamodb_ok env PutNewSession = true) by (apply Hup; discriminate).
  unfold resolve_conversation, get_user_unresolved_session_message,
    mbind, M_bind, bind, put_session, mret, M_ret, ret.
  rewrite Hqs. simpl.
  destruct (query_active_session _ _) as [|[k item] rest].
  - rewrite Hpn. simpl. eauto.
  - rewrite Hqc. simpl.
    destruct (all_messages _ _ _); simpl; [rewrite Hpn; simpl|]; eauto.
Qed.

Lemma apply_decision_returns isoformat env sender_id conversation w :
  (forall call, call <> PutChat -> dynamodb_ok env call = true) ->
  exists r w1,
    apply_decision isoformat env sender_id conversation w = (Ok r, w1).
Proof.
  intros Hup.
  assert (Hc : dynamodb_ok env UpdateCompleted = true) by (apply Hup; discriminate).
  assert (Hr : dynamodb_ok env PutReopenedSession = true) by (apply Hup; discriminate).
  assert (Hl : dynamodb_ok env UpdateLimited = true) by (apply Hup; discriminate).
  destruct (ClassifierProperties.analyze_conversation_ok isoformat (llm_env env)
              (messages conversation)) as (d & Hd).
  unfold apply_decision. unfold mbind at 1, M_bind, bind at 1, lift. rewrite Hd.
  set (sid := conversation_session_id conversation).
  unfold mark_session_as_completed, mark_session_as_limited,
    put_session, update_session, mbind, M_bind, bind, mret, M_ret, ret.
  rewrite Hc, Hr, Hl.
  destruct (get (is_feedback_session_complete d) false && truthy_str sid);
    destruct (get (reopen_session d) false && truthy_str sid);
    destruct (truthy_opt_str (user_limited_until d));
    simpl;
    repeat (match goal with
            | |- context [truthy_str ?x] => destruct (truthy_str x)
            end; simpl);
    eauto.
Qed.

(** X27. When the requests to DynamoDB other than the write of the chat
    log succeed, a cycle always returns its summary, of status sent and
    with the message id of the cycle, whatever the model, Twilio, the write
    of the chat log, the bucket and the feedback store do. *)
Theorem answering_store_gives_summary (isoformat : Z -> string) (cfg : Config)
    (env : Env) (sender_id : string) (w : World) :
  (forall call, call <> PutChat -> dynamodb_ok env call = true) ->
  exists session_id,
    (ChatService.reply_user isoformat cfg env sender_id w).1 =
    Ok (mkSummary session_id (uuid_message env) "sent").
Proof.
  intros Hup. rewrite reply_user_run, get_reply_message_run.
  destruct (resolve_conversation_returns env sender_id w Hup)
    as (conversation & w1 & ->).
  destruct (apply_decision_returns isoformat env sender_id conversation w1 Hup)
    as (r & w2 & ->).
  simpl. eauto.
Qed.

(** X28. In a started application the endpoint finds its service, the
    one that the construction gave.  A request that the check of the secret
    refuses gets the answer of the check and changes no store.  A request
    that passes runs one cycle of the service for the sender of the
    request and is answered with the success message when the cycle
    returns, and with 500 and the detail [An error occurred] when it
    raises. *)
Theorem endpoint_runs_one_cycle (isoformat : Z -> string)
    (config : gmap string string) (router : Router) (env : Env)
    (header : option string) (sender_id message : string) (w : World) :
  start_app config = Ok router ->
  let result :=
    Routes.reply_user isoformat router env header sender_id message w in
  (forall refusal, verify_api_secret router header = Some refusal ->
     result = (refusal, w)) /\
  (verify_api_secret router header = None ->
   exists service,
     chat_service_init config = Ok service /\
     let cycle :=
       ChatService.reply_user isoformat (service_config service) env sender_id w in
     result.2 = cycle.2 /\
     result.1 = if is_ok cycle.1
                then Success "Reply sent successfully."
                else HTTPException 500 "An error occurred").
Proof.
  intros Hstart result. subst result.
  destruct (start_app_router config router Hstart)
    as (_ & service & Hinit & Hservice).
  unfold Routes.reply_user. split.
  - intros refusal ->. reflexivity.
  - intros ->. exists service. split; [exact Hinit|]. rewrite Hservice.
    destruct (ChatService.reply_user isoformat (service_config service) env
                sender_id w) as [[summary | e] w']; split; reflexivity.
Qed.

(** X29. The construction does not look at the secret of the endpoint:
    an application whose configuration has no secret, or the empty one,
    starts all the same, and then answers every request, whatever its
    header, with 500 and the detail [Server configuration error], without
    any effect on the stores. *)
Theorem secret_is_not_checked_at_startup (isoformat : Z -> string)
    (config : gmap string string) (env : Env)
    (header : option string) (sender_id message : string) (w : World) :
  forallb (configured config) required_keys = true ->
  configured config "INTELLIGENCE_API_SECRET" = false ->
  exists router,
    start_app config = Ok router /\
    Routes.reply_user isoformat router env header sender_id message w =
      (HTTPException 500 "Server configuration error", w).
Proof.
  intros Hkeys Hsecret.
  pose proof (start_app_ok config) as Hok.
  rewrite chat_service_init_ok, Hkeys in Hok.
  destruct (start_app config) as [router | e] eqn:Hstart; [|discriminate].
  exists router. split; [reflexivity|].
  destruct (start_app_router config router Hstart) as (Hconfig & _).
  unfold Routes.reply_user, verify_api_secret. rewrite Hconfig.
  unfold configured in Hsecret. rewrite Hsecret. reflexivity.
Qed.

End FurtherSurface.

(** * The further properties on concrete values *)

Module FurtherScenarios.
Import ChatService Startup Routes ClassifierSpec OrchestratorSpec FurtherSpec.
Import Examples FurtherExamples.
Import FurtherClassifier FurtherOrchestrator FurtherSurface.

(** X2 at a provider that answers at once. *)
Lemma analyze_conversation_shape_witness :
  exists k,
    (k < LLM.max_attempts)%nat /\
    rate_limited_before (answers asks_product) k /\
    (retryable (answers asks_product) k = true -> k = 2%nat) /\
    LLM.analyze_conversation isoformat (answers asks_product) hello =
      (Ok (answer_of isoformat (answers asks_product) k),
       retries_then_call (LLM._convert_messages_to_string hello) 0 k).
Proof.
  apply (analyze_conversation_shape isoformat (answers asks_product) hello).
  reflexivity.
Defined.

(** X3 at a provider that is rate limited at every attempt. *)
Lemma rate_limit_exhaustion_witness :
  LLM.analyze_conversation isoformat always_limited hello =
    (Ok LLM.fallback_decision,
     [LLM.ModelCall 0 hello_prompt; LLM.Sleep 1; LLM.ModelCall 1 hello_prompt;
      LLM.Sleep 1; LLM.ModelCall 2 hello_prompt]).
Proof.
  apply (rate_limit_exhaustion isoformat always_limited hello).
  - reflexivity.
  - intros j _. exists RateLimitError. split; reflexivity.
Defined.


(** X6 at a session with three stored items among those of another
    session, with the smallest page size. *)
Lemma history_is_complete_witness :
  get_user_unresolved_session_message
    (cycle (answers asks_product) "S2" "S3" true) sender chatty =
    (Ok (Some (mkConversation
                 (flat_map transform (session_index (chat_table chatty) "S1"))
                 "S1")), chatty).
Proof.
  apply (history_is_complete (cycle (answers asks_product) "S2" "S3" true)
           sender chatty "S1" session_1).
  - reflexivity.
  - reflexivity.
  - vm_compute. reflexivity.
  - vm_compute. discriminate.
Defined.

(** X7 at the text entry of a stored inbound item. *)
Lemma history_entries_well_formed_witness :
  exists c,
    In c [inbound_1; inbound_2] /\
    content_text c = Some "it's great" /\ "it's great" <> EmptyString /\
    ("inbound" = "inbound" \/ "inbound" = "outbound") /\
    ("inbound" = "inbound" <-> chat_type c = "inbound").
Proof.
  apply (history_entries_well_formed [inbound_1; inbound_2]
           (TextMessage "it's great" "inbound")).
  vm_compute. left. reflexivity.
Defined.

(** X8 at a session whose only item is a receipt without content. *)
Lemma contentless_session_is_continued_witness :
  resolve_conversation (cycle (answers asks_product) "S2" "S3" true)
    sender contentless =
  (Ok (mkConversation [] "S1"), contentless).
Proof.
  apply (contentless_session_is_continued
           (cycle (answers asks_product) "S2" "S3" true) sender contentless
           "S1" session_1).
  - reflexivity.
  - reflexivity.
  - vm_compute. reflexivity.
  - vm_compute. discriminate.
  - intros c Hc. vm_compute in Hc. destruct Hc as [<- | []]. reflexivity.
Defined.


(** X15 at a reference that has a single slash. *)
Lemma short_reference_is_absent_witness :
  let env := cycle (answers completes) "S2" "S3" true in
  download_single_media config env "Media/ME1" no_store = (Ok None, no_store) /\
  relay config env "Media/ME1" = None.
Proof.
  intros env.
  apply (short_reference_is_absent config env "Media/ME1" no_store).
  vm_compute. lia.
Defined.

(** X17 at the path of a media resource. *)
Lemma json_suffix_is_stripped_witness :
  let path := "/2010-04-01/Accounts/AC0/Messages/MM1/Media/ME1" in
  remove_occurrences ".json" 0 path = path /\
  remove_occurrences ".json" 0 (path ++ ".json") = path.
Proof.
  intros path. apply (json_suffix_is_stripped path). reflexivity.
Defined.

(** X20 at a session store that does not answer the lookup. *)
Lemma failed_cycle_sends_nothing_witness :
  ClientError = ClientError /\
  only_sessions_differ talking
    (ChatService.reply_user isoformat config store_down sender talking).2.
Proof.
  apply (failed_cycle_sends_nothing isoformat config store_down sender talking
           ClientError).
  vm_compute. reflexivity.
Defined.

(** X21 at a cycle that asks for the product name. *)
Lemma summary_matches_log_witness :
  let env := cycle (answers asks_product) "S2" "S3" true in
  let summary := mkSummary "S1" "M1" "sent" in
  let w' := (ChatService.reply_user isoformat config env sender talking).2 in
  summary_status summary = "sent" /\
  summary_message_id summary = uuid_message env /\
  exists logged sent,
    chat_table w' = (chat_table talking ++ logged)%list /\
    whatsapp_outbox w' = (whatsapp_outbox talking ++ sent)%list /\
    (forall c, In c logged ->
       chat_type c = "outbound" /\
       chat_sender_id c = sender /\
       chat_message_id c = summary_message_id summary /\
       chat_session_id c = summary_session_id summary) /\
    (forall m, In m sent ->
       wa_to m = ("whatsapp:+" ++ sender)%string /\
       String.prefix "whatsapp:" (wa_from m) = true /\
       forall c, In c logged -> content_text c = Some (wa_body m)).
Proof.
  intros env summary.
  apply (summary_matches_log isoformat config env sender talking summary).
  vm_compute. reflexivity.
Defined.

(** X23 at a completed session with one reference, when the feedback
    store refuses the commit. *)
Lemma uploads_survive_failed_commit_witness :
  let data := feedback_payload sender (reply_of commit_fails completes "S1") in
  let result := download_media_files config commit_fails data talking in
  result.1 = Raise SQLAlchemyError /\
  feedback_table result.2 = feedback_table talking /\
  forall url u,
    In url (get (data_media_urls data) []) ->
    relay config commit_fails url = Some u ->
    stored config result.2 u.
Proof.
  intros data.
  apply (uploads_survive_failed_commit config commit_fails data talking).
  reflexivity.
Defined.

(** X24 at the empty store. *)
Lemma first_contact_opens_a_session_witness :
  let env := cycle (answers asks_product) "S2" "S3" true in
  let created := new_session sender (time_time env PutNewSession) in
  let w1 := with_session_table (fun t => <[uuid_new_session env := created]> t)
              no_store in
  resolve_conversation env sender no_store =
    (Ok (mkConversation [] (uuid_new_session env)), w1) /\
  session_table w1 !! uuid_new_session env = Some created /\
  (forall k, k <> uuid_new_session env ->
             session_table w1 !! k = session_table no_store !! k) /\
  only_sessions_differ no_store w1 /\
  get_reply_message isoformat env sender no_store =
    apply_decision isoformat env sender
      (mkConversation [] (uuid_new_session env)) w1.
Proof.
  intros env.
  apply (first_contact_opens_a_session isoformat env sender no_store).
  - reflexivity.
  - reflexivity.
  - vm_compute. reflexivity.
Defined.

(** X27 when every service but the session store fails. *)
Lemma answering_store_gives_summary_witness :
  exists session_id,
    (ChatService.reply_user isoformat config only_sessions_up sender talking).1 =
    Ok (mkSummary session_id (uuid_message only_sessions_up) "sent").
Proof.
  apply (answering_store_gives_summary isoformat config only_sessions_up sender
           talking).
  intros call Hcall. destruct call; try reflexivity. contradiction.
Defined.

(** X28 at the application started from the full configuration. *)
Lemma endpoint_runs_one_cycle_witness :
  let env := cycle (answers asks_product) "S2" "S3" true in
  let result :=
    Routes.reply_user isoformat router env (Some "s3cret") sender "hello" talking in
  (forall refusal, verify_api_secret router (Some "s3cret") = Some refusal ->
     result = (refusal, talking)) /\
  (verify_api_secret router (Some "s3cret") = None ->
   exists service,
     chat_service_init full_config = Ok service /\
     let cycle :=
       ChatService.reply_user isoformat (service_config service) env sender
         talking in
     result.2 = cycle.2 /\
     result.1 = if is_ok cycle.1
                then Success "Reply sent successfully."
                else HTTPException 500 "An error occurred").
Proof.
  intros env.
  apply (endpoint_runs_one_cycle isoformat full_config router env
           (Some "s3cret") sender "hello" talking).
  vm_compute. reflexivity.
Defined.

(** X29 at a configuration that has the five keys and no secret. *)
Lemma secret_is_not_checked_at_startup_witness :
  exists router,
    start_app no_secret_config = Ok router /\
    Routes.reply_user isoformat router
      (cycle (answers asks_product) "S2" "S3" true) (Some "s3cret") sender
      "hello" talking =
    (HTTPException 500 "Server configuration error", talking).
Proof.
  apply (secret_is_not_checked_at_startup isoformat no_secret_config
           (cycle (answers asks_product) "S2" "S3" true) (Some "s3cret") sender
           "hello" talking).
  - vm_compute. reflexivity.
  - vm_compute. reflexivity.
Defined.

End FurtherScenarios.
